(** * hyperplane: a reactive-property adapter for custom elements

    A shallow embedding of [hyperplane.ts] (the revision with
    [parseAttribute] and the manual [update] trigger) and the properties of
    its specification that can be settled on it.

    Layout:
    - JavaScript values, strict equality and truthiness;
    - the platform functions the code calls ([JSON.parse], [Number],
      [BigInt]; [URL] and [Date] are taken as parameters);
    - [parseAttribute], [createPropertiesDescriptors];
    - the host as a state machine: cells, registered observables, live
      subscriptions and the log of observable side effects;
    - the theorems. *)

From stdpp Require Import base option list strings gmap.
From Stdlib Require Import ZArith Ascii String Lia.

Set Warnings "-register-all".

Open Scope string_scope.
Open Scope list_scope.
Open Scope Z_scope.

(** ** Exceptions *)

Inductive exn := TypeError | SyntaxError.

Inductive result (A : Type) :=
| Ok (a : A)
| Throw (e : exn).
Arguments Ok {A} a.
Arguments Throw {A} e.

Definition bind {A B} (r : result A) (k : A -> result B) : result B :=
  match r with
  | Ok a => k a
  | Throw e => Throw e
  end.

Notation "x <-! r ; k" := (bind r (fun x => k))
  (at level 100, r at next level, right associativity).

(** ** Numbers

    A JavaScript number is modelled by the exact value it denotes: an
    integer, or a decimal fraction [m / 10^k] in lowest form ([m] is not a
    multiple of ten).  Rounding to a double and the sign of zero are not
    modelled. *)

Inductive number :=
| NaN
| Infinity (negative : bool)
| Int (z : Z)
| Frac (m : Z) (k : positive).

(** [decimal m k] is the number [m / 10^k], in lowest form. *)
Fixpoint decimal (m : Z) (k : nat) : number :=
  match k with
  | O => Int m
  | S k' => if (m mod 10 =? 0) then decimal (m / 10) k' else Frac m (Pos.of_nat k)
  end.

(** [scaled m e] is [m * 10^e] for any integer exponent. *)
Definition scaled (m e : Z) : number :=
  if (0 <=? e) then Int (m * 10 ^ e) else decimal m (Z.to_nat (- e)).

Definition number_eqb (a b : number) : bool :=
  match a, b with
  | Infinity x, Infinity y => Bool.eqb x y
  | Int x, Int y => (x =? y)
  | Frac m k, Frac m' k' => (m =? m') && (k =? k')%positive
  | _, _ => false
  end.

(** ** JSON trees and JavaScript values *)

Inductive json :=
| JNull
| JBool (b : bool)
| JNumber (n : number)
| JString (s : string)
| JArray (l : list json)
| JObject (l : list (string * json)).

(** The payload of an object.  Arrays and plain objects carry a JSON tree;
    the identity of an object is the address kept next to it in [VObj]. *)
Inductive obj :=
| OJson (j : json)
| ODate (t : option Z)            (* time value in ms; [None] is Invalid Date *)
| OURL (href : string)
| OInstance (class : nat).        (* an instance of a user class *)

Inductive value :=
| VUndefined
| VNull
| VBool (b : bool)
| VNum (n : number)
| VBigInt (z : Z)
| VStr (s : string)
| VObj (addr : nat) (o : obj).

(** [a === b] *)
Definition strict_eq (a b : value) : bool :=
  match a, b with
  | VUndefined, VUndefined => true
  | VNull, VNull => true
  | VBool x, VBool y => Bool.eqb x y
  | VNum x, VNum y => number_eqb x y
  | VBigInt x, VBigInt y => (x =? y)
  | VStr x, VStr y => String.eqb x y
  | VObj x _, VObj y _ => Nat.eqb x y
  | _, _ => false
  end.

(** [!!v] *)
Definition truthy (v : value) : bool :=
  match v with
  | VUndefined | VNull => false
  | VBool b => b
  | VNum NaN => false
  | VNum (Int z) => negb (z =? 0)
  | VNum _ => true
  | VBigInt z => negb (z =? 0)
  | VStr s => negb (String.eqb s "")
  | VObj _ _ => true
  end.

(** ** [JSON.parse]

    A recursive-descent reader for the JSON grammar of ECMA-404.  Strings
    are sequences of bytes, so an escape [\uXXXX] above U+007F is stored as
    its UTF-8 encoding. *)

Definition dquote : ascii := "034"%char.
Definition backslash : ascii := "\"%char.

Definition is_ws (c : ascii) : bool :=
  let n := nat_of_ascii c in
  (n =? 32)%nat || (n =? 9)%nat || (n =? 10)%nat || (n =? 13)%nat.

Definition is_control (c : ascii) : bool := (nat_of_ascii c <? 32)%nat.

Definition is_digit (c : ascii) : bool :=
  let n := nat_of_ascii c in (48 <=? n)%nat && (n <=? 57)%nat.

Definition digit_val (c : ascii) : Z := Z.of_nat (nat_of_ascii c) - 48.

Definition hex_val (c : ascii) : option Z :=
  let n := Z.of_nat (nat_of_ascii c) in
  if (48 <=? n) && (n <=? 57) then Some (n - 48)
  else if (97 <=? n) && (n <=? 102) then Some (n - 87)
  else if (65 <=? n) && (n <=? 70) then Some (n - 55)
  else None.

Fixpoint skip_ws (s : string) : string :=
  match s with
  | String c r => if is_ws c then skip_ws r else s
  | EmptyString => s
  end.

Definition byte (z : Z) : ascii := ascii_of_nat (Z.to_nat z).

(** UTF-8 encoding of a code unit below U+10000. *)
Definition utf8 (cp : Z) : string :=
  if cp <? 128 then String (byte cp) ""
  else if cp <? 2048 then
    String (byte (192 + cp / 64)) (String (byte (128 + cp mod 64)) "")
  else
    String (byte (224 + cp / 4096))
      (String (byte (128 + (cp / 64) mod 64)) (String (byte (128 + cp mod 64)) "")).

Definition simple_escape (e : ascii) : option ascii :=
  if Ascii.eqb e dquote then Some dquote
  else if Ascii.eqb e backslash then Some backslash
  else if Ascii.eqb e "/" then Some "/"%char
  else if Ascii.eqb e "b" then Some "008"%char
  else if Ascii.eqb e "f" then Some "012"%char
  else if Ascii.eqb e "n" then Some "010"%char
  else if Ascii.eqb e "r" then Some "013"%char
  else if Ascii.eqb e "t" then Some "009"%char
  else None.

Definition hex4 (a b c d : ascii) : option Z :=
  match hex_val a, hex_val b, hex_val c, hex_val d with
  | Some x, Some y, Some z, Some w => Some (((x * 16 + y) * 16 + z) * 16 + w)
  | _, _, _, _ => None
  end.

Definition prepend (p : string) (r : option (string * string)) : option (string * string) :=
  match r with
  | Some (body, rest) => Some (p +:+ body, rest)
  | None => None
  end.

(** The characters of a string literal after its opening quote, up to and
    including the closing quote. *)
Fixpoint parse_chars (s : string) : option (string * string) :=
  match s with
  | EmptyString => None
  | String c r =>
    if Ascii.eqb c dquote then Some ("", r)
    else if Ascii.eqb c backslash then
      match r with
      | EmptyString => None
      | String e r1 =>
        match simple_escape e with
        | Some ch => prepend (String ch "") (parse_chars r1)
        | None =>
          if Ascii.eqb e "u" then
            match r1 with
            | String h1 (String h2 (String h3 (String h4 r2))) =>
              match hex4 h1 h2 h3 h4 with
              | Some cp => prepend (utf8 cp) (parse_chars r2)
              | None => None
              end
            | _ => None
            end
          else None
        end
      end
    else if is_control c then None
    else prepend (String c "") (parse_chars r)
  end.

(** The longest prefix of digits: its value, its length, and the rest. *)
Fixpoint take_digits (acc : Z) (len : Z) (s : string) : Z * Z * string :=
  match s with
  | String c r => if is_digit c then take_digits (acc * 10 + digit_val c) (len + 1) r
                  else (acc, len, s)
  | EmptyString => (acc, len, s)
  end.

Definition parse_int_part (s : string) : option (Z * string) :=
  match s with
  | String c r =>
    if Ascii.eqb c "0" then Some (0, r)
    else if is_digit c then
      let '(v, _, rest) := take_digits 0 0 s in Some (v, rest)
    else None
  | EmptyString => None
  end.

Definition parse_frac_part (s : string) : option (Z * Z * string) :=
  match s with
  | String c r =>
    if Ascii.eqb c "." then
      let '(v, len, rest) := take_digits 0 0 r in
      if len =? 0 then None else Some (v, len, rest)
    else Some (0, 0, s)
  | EmptyString => Some (0, 0, s)
  end.

Definition parse_exp_part (s : string) : option (Z * string) :=
  match s with
  | String c r =>
    if Ascii.eqb c "e" || Ascii.eqb c "E" then
      let '(neg, r1) :=
        match r with
        | String sg r' =>
          if Ascii.eqb sg "-" then (true, r')
          else if Ascii.eqb sg "+" then (false, r') else (false, r)
        | EmptyString => (false, r)
        end in
      let '(v, len, rest) := take_digits 0 0 r1 in
      if len =? 0 then None else Some (if neg then - v else v, rest)
    else Some (0, s)
  | EmptyString => Some (0, s)
  end.

Definition parse_unsigned (s : string) : option (number * string) :=
  match parse_int_part s with
  | Some (i, r1) =>
    match parse_frac_part r1 with
    | Some (f, flen, r2) =>
      match parse_exp_part r2 with
      | Some (e, r3) => Some (scaled (i * 10 ^ flen + f) (e - flen), r3)
      | None => None
      end
    | None => None
    end
  | None => None
  end.

Definition negate (n : number) : number :=
  match n with
  | NaN => NaN
  | Infinity b => Infinity (negb b)
  | Int z => Int (- z)
  | Frac m k => Frac (- m) k
  end.

Definition parse_number (s : string) : option (number * string) :=
  match s with
  | String c r =>
    if Ascii.eqb c "-" then
      match parse_unsigned r with
      | Some (n, rest) => Some (negate n, rest)
      | None => None
      end
    else parse_unsigned s
  | EmptyString => None
  end.

Fixpoint strip_prefix (p s : string) : option string :=
  match p, s with
  | EmptyString, _ => Some s
  | String a p', String b s' => if Ascii.eqb a b then strip_prefix p' s' else None
  | String _ _, EmptyString => None
  end.

(** [o[k] = v] on the entries of an object: a repeated key keeps its first
    position and takes the last value. *)
Fixpoint set_entry (k : string) (v : json) (l : list (string * json)) : list (string * json) :=
  match l with
  | [] => [(k, v)]
  | (k', v') :: l' => if String.eqb k k' then (k, v) :: l' else (k', v') :: set_entry k v l'
  end.

Definition object_of_entries (l : list (string * json)) : json :=
  JObject (fold_left (fun o kv => set_entry (fst kv) (snd kv) o) l []).

Fixpoint parse_value (n : nat) (s : string) {struct n} : option (json * string) :=
  match n with
  | O => None
  | S n' =>
    match skip_ws s with
    | EmptyString => None
    | String c r =>
      if Ascii.eqb c "[" then
        match skip_ws r with
        | String c1 r1 =>
          if Ascii.eqb c1 "]" then Some (JArray [], r1)
          else match parse_elements n' r with
               | Some (l, rest) => Some (JArray l, rest)
               | None => None
               end
        | EmptyString => None
        end
      else if Ascii.eqb c "{" then
        match skip_ws r with
        | String c1 r1 =>
          if Ascii.eqb c1 "}" then Some (JObject [], r1)
          else match parse_members n' r with
               | Some (l, rest) => Some (object_of_entries l, rest)
               | None => None
               end
        | EmptyString => None
        end
      else if Ascii.eqb c dquote then
        match parse_chars r with
        | Some (str, rest) => Some (JString str, rest)
        | None => None
        end
      else if Ascii.eqb c "t" then
        match strip_prefix "rue" r with Some rest => Some (JBool true, rest) | None => None end
      else if Ascii.eqb c "f" then
        match strip_prefix "alse" r with Some rest => Some (JBool false, rest) | None => None end
      else if Ascii.eqb c "n" then
        match strip_prefix "ull" r with Some rest => Some (JNull, rest) | None => None end
      else
        match parse_number (String c r) with
        | Some (num, rest) => Some (JNumber num, rest)
        | None => None
        end
    end
  end
with parse_elements (n : nat) (s : string) {struct n} : option (list json * string) :=
  match n with
  | O => None
  | S n' =>
    match parse_value n' s with
    | Some (v, r) =>
      match skip_ws r with
      | String c r1 =>
        if Ascii.eqb c "," then
          match parse_elements n' r1 with
          | Some (l, rest) => Some (v :: l, rest)
          | None => None
          end
        else if Ascii.eqb c "]" then Some ([v], r1)
        else None
      | EmptyString => None
      end
    | None => None
    end
  end
with parse_members (n : nat) (s : string) {struct n} : option (list (string * json) * string) :=
  match n with
  | O => None
  | S n' =>
    match skip_ws s with
    | String q r =>
      if Ascii.eqb q dquote then
        match parse_chars r with
        | Some (k, r1) =>
          match skip_ws r1 with
          | String c r2 =>
            if Ascii.eqb c ":" then
              match parse_value n' r2 with
              | Some (v, r3) =>
                match skip_ws r3 with
                | String d r4 =>
                  if Ascii.eqb d "," then
                    match parse_members n' r4 with
                    | Some (l, rest) => Some ((k, v) :: l, rest)
                    | None => None
                    end
                  else if Ascii.eqb d "}" then Some ([(k, v)], r4)
                  else None
                | EmptyString => None
                end
              | None => None
              end
            else None
          | EmptyString => None
          end
        | None => None
        end
      else None
    | EmptyString => None
    end
  end.

(** [JSON.parse(text)]: one value, surrounded by optional white space.  Every
    call of the reader consumes a character or spends its own unit of fuel
    on a bracket, so twice the length of the text is enough. *)
Definition JSON_parse (text : string) : result json :=
  match parse_value (2 * String.length text + 2) text with
  | Some (j, rest) =>
    match skip_ws rest with
    | EmptyString => Ok j
    | String _ _ => Throw SyntaxError
    end
  | None => Throw SyntaxError
  end.

(** ** [Number(text)] and [BigInt(text)]

    The string-to-number conversion of ECMA-262 (StringToNumber): white
    space is trimmed, the empty string is zero, anything that is not a
    numeric literal is [NaN]. *)

Definition is_space (c : ascii) : bool :=
  let n := nat_of_ascii c in
  (n =? 32)%nat || ((9 <=? n)%nat && (n <=? 13)%nat).

Fixpoint skip_space (s : string) : string :=
  match s with
  | String c r => if is_space c then skip_space r else s
  | EmptyString => s
  end.

Definition radix_digit (radix : Z) (c : ascii) : option Z :=
  match hex_val c with
  | Some d => if d <? radix then Some d else None
  | None => None
  end.

Fixpoint take_radix (radix acc len : Z) (s : string) : Z * Z * string :=
  match s with
  | String c r =>
    match radix_digit radix c with
    | Some d => take_radix radix (acc * radix + d) (len + 1) r
    | None => (acc, len, s)
    end
  | EmptyString => (acc, len, s)
  end.

(** [0x..], [0o..], [0b..] *)
Definition radix_literal (s : string) : option (Z * string) :=
  match s with
  | String z (String x r) =>
    if Ascii.eqb z "0" then
      let radix :=
        if Ascii.eqb x "x" || Ascii.eqb x "X" then Some 16
        else if Ascii.eqb x "o" || Ascii.eqb x "O" then Some 8
        else if Ascii.eqb x "b" || Ascii.eqb x "B" then Some 2
        else None in
      match radix with
      | Some b =>
        let '(v, len, rest) := take_radix b 0 0 r in
        if len =? 0 then None else Some (v, rest)
      | None => None
      end
    else None
  | _ => None
  end.

Definition take_sign (s : string) : bool * string :=
  match s with
  | String c r =>
    if Ascii.eqb c "-" then (true, r)
    else if Ascii.eqb c "+" then (false, r) else (false, s)
  | EmptyString => (false, s)
  end.

(** An unsigned decimal literal: digits, optional fraction (either side of
    the point may be empty, not both), optional exponent. *)
Definition decimal_literal (s : string) : option (number * string) :=
  let '(i, ilen, r1) := take_digits 0 0 s in
  let '(f, flen, r2, dot) :=
    match r1 with
    | String c r =>
      if Ascii.eqb c "." then let '(f, flen, r2) := take_digits 0 0 r in (f, flen, r2, true)
      else (0, 0, r1, false)
    | EmptyString => (0, 0, r1, false)
    end in
  if ilen + flen =? 0 then None
  else
    match parse_exp_part r2 with
    | Some (e, r3) => Some (scaled (i * 10 ^ flen + f) (e - flen), r3)
    | None => None
    end.

Definition numeric_literal (s : string) : option (number * string) :=
  match radix_literal s with
  | Some (v, rest) => Some (Int v, rest)
  | None =>
    let '(neg, r) := take_sign s in
    match strip_prefix "Infinity" r with
    | Some rest => Some (Infinity neg, rest)
    | None =>
      match decimal_literal r with
      | Some (n, rest) => Some (if neg then negate n else n, rest)
      | None => None
      end
    end
  end.

Definition Number_of_string (text : string) : number :=
  match skip_space text with
  | EmptyString => Int 0
  | s =>
    match numeric_literal s with
    | Some (n, rest) =>
      match skip_space rest with
      | EmptyString => n
      | String _ _ => NaN
      end
    | None => NaN
    end
  end.

Definition BigInt_of_string (text : string) : result Z :=
  match skip_space text with
  | EmptyString => Ok 0
  | s =>
    let r :=
      match radix_literal s with
      | Some (v, rest) => Some (v, rest)
      | None =>
        let '(neg, r) := take_sign s in
        let '(v, len, rest) := take_digits 0 0 r in
        if len =? 0 then None else Some (if neg then - v else v, rest)
      end in
    match r with
    | Some (v, rest) =>
      match skip_space rest with
      | EmptyString => Ok v
      | String _ _ => Throw SyntaxError
      end
    | None => Throw SyntaxError
    end
  end.

(** [new Date(n)] for a number: the time value is clipped to the range of
    ECMAScript dates and truncated to an integer. *)
Definition time_clip (n : number) : option Z :=
  let clip (t : Z) := if Z.abs t <=? 8640000000000000 then Some t else None in
  match n with
  | NaN | Infinity _ => None
  | Int z => clip z
  | Frac m k => clip (Z.quot m (10 ^ Z.pos k))
  end.

(** ** Converters and property definitions *)

Module Ctor.
Inductive t :=
| JSON | Boolean | URL | Date | String | Number | BigInt
| Array | Object          (* built-in constructors without a static [parse] *)
| Class (id : nat).       (* a user class *)

Definition eqb (a b : t) : bool :=
  match a, b with
  | JSON, JSON | Boolean, Boolean | URL, URL | Date, Date
  | String, String | Number, Number | BigInt, BigInt
  | Array, Array | Object, Object => true
  | Class x, Class y => Nat.eqb x y
  | _, _ => false
  end.
End Ctor.

(** [v.constructor] for a value that has one. *)
Definition constructor_of (v : value) : option Ctor.t :=
  match v with
  | VUndefined | VNull => None
  | VBool _ => Some Ctor.Boolean
  | VNum _ => Some Ctor.Number
  | VBigInt _ => Some Ctor.BigInt
  | VStr _ => Some Ctor.String
  | VObj _ (OJson (JArray _)) => Some Ctor.Array
  | VObj _ (OJson _) => Some Ctor.Object
  | VObj _ (ODate _) => Some Ctor.Date
  | VObj _ (OURL _) => Some Ctor.URL
  | VObj _ (OInstance c) => Some (Ctor.Class c)
  end.

(** An effect pipeline, by what it hands downstream for each value it is
    given ([tap] gives the value back, [map f] gives [f v], [filter]
    may give nothing). *)
Definition operator := value -> list value.

Record PropertyConfig := {
  initial : value;
  attributeName : option string;
  converter : option Ctor.t;
  effects : option operator
}.

(** [prop(initial, config)] and [voidProp(ctor, config)]: the latter keeps
    nothing of the constructor it is given, [void initial] is [undefined]. *)
Definition prop (init : value) (attr : option string) (conv : option Ctor.t)
    (eff : option operator) : PropertyConfig :=
  {| initial := init; attributeName := attr; converter := conv; effects := eff |}.

Definition voidProp (ctor : Ctor.t) (attr : option string) (conv : option Ctor.t)
    (eff : option operator) : PropertyConfig :=
  {| initial := VUndefined; attributeName := attr; converter := conv; effects := eff |}.

(** What a caller can pass where a property definition is expected: a
    definition, or any other value (TypeScript types the event detail as
    [any]). *)
Inductive argument :=
| Config (c : PropertyConfig)
| Plain (v : value).

(** Reading a field of the argument: a definition gives its field, [null]
    and [undefined] throw, any other value has no such field. *)
Definition read_field {A} (f : PropertyConfig -> A) (missing : A) (a : argument) : result A :=
  match a with
  | Config c => Ok (f c)
  | Plain VUndefined | Plain VNull => Throw TypeError
  | Plain _ => Ok missing
  end.

(** ** The host element *)

Record Element := {
  properties : gmap string value;    (* the names that resolve on the node *)
  attributes : gmap string string;
  shadowRoot : option nat
}.

Definition getAttribute (node : Element) (name : string) : option string :=
  attributes node !! name.

Definition hasAttribute (node : Element) (name : string) : bool :=
  match attributes node !! name with Some _ => true | None => false end.

(** ** The platform

    [new URL(text, base)] and [new Date(text)] are not modelled: their
    results are parameters. *)
Record Platform := {
  URL_new : string -> string -> option string;   (* the href, or nothing when it throws *)
  Date_parse : string -> option Z;               (* the time value, or nothing for Invalid Date *)
  location_origin : string;
  class_parse : nat -> option (string -> result value)   (* the static [parse] of a user class *)
}.

(** ** [parseAttribute] *)

(** [a || b] on values that are either an object (always truthy) or
    [undefined]. *)
Definition or_else {A} (a b : option A) : option A :=
  match a with
  | Some _ => a
  | None => b
  end.

(** [config.converter || config.initial && config.initial.constructor || JSON] *)
Definition resolve_converter (config : argument) : result Ctor.t :=
  conv <-! read_field converter None config;
  init <-! read_field initial VUndefined config;
  Ok (default Ctor.JSON
        (or_else conv (if truthy init then constructor_of init else None))).

(** [attribute.replace(/"/g, '\\"')] *)
Fixpoint escape_quotes (s : string) : string :=
  match s with
  | String c r =>
    if Ascii.eqb c dquote then String backslash (String dquote (escape_quotes r))
    else String c (escape_quotes r)
  | EmptyString => EmptyString
  end.

(** The template literal that wraps the escaped text in double quotes. *)
Definition quoted (s : string) : string :=
  String dquote (escape_quotes s +:+ String dquote "").

(** The value [JSON.parse] returns for a tree: arrays and objects are fresh
    objects, allocated at [fresh]. *)
Definition from_json (fresh : nat) (j : json) : value :=
  match j with
  | JNull => VNull
  | JBool b => VBool b
  | JNumber n => VNum n
  | JString s => VStr s
  | JArray _ | JObject _ => VObj fresh (OJson j)
  end.

(** The name the attribute is looked up under:
    [attributeName ? ...(attributeName) : ...(key)]. *)
Definition attribute_key (attributeName : option string) (key : string) : string :=
  match attributeName with
  | Some a => if String.eqb a "" then key else a
  | None => key
  end.

(** [!attribute] *)
Definition no_text (attribute : option string) : bool :=
  match attribute with
  | Some s => String.eqb s ""
  | None => true
  end.

Section Codec.
Context (P : Platform).

(** The [switch (converter)] of [parseAttribute], entered with the
    attribute text (a non-empty string, except under [Boolean]). *)
Definition convert (fresh : nat) (node : Element) (name : string)
    (c : Ctor.t) (attribute : string) : result value :=
  match c with
  | Ctor.JSON =>
    match JSON_parse attribute with
    | Ok j => Ok (from_json fresh j)
    | Throw _ => j <-! JSON_parse (quoted attribute); Ok (from_json fresh j)
    end
  | Ctor.Boolean => Ok (VBool (hasAttribute node name))
  | Ctor.URL =>
    match URL_new P attribute (location_origin P) with
    | Some href => Ok (VObj fresh (OURL href))
    | None => Throw TypeError
    end
  | Ctor.Date =>
    let date := Date_parse P attribute in
    Ok (VObj fresh (ODate (match date with
                           | None => time_clip (Number_of_string attribute)
                           | Some _ => date
                           end)))
  | Ctor.String => Ok (VStr attribute)
  | Ctor.Number => Ok (VNum (Number_of_string attribute))
  | Ctor.BigInt => z <-! BigInt_of_string attribute; Ok (VBigInt z)
  | Ctor.Array | Ctor.Object => Throw TypeError
  | Ctor.Class c =>
    match class_parse P c with
    | Some parse => parse attribute
    | None => Throw TypeError
    end
  end.

Definition parseAttribute (fresh : nat) (node : Element) (key : string)
    (config : argument) : result value :=
  attributeName <-! read_field attributeName None config;
  let name := attribute_key attributeName key in
  let attribute := getAttribute node name in
  converter <-! resolve_converter config;
  if no_text attribute && negb (Ctor.eqb converter Ctor.Boolean)
  then read_field initial VUndefined config
  else convert fresh node name converter (default "" attribute).

(** ** [createPropertiesDescriptors]

    A cell is a [BehaviorSubject]; the table keeps its current value next
    to the definition.  The schema is the list of its entries in the order
    of [Object.keys]. *)

Definition Schema := list (string * PropertyConfig).
Definition Setters := list (string * (value * PropertyConfig)).

(** [key in newBase ? newBase[key] : parseAttribute(newBase, key, config)] *)
Definition seed (fresh : nat) (base : Element) (key : string)
    (config : PropertyConfig) : result value :=
  match properties base !! key with
  | Some existing => Ok existing
  | None => parseAttribute fresh base key (Config config)
  end.

Fixpoint createPropertiesDescriptors (fresh : nat) (base : Element)
    (props : Schema) : result Setters :=
  match props with
  | [] => Ok []
  | (key, config) :: rest =>
    init <-! seed fresh base key config;
    triggers <-! createPropertiesDescriptors (S fresh) base rest;
    Ok ((key, (init, config)) :: triggers)
  end.

End Codec.

(** ** The host as a state machine

    [create] keeps two arrays, [registeredObservables] and [subscriptions],
    and installs three listeners.  The observers that are attached to a
    subject at a given moment are kept in [live], in the order in which they
    subscribed; a subject notifies them in that order.  What the outside
    can see (calls of spies, templates and the renderer, uncaught
    exceptions) is appended to [log].

    The observables a caller can register or subscribe to are of the kinds
    the repository's tests use: a [tap] on a subject of the caller or on
    [propertyChanged$]; [useTemplate] adds the third kind.  Effect
    pipelines, templates and the renderer do not write to the host while
    they run. *)

Section Host.
Context (P : Platform) {T : Type}.

Definition Snapshot := list (string * value).

Inductive source :=
| Subject (id : nat)        (* a plain [Subject] owned by the caller *)
| PropertyChanged.          (* [propertyChanged$] *)

Inductive observable :=
| Tapped (src : source) (spy : nat)            (* [src.pipe(tap(spy))] *)
| Templated (template : Snapshot -> T).        (* the pipeline of [useTemplate] *)

Inductive emission :=
| Next (v : value)
| Changed (name : string) (v : value).         (* [[propertyName, value]] *)

Inductive container :=
| ShadowRoot (id : nat)
| HostNode.

Inductive call :=
| SpyCall (spy : nat) (arg : emission)
| TemplateCall (props : Snapshot)
| RendererCall (result : T) (target : container)
| Uncaught (e : exn).

(** One subscription.  [keys] holds, per property, the previous key of its
    [distinctUntilChanged]; [scoped] tells whether the subscription was
    made by the [connected] listener. *)
Record subscriber := {
  observed : observable;
  keys : Snapshot;
  scoped : bool
}.

Record State := {
  node : Element;
  setters : Setters;
  registeredObservables : list observable;
  subscriptions : list nat;
  live : list (nat * subscriber);
  next_id : nat;
  heap : nat;
  log : list call
}.

Fixpoint assoc {A} (key : string) (l : list (string * A)) : option A :=
  match l with
  | [] => None
  | (k, a) :: l' => if String.eqb k key then Some a else assoc key l'
  end.

Fixpoint assign {A} (key : string) (a : A) (l : list (string * A)) : list (string * A) :=
  match l with
  | [] => []
  | (k, b) :: l' => if String.eqb k key then (k, a) :: l' else (k, b) :: assign key a l'
  end.

(** The current value of every cell, in schema order. *)
Definition cells (s : Setters) : Snapshot := map (fun e => (e.1, e.2.1)) s.

(** [node[key]]: the installed accessor reads the cell; any other name is
    an ordinary property. *)
Definition get (st : State) (key : string) : value :=
  match assoc key (setters st) with
  | Some (v, _) => v
  | None => default VUndefined (properties (node st) !! key)
  end.

(** The function under [map] in [mapProperties(properties, node)]. *)
Definition mapProperties (st : State) : Snapshot :=
  map (fun e => (e.1, get st e.1)) (setters st).

(** [node.shadowRoot || node] *)
Definition render_target (n : Element) : container :=
  match shadowRoot n with
  | Some r => ShadowRoot r
  | None => HostNode
  end.

(** What the observer at the end of a pipeline does with one emission. *)
Definition deliver (st : State) (o : observable) (e : emission) : list call :=
  match o with
  | Tapped _ spy => [SpyCall spy e]
  | Templated template =>
    let props := mapProperties st in
    [TemplateCall props; RendererCall (template props) (render_target (node st))]
  end.

(** [propertyConfig.effects ? propertyConfig.effects(instance) : tap()],
    then [map(value => [propertyName, value])]. *)
Definition change_events (name : string) (config : PropertyConfig) (v : value) : list emission :=
  map (Changed name) (match effects config with Some f => f v | None => [v] end).

Definition listens_to_properties (o : observable) : bool :=
  match o with
  | Tapped PropertyChanged _ | Templated _ => true
  | Tapped (Subject _) _ => false
  end.

Definition listens_to_update (o : observable) : bool :=
  match o with
  | Templated _ => true
  | Tapped _ _ => false
  end.

Definition listens_to_subject (id : nat) (o : observable) : bool :=
  match o with
  | Tapped (Subject i) _ => Nat.eqb i id
  | _ => false
  end.

(** A subject notifies its observers in order; each may change its own
    state and make calls. *)
Definition notify (f : subscriber -> subscriber * list call)
    (l : list (nat * subscriber)) : list (nat * subscriber) * list call :=
  (map (fun e => (e.1, (f e.2).1)) l, flat_map (fun e => (f e.2).2) l).

(** ** [getPropertyChangeListener]

    The stream it returns merges one pipeline per cell:
    [trigger.pipe(distinctUntilChanged(), effects, map(value => [propertyName, value]))].
    One subscription to it is a machine whose state is the previous key of
    each [distinctUntilChanged].

    On subscription every cell replays its current value, which is the
    first value its [distinctUntilChanged] sees and so passes. *)
Definition getPropertyChangeListener_subscribe (s : Setters) : Snapshot * list emission :=
  (cells s, flat_map (fun e => change_events e.1 e.2.2 e.2.1) s).

(** When the cell of [name] emits [v], [distinctUntilChanged()] compares it
    with the previous key by [===] and lets it through when they differ. *)
Definition getPropertyChangeListener_next (previous_keys : Snapshot) (name : string)
    (config : PropertyConfig) (v : value) : Snapshot * list emission :=
  match assoc name previous_keys with
  | Some previous =>
    if strict_eq previous v then (previous_keys, [])
    else (assign name v previous_keys, change_events name config v)
  | None => (previous_keys, [])
  end.

(** One live subscriber is told that the cell of [name] emitted [v]. *)
Definition receive (st : State) (name : string) (config : PropertyConfig)
    (v : value) (s : subscriber) : subscriber * list call :=
  if listens_to_properties (observed s) then
    let r := getPropertyChangeListener_next (keys s) name config v in
    ({| observed := observed s; keys := r.1; scoped := scoped s |},
     flat_map (deliver st (observed s)) r.2)
  else (s, []).

(** [trigger$.next(v)] on the cell of [key]: the value is stored first,
    then the observers are told. *)
Definition next (st : State) (key : string) (v : value) : State :=
  match assoc key (setters st) with
  | Some (_, config) =>
    let stored :=
      {| node := node st; setters := assign key (v, config) (setters st);
         registeredObservables := registeredObservables st;
         subscriptions := subscriptions st; live := live st;
         next_id := next_id st; heap := heap st; log := log st |} in
    let '(observers, calls) := notify (receive stored key config v) (live st) in
    {| node := node st; setters := setters stored;
       registeredObservables := registeredObservables st;
       subscriptions := subscriptions st; live := observers;
       next_id := next_id st; heap := heap st; log := log st ++ calls |}
  | None => st
  end.

(** Subscribing to an observable: the change stream replays, a plain
    subject replays nothing. *)
Definition subscribe_to (st : State) (o : observable) (by_connect : bool) : subscriber * list call :=
  if listens_to_properties o then
    let r := getPropertyChangeListener_subscribe (setters st) in
    ({| observed := o; keys := r.1; scoped := by_connect |},
     flat_map (deliver st o) r.2)
  else ({| observed := o; keys := []; scoped := by_connect |}, []).

Definition attach (by_connect : bool) (st : State) (o : observable) : State :=
  let '(s, calls) := subscribe_to st o by_connect in
  {| node := node st; setters := setters st;
     registeredObservables := registeredObservables st;
     subscriptions := subscriptions st;
     live := live st ++ [(next_id st, s)];
     next_id := S (next_id st); heap := heap st; log := log st ++ calls |}.

(** The [connected] listener:
    [registeredObservables.map(o => o.subscribe()).forEach(s => subscriptions.push(s))]. *)
Fixpoint subscribe_all (st : State) (os : list observable) : State * list nat :=
  match os with
  | [] => (st, [])
  | o :: os' =>
    let '(st', handles) := subscribe_all (attach true st o) os' in
    (st', next_id st :: handles)
  end.

Definition connected (st : State) : State :=
  let '(st', handles) := subscribe_all st (registeredObservables st) in
  {| node := node st'; setters := setters st';
     registeredObservables := registeredObservables st';
     subscriptions := subscriptions st' ++ handles; live := live st';
     next_id := next_id st'; heap := heap st'; log := log st' |}.

(** The [disconnected] listener:
    [subscriptions.splice(0, subscriptions.length).forEach(s => s.unsubscribe())]. *)
Definition unsubscribe (handles : list nat) (l : list (nat * subscriber)) : list (nat * subscriber) :=
  List.filter (fun e => negb (existsb (Nat.eqb e.1) handles)) l.

Definition disconnected (st : State) : State :=
  let removed := subscriptions st in
  {| node := node st; setters := setters st;
     registeredObservables := registeredObservables st;
     subscriptions := []; live := unsubscribe removed (live st);
     next_id := next_id st; heap := heap st; log := log st |}.

(** The [attributeChanged] listener.  The array literal on the left of
    [||] is an object, hence truthy. *)
Definition attributeChanged (st : State) (attr : string) (newValue : value) : State :=
  let found :=
    or_else (Some (attr, assoc attr (setters st)))
      (option_map (fun e => (e.1, Some e.2))
         (List.find (fun e => match attributeName e.2.2 with
                              | Some a => String.eqb a attr
                              | None => false
                              end) (setters st))) in
  match found with
  | Some (key, Some _) =>
    match parseAttribute P (heap st) (node st) key (Plain newValue) with
    | Ok v =>
      next {| node := node st; setters := setters st;
              registeredObservables := registeredObservables st;
              subscriptions := subscriptions st; live := live st;
              next_id := next_id st; heap := S (heap st); log := log st |} key v
    | Throw e =>
      {| node := node st; setters := setters st;
         registeredObservables := registeredObservables st;
         subscriptions := subscriptions st; live := live st;
         next_id := next_id st; heap := heap st; log := log st ++ [Uncaught e] |}
    end
  | _ => st
  end.

(** [update$.next()]: only the template pipelines merge [update$]. *)
Definition update (st : State) : State :=
  let calls :=
    flat_map (fun e => if listens_to_update (observed e.2)
                       then deliver st (observed e.2) (Next VUndefined) else [])
      (live st) in
  {| node := node st; setters := setters st;
     registeredObservables := registeredObservables st;
     subscriptions := subscriptions st; live := live st;
     next_id := next_id st; heap := heap st; log := log st ++ calls |}.

(** [subject.next(v)] on a subject of the caller. *)
Definition subject_next (st : State) (id : nat) (v : value) : State :=
  let calls :=
    flat_map (fun e => if listens_to_subject id (observed e.2)
                       then deliver st (observed e.2) (Next v) else [])
      (live st) in
  {| node := node st; setters := setters st;
     registeredObservables := registeredObservables st;
     subscriptions := subscriptions st; live := live st;
     next_id := next_id st; heap := heap st; log := log st ++ calls |}.

(** [subscribe(...observables)] and [useTemplate(template)]. *)
Definition subscribe (st : State) (os : list observable) : State :=
  {| node := node st; setters := setters st;
     registeredObservables := registeredObservables st ++ os;
     subscriptions := subscriptions st; live := live st;
     next_id := next_id st; heap := heap st; log := log st |}.

Definition useTemplate (st : State) (template : Snapshot -> T) : State :=
  subscribe st [Templated template].

(** [node[key] = v] *)
Definition set_property (st : State) (key : string) (v : value) : State :=
  match assoc key (setters st) with
  | Some _ => next st key v
  | None =>
    {| node := {| properties := <[key := v]> (properties (node st));
                  attributes := attributes (node st);
                  shadowRoot := shadowRoot (node st) |};
       setters := setters st;
       registeredObservables := registeredObservables st;
       subscriptions := subscriptions st; live := live st;
       next_id := next_id st; heap := heap st; log := log st |}
  end.

(** The platform sets or removes an attribute of the node. *)
Definition set_attribute (st : State) (name : string) (v : option string) : State :=
  {| node := {| properties := properties (node st);
                attributes := match v with
                              | Some text => <[name := text]> (attributes (node st))
                              | None => delete name (attributes (node st))
                              end;
                shadowRoot := shadowRoot (node st) |};
     setters := setters st;
     registeredObservables := registeredObservables st;
     subscriptions := subscriptions st; live := live st;
     next_id := next_id st; heap := heap st; log := log st |}.

(** A subscription the caller makes and ends itself, outside the
    lifecycle. *)
Definition detach (st : State) (id : nat) : State :=
  {| node := node st; setters := setters st;
     registeredObservables := registeredObservables st;
     subscriptions := subscriptions st;
     live := List.filter (fun e => scoped e.2 || negb (Nat.eqb e.1 id)) (live st);
     next_id := next_id st; heap := heap st; log := log st |}.

Inductive event :=
| Connected                                        (* the node dispatches [connected] *)
| Disconnected                                     (* the node dispatches [disconnected] *)
| AttributeChanged (attr : string) (newValue : value)   (* detail [[attr, old, newValue]] *)
| SetProperty (key : string) (v : value)           (* [node[key] = v] *)
| Update                                           (* [handle.update()] *)
| Subscribe (os : list observable)                 (* [handle.subscribe(...os)] *)
| UseTemplate (template : Snapshot -> T)           (* [handle.useTemplate(template)] *)
| SubjectNext (id : nat) (v : value)               (* [subject.next(v)] *)
| Attach (src : source) (spy : nat)                (* [src.pipe(tap(spy)).subscribe()] by the caller *)
| Detach (id : nat)                                (* [subscription.unsubscribe()] by the caller *)
| SetAttribute (name : string) (v : option string).

Definition step (st : State) (e : event) : State :=
  match e with
  | Connected => connected st
  | Disconnected => disconnected st
  | AttributeChanged attr newValue => attributeChanged st attr newValue
  | SetProperty key v => set_property st key v
  | Update => update st
  | Subscribe os => subscribe st os
  | UseTemplate template => useTemplate st template
  | SubjectNext id v => subject_next st id v
  | Attach src spy => attach false st (Tapped src spy)
  | Detach id => detach st id
  | SetAttribute name v => set_attribute st name v
  end.

Definition run (st : State) (es : list event) : State := fold_left step es st.

(** [create(node, properties, { renderer })]: the state right after it
    returns.  It throws when a seed cannot be decoded. *)
Definition create (fresh : nat) (n : Element) (props : Schema) : result State :=
  s <-! createPropertiesDescriptors P fresh n props;
  Ok {| node := n; setters := s; registeredObservables := []; subscriptions := [];
        live := []; next_id := O; heap := (fresh + List.length props)%nat; log := [] |}.

End Host.

(** ** Reading a trace *)

Section Traces.
Context {T : Type}.

(** The events that neither dispatch a lifecycle signal nor register or
    attach anything. *)
Definition quiet (e : @event T) : bool :=
  match e with
  | Connected | Disconnected | Subscribe _ | UseTemplate _ | Attach _ _ => false
  | _ => true
  end.

(** Whether the last lifecycle signal of a trace is [connected]. *)
Definition connected_after (es : list (@event T)) : bool :=
  fold_left (fun b e => match e with
                        | Connected => true
                        | Disconnected => false
                        | _ => b
                        end) es false.

(** The values of a sequence of writes that are not [===] to the value
    written just before them; the first is compared with [cur]. *)
Fixpoint changes (cur : value) (ws : list value) : list value :=
  match ws with
  | [] => []
  | w :: r => if strict_eq cur w then changes w r else w :: changes w r
  end.

(** The arguments a spy was called with, in order. *)
Definition spy_args (spy : nat) (l : list (@call T)) : list emission :=
  flat_map (fun c => match c with
                     | SpyCall s arg => if Nat.eqb s spy then [arg] else []
                     | _ => []
                     end) l.

(** The values a subject of the caller emits during a trace. *)
Definition subject_values (id : nat) (es : list (@event T)) : list value :=
  flat_map (fun e => match e with
                     | SubjectNext i v => if Nat.eqb i id then [v] else []
                     | _ => []
                     end) es.

Definition is_template_or_renderer_call (c : @call T) : bool :=
  match c with
  | TemplateCall _ | RendererCall _ _ => true
  | _ => false
  end.

(** The calls one template pipeline makes for one emission it receives:
    the template gets the snapshot, the renderer gets the result. *)
Definition render_calls (st : @State T) (template : Snapshot -> T) : list (@call T) :=
  [TemplateCall (mapProperties st);
   RendererCall (template (mapProperties st)) (render_target (node st))].

(** The calls one observer of the change stream makes when the cell of
    [name], which held [cur], is written with [v]; [st'] is the state once
    the value is stored. *)
Definition change_calls (st' : @State T) (name : string) (config : PropertyConfig)
    (cur v : value) (s : @subscriber T) : list (@call T) :=
  if listens_to_properties (observed s) && negb (strict_eq cur v)
  then flat_map (deliver st' (observed s)) (change_events name config v)
  else [].

Definition keeps_connection (e : @event T) : bool :=
  match e with
  | Disconnected => false
  | _ => true
  end.

Definition is_tap (spy id : nat) (o : @observable T) : bool :=
  match o with
  | Tapped (Subject i) s => Nat.eqb i id && Nat.eqb s spy
  | _ => false
  end.

(** How many live subscriptions hand the values of subject [id] to [spy]. *)
Definition taps (spy id : nat) (l : list (nat * @subscriber T)) : nat :=
  List.length (List.filter (is_tap spy id) (map (fun e => observed e.2) l)).

(** What [spy] hears during a trace while the subscriptions [l] are live. *)
Definition heard (spy : nat) (l : list (nat * @subscriber T)) (es : list (@event T)) : list emission :=
  flat_map (fun e => match e with
                     | SubjectNext id v => repeat (Next v) (taps spy id l)
                     | _ => []
                     end) es.

(** Some subscription to [o] made by the [connected] listener is live. *)
Definition live_scoped (o : @observable T) (st : @State T) : Prop :=
  exists id s, In (id, s) (live st) /\ observed s = o /\ scoped s = true.

Definition subject_tap (e : nat * @subscriber T) : Prop :=
  scoped e.2 = true /\ listens_to_properties (observed e.2) = false /\
  listens_to_update (observed e.2) = false.

End Traces.

(** ** Stringifying

    [String(n)] and [JSON.stringify(v)], for the values whose text does
    not depend on the rounding of doubles. *)

Definition digit_char (d : Z) : ascii := byte (48 + d).

Fixpoint print_digits (fuel : nat) (n : Z) (acc : string) : string :=
  match fuel with
  | O => acc
  | S fuel' =>
    let acc' := String (digit_char (n mod 10)) acc in
    if n <? 10 then acc' else print_digits fuel' (n / 10) acc'
  end.

(** The decimal digits of a natural number, without leading zeros. *)
Definition print_natural (n : Z) : string :=
  print_digits (S (Z.to_nat (Z.log2 n))) n "".

Definition print_Z (z : Z) : string :=
  if z <? 0 then String "-" (print_natural (- z)) else print_natural z.

Definition Number_toString (n : number) : string :=
  match n with
  | NaN => "NaN"
  | Infinity false => "Infinity"
  | Infinity true => "-Infinity"
  | Int z => print_Z z
  | Frac m k =>
    let scale := 10 ^ Z.pos k in
    let frac := print_natural (Z.abs m mod scale) in
    (if m <? 0 then "-" else "") +:+ print_natural (Z.abs m / scale) +:+ "."
      +:+ string_of_list_ascii (repeat "0"%char (Pos.to_nat k - String.length frac)) +:+ frac
  end.

Definition hex_char (d : Z) : ascii := if d <? 10 then byte (48 + d) else byte (87 + d).

Definition escape_char (c : ascii) : string :=
  if Ascii.eqb c dquote then String backslash (String dquote "")
  else if Ascii.eqb c backslash then String backslash (String backslash "")
  else if Ascii.eqb c "008" then "\b"
  else if Ascii.eqb c "012" then "\f"
  else if Ascii.eqb c "010" then "\n"
  else if Ascii.eqb c "013" then "\r"
  else if Ascii.eqb c "009" then "\t"
  else if is_control c then
    let n := Z.of_nat (nat_of_ascii c) in
    "\u00" +:+ String (hex_char (n / 16)) (String (hex_char (n mod 16)) "")
  else String c "".

Fixpoint escape_chars (s : string) : string :=
  match s with
  | String c r => escape_char c +:+ escape_chars r
  | EmptyString => EmptyString
  end.

Definition JSON_quote (s : string) : string :=
  String dquote (escape_chars s +:+ String dquote "").

Fixpoint join (l : list string) : string :=
  match l with
  | [] => ""
  | [x] => x
  | x :: r => x +:+ "," +:+ join r
  end.

Fixpoint JSON_stringify (j : json) : string :=
  match j with
  | JNull => "null"
  | JBool true => "true"
  | JBool false => "false"
  | JNumber (Int z) => print_Z z
  | JNumber NaN | JNumber (Infinity _) => "null"
  | JNumber n => Number_toString n
  | JString s => JSON_quote s
  | JArray l => "[" +:+ join (map JSON_stringify l) +:+ "]"
  | JObject l =>
    "{" +:+ join (map (fun '(k, x) => JSON_quote k +:+ ":" +:+ JSON_stringify x) l) +:+ "}"
  end.

(** The integers a double holds exactly and [String] prints in plain
    decimal notation. *)
Definition safe_integer (z : Z) : bool := Z.abs z <=? 9007199254740991.

(** The trees whose text is modelled exactly: every number is a safe
    integer and the keys of every object are distinct. *)
Fixpoint distinct (l : list string) : bool :=
  match l with
  | [] => true
  | k :: r => negb (existsb (String.eqb k) r) && distinct r
  end.

Fixpoint plain (j : json) : bool :=
  match j with
  | JNumber (Int z) => safe_integer z
  | JNumber _ => false
  | JArray l => forallb plain l
  | JObject l => distinct (map fst l) && forallb (fun '(_, x) => plain x) l
  | _ => true
  end.

(** A bound on the fuel the reader needs for the text of a tree. *)
Fixpoint size (j : json) : nat :=
  match j with
  | JArray l => S (list_sum (map (fun x => S (size x)) l))
  | JObject l => S (list_sum (map (fun '(_, x) => S (size x)) l))
  | _ => 1
  end.

(** What may follow a value inside a text: nothing, or the comma or the
    bracket that ends it. *)
Definition terminated (rest : string) : bool :=
  match rest with
  | EmptyString => true
  | String c _ => Ascii.eqb c "," || Ascii.eqb c "]" || Ascii.eqb c "}"
  end.

(** The reader gives back a tree from its text, whatever follows the text. *)
Definition reads_back (j : json) : Prop :=
  plain j = true ->
  forall (n : nat) (rest : string),
    (size j <= n)%nat -> terminated rest = true ->
    parse_value n (JSON_stringify j +:+ rest) = Some (j, rest).

(** ** Structural equality

    Equality as the specification words it ("structural, not just
    reference"): two objects are equal when their contents are, whatever
    their addresses.  The code compares with [strict_eq]. *)

Fixpoint json_eqb (a b : json) {struct a} : bool :=
  match a, b with
  | JNull, JNull => true
  | JBool x, JBool y => Bool.eqb x y
  | JNumber x, JNumber y => number_eqb x y
  | JString x, JString y => String.eqb x y
  | JArray l, JArray l' =>
    (fix all2 (l l' : list json) {struct l} : bool :=
       match l, l' with
       | [], [] => true
       | x :: r, y :: r' => json_eqb x y && all2 r r'
       | _, _ => false
       end) l l'
  | JObject l, JObject l' =>
    (fix all2 (l l' : list (string * json)) {struct l} : bool :=
       match l, l' with
       | [], [] => true
       | (k, x) :: r, (k', y) :: r' => String.eqb k k' && json_eqb x y && all2 r r'
       | _, _ => false
       end) l l'
  | _, _ => false
  end.

Definition structural_eq (a b : value) : bool :=
  match a, b with
  | VObj _ (OJson x), VObj _ (OJson y) => json_eqb x y
  | VObj _ (ODate x), VObj _ (ODate y) =>
    match x, y with
    | Some t, Some t' => (t =? t')
    | _, _ => false
    end
  | VObj _ (OURL x), VObj _ (OURL y) => String.eqb x y
  | VObj x (OInstance _), VObj y (OInstance _) => Nat.eqb x y
  | VObj _ _, VObj _ _ => false
  | _, _ => strict_eq a b
  end.

(** ** Sample data for the examples *)

(** A platform whose [URL] and [Date] accept one text each. *)
Definition sample_platform : Platform :=
  {| URL_new := fun text _ =>
       if String.eqb text "https://example.org/a?b=1" then Some text else None;
     Date_parse := fun text =>
       if String.eqb text "2019-03-05T10:20:30.000Z" then Some 1551781230000 else None;
     location_origin := "https://example.org";
     class_parse := fun _ => None |}.

Definition element (props : list (string * value)) (attrs : list (string * string)) : Element :=
  {| properties := list_to_map props; attributes := list_to_map attrs; shadowRoot := None |}.

Definition num (z : Z) : value := VNum (Int z).

(** The object [{ x: 1 }], allocated at address [a]. *)
Definition point (a : nat) : value := VObj a (OJson (JObject [("x", JNumber (Int 1))])).

(** The schema and the host of the repository's tests:
    [{ a: prop(0), b: prop(0), c: voidProp(Number) }] on a node where [a],
    [b] and [c] are 1, 2 and 3; and the state [create] returns for them. *)
Definition abc_schema : Schema :=
  [("a", prop (num 0) None None None); ("b", prop (num 0) None None None);
   ("c", voidProp Ctor.Number None None None)].

Definition abc_element : Element :=
  element [("a", num 1); ("b", num 2); ("c", num 3)] [].

Definition abc_host : @State string :=
  {| node := abc_element;
     setters := [("a", (num 1, prop (num 0) None None None));
                 ("b", (num 2, prop (num 0) None None None));
                 ("c", (num 3, voidProp Ctor.Number None None None))];
     registeredObservables := []; subscriptions := []; live := [];
     next_id := O; heap := 3%nat; log := [] |}.

(** A template that renders the value of [a]. *)
Definition show_a (props : Snapshot) : string :=
  match assoc "a" props with
  | Some (VNum n) => Number_toString n
  | _ => "?"
  end.

(** A host with one property whose default is an object, one whose
    definition names its attribute, and one string property. *)
Definition origin_host : @State string :=
  {| node := element [] [];
     setters := [("origin", (point 1, prop (point 1) None None None))];
     registeredObservables := []; subscriptions := []; live := [];
     next_id := O; heap := 1%nat; log := [] |}.

Definition foo_schema : Schema :=
  [("foo", prop (VStr "foo") (Some "bar") None None);
   ("title", prop (VStr "untitled") None None None)].

Definition foo_host : @State string :=
  {| node := element [] [];
     setters := [("foo", (VStr "foo", prop (VStr "foo") (Some "bar") None None));
                 ("title", (VStr "untitled", prop (VStr "untitled") None None None))];
     registeredObservables := []; subscriptions := []; live := [];
     next_id := O; heap := 2%nat; log := [] |}.

Definition Boolean_toString (b : bool) : string := if b then "true" else "false".

(** The texts the fallback of the structured converter can read: no
    backslash and no control character. *)
Definition clean_char (c : ascii) : bool :=
  negb (Ascii.eqb c backslash) && negb (is_control c).

Fixpoint clean (s : string) : bool :=
  match s with
  | String c r => clean_char c && clean r
  | EmptyString => true
  end.

(** ** Invariants of the host *)

Section Invariants.
Context {T : Type}.

(** The previous key of a [distinctUntilChanged] and the value of its
    cell: one value, or two values that [===] identifies. *)
Definition same (k v : value) : Prop := k = v \/ strict_eq k v = true.

Definition key_of_cell (k : string * value) (e : string * (value * PropertyConfig)) : Prop :=
  k.1 = e.1 /\ same k.2 e.2.1.

Definition tracks (c : Setters) (s : @subscriber T) : Prop :=
  listens_to_properties (observed s) = true -> Forall2 key_of_cell (keys s) c.

Record invariant (st : @State T) : Prop := {
  inv_recorded :
    map fst (List.filter (fun e => scoped e.2) (live st)) = subscriptions st;
  inv_nodup : NoDup (map fst (live st));
  inv_fresh : Forall (fun e => (e.1 < next_id st)%nat) (live st);
  inv_templates :
    Forall (fun e => listens_to_update (observed e.2) = true -> scoped e.2 = true) (live st);
  inv_tracks : Forall (fun e => tracks (setters st) e.2) (live st)
}.

End Invariants.

(** The characters the text of a JSON value can begin with: white space,
    a digit, a bracket, a quote, a sign, or the first letter of [true],
    [false] and [null]. *)
Definition starts_value (c : ascii) : bool :=
  is_ws c || is_digit c ||
  existsb (Ascii.eqb c) ["["; "{"; dquote; "t"; "f"; "n"; "-"]%char.

(** ** Sequences of events *)

Section Writes.
Context {T : Type}.

(** [node[k] = v] for each pair of the list, in order. *)
Definition assignments (ws : list (string * value)) : list (@event T) :=
  map (fun w => SetProperty w.1 w.2) ws.

(** The events that can write to a cell. *)
Definition writes (e : @event T) : bool :=
  match e with
  | SetProperty _ _ | AttributeChanged _ _ => true
  | _ => false
  end.

Definition connects (e : @event T) : bool :=
  match e with
  | Connected => true
  | _ => false
  end.

End Writes.

(** Of a sequence of writes, each to a named property, those that are not
    [===] to the value their property held just before; [cur] holds the
    values at the start.  A name that is not in [cur] has no cell. *)
Fixpoint passing (cur : Snapshot) (ws : list (string * value)) : list (string * value) :=
  match ws with
  | [] => []
  | (k, w) :: r =>
    match assoc k cur with
    | Some c =>
      if strict_eq c w then passing (assign k w cur) r
      else (k, w) :: passing (assign k w cur) r
    | None => passing cur r
    end
  end.

(** Two states that differ at most in their registries. *)
Definition alike {T : Type} (a b : @State T) : Prop :=
  node a = node b /\ setters a = setters b /\ subscriptions a = subscriptions b /\
  live a = live b /\ next_id a = next_id b /\ heap a = heap b /\ log a = log b.

(** ** The earlier revision

    [src/hyperplane.ts] seeds a cell without reading the attribute:
    [new BehaviorSubject(key in newBase ? newBase[key] : config.initial)]. *)

Module Earlier.

Definition seed (base : Element) (key : string) (config : PropertyConfig) : value :=
  match properties base !! key with
  | Some existing => existing
  | None => initial config
  end.

Definition createPropertiesDescriptors (base : Element) (props : Schema) : Setters :=
  map (fun e => (e.1, (seed base e.1 e.2, e.2))) props.

(** Its [attributeChanged] listener, [setters[attr][0].next(newValue)]:
    the new value is written as it comes, and reading index 0 of
    [undefined] throws when no property is called like the attribute. *)
Definition attributeChanged {T : Type} (st : @State T) (attr : string)
    (newValue : value) : @State T :=
  match assoc attr (setters st) with
  | Some _ => next st attr newValue
  | None =>
    {| node := node st; setters := setters st;
       registeredObservables := registeredObservables st;
       subscriptions := subscriptions st; live := live st;
       next_id := next_id st; heap := heap st; log := log st ++ [Uncaught TypeError] |}
  end.

End Earlier.

(** ** The spies of the tests

    [createSpy()] of the test utilities returns a function that adds the
    array of its arguments to a [Set] at every call.  Every call makes an
    array of its own, so the set keeps all of them, in the order of the
    calls: it is the list of the argument lists. *)

Module Spy.

Definition t := list (list value).

Definition createSpy : t := [].

(** One call of the spy with [args]. *)
Definition call (calls : t) (args : list value) : t := calls ++ [args].

Definition called (calls : t) : bool := (0 <? List.length calls)%nat.

Definition calledTimes (calls : t) : nat := List.length calls.

(** [new Set(calls)], spread in the order of insertion. *)
Definition calledWith (calls : t) : t := calls.

(** [[...calls].pop()]; [None] stands for [undefined]. *)
Definition lastCalledWith (calls : t) : option (list value) :=
  List.last (map Some calls) None.

(** [[...calls][n]] *)
Definition nthCallArgs (calls : t) (n : nat) : option (list value) :=
  nth_error calls n.

(** [args.every((arg, i) => arg === storedArgs[i])], from index [i] on:
    [every] stops at the first argument that differs, and reading an index
    of [undefined] throws. *)
Fixpoint every_strict_eq (i : nat) (args : list value) (storedArgs : option (list value))
    : result bool :=
  match args with
  | [] => Ok true
  | arg :: rest =>
    match storedArgs with
    | None => Throw TypeError
    | Some stored =>
      if strict_eq arg (nth i stored VUndefined)
      then every_strict_eq (S i) rest storedArgs
      else Ok false
    end
  end.

Definition nthCallWith (calls : t) (n : nat) (args : list value) : result bool :=
  every_strict_eq 0 args (nthCallArgs calls n).

Definition resetSpy (calls : t) : t := [].

End Spy.

(** * Properties *)

(** ** Converter resolution (C4) *)

(** What the [||] chain of [parseAttribute] resolves to, for every
    definition. *)
Lemma resolve_converter_cases (c : PropertyConfig) :
  resolve_converter (Config c) =
  Ok (match converter c with
      | Some explicit => explicit
      | None =>
        if truthy (initial c) then default Ctor.JSON (constructor_of (initial c))
        else Ctor.JSON
      end).
Proof.
  unfold resolve_converter; simpl.
  destruct (converter c); simpl; [reflexivity|].
  destruct (truthy (initial c)); reflexivity.
Qed.

Lemma explicit_converter_wins (c : PropertyConfig) (x : Ctor.t) :
  converter c = Some x -> resolve_converter (Config c) = Ok x.
Proof. intros H. rewrite resolve_converter_cases, H. reflexivity. Qed.

Lemma truthy_default_gives_constructor (c : PropertyConfig) (x : Ctor.t) :
  converter c = None -> truthy (initial c) = true ->
  constructor_of (initial c) = Some x ->
  resolve_converter (Config c) = Ok x.
Proof. intros H1 H2 H3. rewrite resolve_converter_cases, H1, H2, H3. reflexivity. Qed.

(** C4, at the failing inputs: the defaults [0], [''] and [false] have the
    constructors [Number], [String] and [Boolean], yet a definition that
    only declares such a default is decoded with the JSON converter.  The
    attribute text [42] of a property declared with [prop('')] becomes the
    number 42, where [String] gives the text back. *)
Theorem falsy_default_resolves_to_JSON :
  constructor_of (num 0) = Some Ctor.Number /\
  resolve_converter (Config (prop (num 0) None None None)) = Ok Ctor.JSON /\
  constructor_of (VStr "") = Some Ctor.String /\
  resolve_converter (Config (prop (VStr "") None None None)) = Ok Ctor.JSON /\
  constructor_of (VBool false) = Some Ctor.Boolean /\
  resolve_converter (Config (prop (VBool false) None None None)) = Ok Ctor.JSON /\
  parseAttribute sample_platform 0 (element [] [("title", "42")]) "title"
    (Config (prop (VStr "") None None None)) = Ok (num 42) /\
  convert sample_platform 0 (element [] [("title", "42")]) "title" Ctor.String "42"
    = Ok (VStr "42").
Proof. repeat split; vm_compute; reflexivity. Qed.

(** ** The structured converter (C5) *)

(** A text without backslash and without control character, once its
    quotes are escaped and it is wrapped in quotes, reads back as itself. *)
Lemma parse_chars_escape_quotes (s rest : string) :
  clean s = true ->
  parse_chars (escape_quotes s +:+ String dquote rest) = Some (s, rest).
Proof.
  induction s as [|c r IH]; intros Hc.
  - reflexivity.
  - cbn [clean] in Hc. apply andb_prop in Hc as [Hc Hr]. unfold clean_char in Hc.
    apply andb_prop in Hc as [Hb Hk].
    apply negb_true_iff in Hb, Hk.
    cbn [escape_quotes].
    destruct (Ascii.eqb c dquote) eqn:Hq.
    + apply Ascii.eqb_eq in Hq; subst c.
      change (parse_chars (String backslash (String dquote (escape_quotes r +:+ String dquote rest))) = Some (String dquote r, rest)).
      cbn [parse_chars]. 
      replace (Ascii.eqb backslash dquote) with false by reflexivity.
      rewrite Ascii.eqb_refl.
      replace (simple_escape dquote) with (Some dquote) by reflexivity.
      rewrite IH by assumption. reflexivity.
    + change (parse_chars (String c (escape_quotes r +:+ String dquote rest)) = Some (String c r, rest)).
      cbn [parse_chars]. rewrite Hq, Hb, Hk. rewrite IH by assumption. reflexivity.
Qed.

Lemma fallback_reads_clean_text (s : string) :
  clean s = true -> JSON_parse (quoted s) = Ok (JString s).
Proof.
  intros Hc. unfold JSON_parse, quoted.
  cbn [String.length]. 
  replace (2 * S (String.length (escape_quotes s +:+ String dquote "")) + 2)%nat
    with (S (2 * String.length (escape_quotes s +:+ String dquote "") + 3))%nat by lia.
  cbn [parse_value skip_ws]. 
  replace (is_ws dquote) with false by reflexivity.
  replace (Ascii.eqb dquote "[") with false by reflexivity.
  replace (Ascii.eqb dquote "{") with false by reflexivity.
  rewrite Ascii.eqb_refl.
  rewrite parse_chars_escape_quotes by assumption. reflexivity.
Qed.

(** C5, at the failing input: the text [C:\dir] is no JSON literal, and the
    quoted text the code falls back to is none either (the backslash starts
    an escape that JSON does not have), so the second [JSON.parse] throws
    inside the [catch] block and [parseAttribute] throws. *)
Theorem fallback_throws_on_backslash :
  JSON_parse "C:\dir" = Throw SyntaxError /\
  JSON_parse (quoted "C:\dir") = Throw SyntaxError /\
  parseAttribute sample_platform 0 (element [] [("path", "C:\dir")]) "path"
    (Config (prop VNull None None None)) = Throw SyntaxError /\
  parseAttribute sample_platform 0 (element [] [("path", "\")]) "path"
    (Config (prop VNull None (Some Ctor.JSON) None)) = Throw SyntaxError.
Proof. repeat split; vm_compute; reflexivity. Qed.

(** ** Seeding the cells (C2) *)

Section Seeding.
Context (P : Platform).

Lemma seed_existing fresh base key config v :
  properties base !! key = Some v -> seed P fresh base key config = Ok v.
Proof. intros H. unfold seed. rewrite H. reflexivity. Qed.

Lemma parseAttribute_config fresh base key config c :
  resolve_converter (Config config) = Ok c ->
  parseAttribute P fresh base key (Config config) =
  let name := attribute_key (attributeName config) key in
  if no_text (getAttribute base name) && negb (Ctor.eqb c Ctor.Boolean)
  then Ok (initial config)
  else convert P fresh base name c (default "" (getAttribute base name)).
Proof. intros H. unfold parseAttribute. cbn [read_field bind]. rewrite H. reflexivity. Qed.

Lemma resolve_converter_total config :
  exists c, resolve_converter (Config config) = Ok c.
Proof. rewrite resolve_converter_cases. eauto. Qed.

Lemma createPropertiesDescriptors_lookup fresh base props setters :
  createPropertiesDescriptors P fresh base props = Ok setters ->
  forall (i : nat) key config,
    props !! i = Some (key, config) ->
    exists init, setters !! i = Some (key, (init, config)) /\
                 seed P (fresh + i) base key config = Ok init.
Proof.
  revert fresh setters.
  induction props as [|[k c] rest IH]; intros fresh setters Hc i key config Hi.
  - destruct i; discriminate.
  - cbn [createPropertiesDescriptors] in Hc.
    destruct (seed P fresh base k c) as [v|] eqn:Hs; [|discriminate].
    cbn [bind] in Hc.
    destruct (createPropertiesDescriptors P (S fresh) base rest) as [tr|] eqn:Hr; [|discriminate].
    cbn [bind] in Hc. injection Hc as <-.
    destruct i as [|i].
    + injection Hi as -> ->. exists v. split; [reflexivity|].
      rewrite Nat.add_0_r. assumption.
    + cbn in Hi. destruct (IH _ _ Hr i key config Hi) as [init [H1 H2]].
      exists init. split; [exact H1|].
      replace (fresh + S i)%nat with (S fresh + i)%nat by lia. exact H2.
Qed.

(** C2, amended.  The cell of every schema entry is seeded with the value
    the name already resolves to on the host, if any; otherwise, with the
    decoding of a non-empty attribute text when the resolved converter is
    not [Boolean]; with the declared default when there is no such text and
    the converter is not [Boolean]; and with the presence of the attribute
    when the converter is [Boolean], whatever the default.  With the schema
    [{a: prop(0), b: prop(0), c: voidProp(Number)}] on a host where [a], [b]
    and [c] are 1, 2 and 3, the cells hold 1, 2 and 3. *)
Theorem seed_value_cases fresh base props setters :
  createPropertiesDescriptors P fresh base props = Ok setters ->
  (forall (i : nat) key config c,
      props !! i = Some (key, config) ->
      resolve_converter (Config config) = Ok c ->
      exists init,
        setters !! i = Some (key, (init, config)) /\
        let name := attribute_key (attributeName config) key in
        (forall v, properties base !! key = Some v -> init = v) /\
        (forall text, properties base !! key = None -> c <> Ctor.Boolean ->
                      getAttribute base name = Some text -> text <> "" ->
                      convert P (fresh + i) base name c text = Ok init) /\
        (properties base !! key = None -> c <> Ctor.Boolean ->
         no_text (getAttribute base name) = true -> init = initial config) /\
        (properties base !! key = None -> c = Ctor.Boolean ->
         init = VBool (hasAttribute base name))) /\
  (forall attrs root,
      createPropertiesDescriptors P fresh
        {| properties := list_to_map [("a", num 1); ("b", num 2); ("c", num 3)];
           attributes := attrs; shadowRoot := root |}
        [("a", prop (num 0) None None None); ("b", prop (num 0) None None None);
         ("c", voidProp Ctor.Number None None None)]
      = Ok [("a", (num 1, prop (num 0) None None None));
            ("b", (num 2, prop (num 0) None None None));
            ("c", (num 3, voidProp Ctor.Number None None None))]).
Proof.
  intros Hc. split; [|intros; reflexivity].
  intros i key config c Hi Hconv.
  destruct (createPropertiesDescriptors_lookup _ _ _ _ Hc i key config Hi) as [init [H1 H2]].
  exists init. split; [exact H1|]. cbn zeta.
  unfold seed in H2.
  repeat split.
  - intros v Hv. rewrite Hv in H2. congruence.
  - intros text Hn Hb Ha Ht. rewrite Hn in H2.
    rewrite (parseAttribute_config _ _ _ _ _ Hconv) in H2. cbn zeta in H2.
    rewrite Ha in H2. cbn [no_text default] in H2.
    destruct (String.eqb text "") eqn:He.
    + apply String.eqb_eq in He. contradiction.
    + exact H2.
  - intros Hn Hb Ha. rewrite Hn in H2.
    rewrite (parseAttribute_config _ _ _ _ _ Hconv) in H2. cbn zeta in H2.
    rewrite Ha in H2.
    destruct (Ctor.eqb c Ctor.Boolean) eqn:He.
    + destruct c; try discriminate. contradiction.
    + cbn in H2. congruence.
  - intros Hn Hb. rewrite Hn in H2.
    rewrite (parseAttribute_config _ _ _ _ _ Hconv) in H2. cbn zeta in H2.
    subst c. cbn [Ctor.eqb negb] in H2. rewrite andb_false_r in H2.
    cbn [convert] in H2. congruence.
Qed.

End Seeding.

Lemma seed_value_cases_witness :
  exists init,
    [("title", (VStr "Hello", prop (VStr "untitled") None None None))] !! O
      = Some ("title", (init, prop (VStr "untitled") None None None)) /\
    convert sample_platform 0 (element [] [("title", "Hello")]) "title" Ctor.String "Hello"
      = Ok init.
Proof.
  destruct (seed_value_cases sample_platform 0 (element [] [("title", "Hello")])
              [("title", prop (VStr "untitled") None None None)]
              [("title", (VStr "Hello", prop (VStr "untitled") None None None))]
              eq_refl) as [H _].
  destruct (H O "title" (prop (VStr "untitled") None None None) Ctor.String eq_refl eq_refl)
    as [init [H1 [_ [H2 _]]]].
  exists init. split; [exact H1|].
  apply (H2 "Hello"); [reflexivity|discriminate|reflexivity|discriminate].
Defined.

(** C2 as stated fails: the host has neither a property nor an attribute
    named [flag], the declared default is [true], and the cell is seeded
    with [false]. *)
Lemma boolean_default_is_not_the_seed :
  properties (element [] []) !! "flag" = None /\
  getAttribute (element [] []) "flag" = None /\
  initial (prop (VBool true) None None None) = VBool true /\
  createPropertiesDescriptors sample_platform 0 (element [] [])
    [("flag", prop (VBool true) None None None)]
  = Ok [("flag", (VBool false, prop (VBool true) None None None))].
Proof. repeat split. Qed.

(** ** Strict equality and the keys of [distinctUntilChanged] *)

Lemma number_eqb_eq (a b : number) : number_eqb a b = true -> a = b.
Proof.
  destruct a, b; simpl; try discriminate.
  - intros H. apply Bool.eqb_prop in H. congruence.
  - intros H. apply Z.eqb_eq in H. congruence.
  - intros H. apply andb_prop in H as [H1 H2].
    apply Z.eqb_eq in H1. apply Pos.eqb_eq in H2. congruence.
Qed.

Lemma strict_eq_congruent (k p v : value) :
  strict_eq k p = true -> strict_eq k v = strict_eq p v.
Proof.
  destruct k, p; simpl; try discriminate; try reflexivity; intros H.
  - apply Bool.eqb_prop in H. subst. reflexivity.
  - apply number_eqb_eq in H. subst. reflexivity.
  - apply Z.eqb_eq in H. subst. reflexivity.
  - apply String.eqb_eq in H. subst. reflexivity.
  - apply Nat.eqb_eq in H. subst. reflexivity.
Qed.

Lemma same_strict_eq (k p v : value) : same k p -> strict_eq k v = strict_eq p v.
Proof. intros [->|H]; [reflexivity|]. apply strict_eq_congruent. exact H. Qed.

(** Structural equality is coarser than [===] on objects: [===] never
    identifies two addresses. *)
Lemma strict_eq_objects (a b : nat) (x y : obj) :
  strict_eq (VObj a x) (VObj b y) = true <-> a = b.
Proof. simpl. apply Nat.eqb_eq. Qed.

Section Tables.
Context {A : Type}.

Lemma assign_names (key : string) (a : A) (l : list (string * A)) :
  map fst (assign key a l) = map fst l.
Proof.
  induction l as [|[k b] l IH]; simpl; [reflexivity|].
  destruct (String.eqb k key); simpl; congruence.
Qed.

Lemma assoc_assign_same (key : string) (a b : A) (l : list (string * A)) :
  assoc key l = Some b -> assoc key (assign key a l) = Some a.
Proof.
  induction l as [|[k c] l IH]; simpl; [discriminate|].
  destruct (String.eqb k key) eqn:E; simpl; rewrite E; auto.
Qed.

Lemma assoc_assign_other (key key' : string) (a : A) (l : list (string * A)) :
  key' <> key -> assoc key' (assign key a l) = assoc key' l.
Proof.
  intros Hne. induction l as [|[k c] l IH]; simpl; [reflexivity|].
  destruct (String.eqb k key) eqn:E; simpl.
  - apply String.eqb_eq in E. subst k.
    destruct (String.eqb key key') eqn:E'; [|reflexivity].
    apply String.eqb_eq in E'. congruence.
  - destruct (String.eqb k key'); [reflexivity|exact IH].
Qed.

End Tables.


Lemma keys_assign_both (name : string) (v : value) (config : PropertyConfig)
    (ks : Snapshot) (cs : Setters) :
  Forall2 key_of_cell ks cs ->
  Forall2 key_of_cell (assign name v ks) (assign name (v, config) cs).
Proof.
  induction 1 as [|[k kv] [c [cv cc]] ks cs [Hn Hs] HF IH]; simpl; [constructor|].
  simpl in Hn. subst c.
  destruct (String.eqb k name).
  - constructor; [|exact HF]. split; [reflexivity|left; reflexivity].
  - constructor; [|exact IH]. split; [reflexivity|exact Hs].
Qed.

Lemma keys_assign_cell (name : string) (v prev : value) (config : PropertyConfig)
    (ks : Snapshot) (cs : Setters) :
  Forall2 key_of_cell ks cs ->
  assoc name ks = Some prev -> strict_eq prev v = true ->
  Forall2 key_of_cell ks (assign name (v, config) cs).
Proof.
  induction 1 as [|[k kv] [c [cv cc]] ks cs [Hn Hs] HF IH]; simpl; [constructor|].
  simpl in Hn. subst c. intros Ha He.
  destruct (String.eqb k name).
  - injection Ha as ->. constructor; [|exact HF]. split; [reflexivity|right; exact He].
  - constructor; [|apply IH; assumption]. split; [reflexivity|exact Hs].
Qed.

Lemma keys_assoc (name : string) (cur : value) (config : PropertyConfig)
    (ks : Snapshot) (cs : Setters) :
  Forall2 key_of_cell ks cs ->
  assoc name cs = Some (cur, config) ->
  exists prev, assoc name ks = Some prev /\ same prev cur.
Proof.
  induction 1 as [|[k kv] [c [cv cc]] ks cs [Hn Hs] HF IH]; simpl; [discriminate|].
  simpl in Hn. subst c. intros Ha.
  destruct (String.eqb k name).
  - injection Ha as -> ->. exists kv. split; [reflexivity|exact Hs].
  - apply IH. exact Ha.
Qed.

Lemma keys_of_cells (cs : Setters) : Forall2 key_of_cell (cells cs) cs.
Proof.
  induction cs as [|[k [v c]] cs IH]; simpl; constructor; [|exact IH].
  split; [reflexivity|left; reflexivity].
Qed.

(** ** The invariants hold in every state the host can reach *)

Section HostFacts.
Context (P : Platform) {T : Type}.

Local Abbreviation State := (@State T).
Local Abbreviation subscriber := (@subscriber T).
Local Abbreviation event := (@event T).

Lemma receive_observed (st : State) name config v (s : subscriber) :
  observed (receive st name config v s).1 = observed s /\
  scoped (receive st name config v s).1 = scoped s.
Proof.
  unfold receive.
  destruct (listens_to_properties (observed s)); split; reflexivity.
Qed.

Lemma receive_tracks (st : State) name cur config v (s : subscriber) (cs : Setters) :
  assoc name cs = Some (cur, config) ->
  tracks cs s ->
  tracks (assign name (v, config) cs) (receive st name config v s).1.
Proof.
  intros Hc Ht Hl.
  destruct (receive_observed st name config v s) as [Ho _].
  rewrite Ho in Hl. specialize (Ht Hl).
  unfold receive. rewrite Hl. cbn [fst keys].
  destruct (keys_assoc _ _ _ _ _ Ht Hc) as [prev [Hp _]].
  unfold getPropertyChangeListener_next. rewrite Hp.
  destruct (strict_eq prev v) eqn:He; cbn [fst].
  - eapply keys_assign_cell; eassumption.
  - apply keys_assign_both. exact Ht.
Qed.

(** What one observer of the change stream does with a write, in terms of
    the value the cell held before. *)
Lemma receive_calls (st : State) name cur config v (s : subscriber) (cs : Setters) :
  assoc name cs = Some (cur, config) ->
  tracks cs s ->
  (receive st name config v s).2 =
  if listens_to_properties (observed s) && negb (strict_eq cur v)
  then flat_map (deliver st (observed s)) (change_events name config v)
  else [].
Proof.
  intros Hc Ht. unfold receive.
  destruct (listens_to_properties (observed s)) eqn:Hl; [|reflexivity].
  specialize (Ht Hl).
  destruct (keys_assoc _ _ _ _ _ Ht Hc) as [prev [Hp Hs]].
  unfold getPropertyChangeListener_next.
  rewrite Hp. rewrite <- (same_strict_eq _ _ v Hs).
  destruct (strict_eq prev v); reflexivity.
Qed.

Lemma filter_scoped_map (g : subscriber -> subscriber) (l : list (nat * subscriber)) :
  (forall s, scoped (g s) = scoped s) ->
  map fst (List.filter (fun e => scoped e.2) (map (fun e => (e.1, g e.2)) l)) =
  map fst (List.filter (fun e => scoped e.2) l).
Proof.
  intros Hg. induction l as [|[i s] l IH]; simpl; [reflexivity|].
  rewrite Hg. destruct (scoped s); simpl; congruence.
Qed.

Lemma map_fst_map (g : subscriber -> subscriber) (l : list (nat * subscriber)) :
  map fst (map (fun e => (e.1, g e.2)) l) = map fst l.
Proof. induction l as [|[i s] l IH]; simpl; congruence. Qed.

(** A step that keeps the subscriptions, the identifiers, what each
    subscriber observes and whether it is scoped, keeps the invariant as
    long as the keys still track the cells. *)
Lemma invariant_map_live (st st' : State) (g : subscriber -> subscriber) :
  live st' = map (fun e => (e.1, g e.2)) (live st) ->
  subscriptions st' = subscriptions st ->
  next_id st' = next_id st ->
  (forall s, observed (g s) = observed s /\ scoped (g s) = scoped s) ->
  (forall s, tracks (setters st) s -> tracks (setters st') (g s)) ->
  invariant st -> invariant st'.
Proof.
  intros Hl Hs Hn Hg Ht [I1 I2 I3 I4 I5].
  split.
  - rewrite Hl, Hs, filter_scoped_map; [exact I1|]. intros s. apply Hg.
  - rewrite Hl, map_fst_map. exact I2.
  - rewrite Hl, Hn. apply List.Forall_forall. intros e He.
    apply in_map_iff in He as [[i s] [<- Hin]]. simpl.
    rewrite List.Forall_forall in I3. apply (I3 _ Hin).
  - rewrite Hl. apply List.Forall_forall. intros e He.
    apply in_map_iff in He as [[i s] [<- Hin]]. simpl.
    destruct (Hg s) as [-> ->].
    rewrite List.Forall_forall in I4. apply (I4 _ Hin).
  - rewrite Hl. apply List.Forall_forall. intros e He.
    apply in_map_iff in He as [[i s] [<- Hin]]. simpl.
    apply Ht. rewrite List.Forall_forall in I5. apply (I5 _ Hin).
Qed.

Lemma map_id_live (l : list (nat * subscriber)) :
  l = map (fun e => (e.1, id e.2)) l.
Proof.
  induction l as [|[i s] l IH]; [reflexivity|].
  change ((i, s) :: l = (i, s) :: map (fun e => (e.1, id e.2)) l).
  f_equal. exact IH.
Qed.

Lemma invariant_same (st st' : State) :
  live st' = live st -> setters st' = setters st ->
  subscriptions st' = subscriptions st -> next_id st' = next_id st ->
  invariant st -> invariant st'.
Proof.
  intros Hl Hc Hs Hn. apply (invariant_map_live st st' id); try assumption.
  - rewrite Hl. apply map_id_live.
  - intros s; split; reflexivity.
  - intros s. rewrite Hc. exact id.
Qed.

Lemma invariant_next (st : State) key v : invariant st -> invariant (next st key v).
Proof.
  intros I. unfold next.
  destruct (assoc key (setters st)) as [[cur config]|] eqn:Hc; [|exact I].
  match goal with |- context [receive ?s key config v] => set (stored := s) end.
  unfold notify. cbn zeta iota beta.
  apply (invariant_map_live st _ (fun s => (receive stored key config v s).1));
    try reflexivity.
  - intros s. apply receive_observed.
  - intros s Hs. simpl. eapply receive_tracks; eassumption.
  - exact I.
Qed.

Lemma subscribe_to_fields (st : State) o b :
  observed (subscribe_to st o b).1 = o /\
  scoped (subscribe_to st o b).1 = b /\
  tracks (setters st) (subscribe_to st o b).1.
Proof.
  unfold subscribe_to.
  destruct (listens_to_properties o) eqn:Hl; simpl; repeat split.
  - intros _. simpl. apply keys_of_cells.
  - intros H. simpl in H. congruence.
Qed.

Lemma attach_fields b (st : State) o :
  live (attach b st o) = live st ++ [(next_id st, (subscribe_to st o b).1)] /\
  log (attach b st o) = log st ++ (subscribe_to st o b).2 /\
  next_id (attach b st o) = S (next_id st) /\
  subscriptions (attach b st o) = subscriptions st /\
  setters (attach b st o) = setters st /\
  registeredObservables (attach b st o) = registeredObservables st /\
  node (attach b st o) = node st /\
  heap (attach b st o) = heap st.
Proof.
  unfold attach. destruct (subscribe_to st o b) as [s calls]. simpl.
  repeat split; reflexivity.
Qed.

Lemma not_in_fresh (l : list (nat * subscriber)) (n : nat) :
  Forall (fun e => (e.1 < n)%nat) l -> n ∉ map fst l.
Proof.
  intros H Hin. apply list_elem_of_In, in_map_iff in Hin as [e [He Hin]].
  rewrite List.Forall_forall in H. specialize (H _ Hin). lia.
Qed.

(** Every part of the invariant but the record of subscriptions, which
    the [connected] listener completes only after it has subscribed to
    every observable. *)
Lemma attach_keeps (b : bool) (st : State) o :
  (b = false -> listens_to_update o = false) ->
  NoDup (map fst (live st)) ->
  Forall (fun e => (e.1 < next_id st)%nat) (live st) ->
  Forall (fun e => listens_to_update (observed e.2) = true -> scoped e.2 = true) (live st) ->
  Forall (fun e => tracks (setters st) e.2) (live st) ->
  let st' := attach b st o in
  NoDup (map fst (live st')) /\
  Forall (fun e => (e.1 < next_id st')%nat) (live st') /\
  Forall (fun e => listens_to_update (observed e.2) = true -> scoped e.2 = true) (live st') /\
  Forall (fun e => tracks (setters st') e.2) (live st').
Proof.
  intros Hb I2 I3 I4 I5 st'. subst st'.
  destruct (attach_fields b st o) as (Hl & _ & Hn & _ & Hc & _).
  destruct (subscribe_to_fields st o b) as (Ho & Hs & Ht).
  rewrite Hl, Hn, Hc. repeat split.
  - rewrite map_app. simpl. apply NoDup_app. repeat split.
    + exact I2.
    + intros x Hx Hx'. apply list_elem_of_singleton in Hx'. subst x.
      revert Hx. apply not_in_fresh. exact I3.
    + apply NoDup_singleton.
  - apply Forall_app. split.
    + eapply Forall_impl; [exact I3|]. intros e He. simpl in *. lia.
    + constructor; [simpl; lia|constructor].
  - apply Forall_app. split; [exact I4|].
    constructor; [|constructor]. simpl. rewrite Ho, Hs. intros Hu.
    destruct b; [reflexivity|]. rewrite Hb in Hu by reflexivity. discriminate.
  - apply Forall_app. split; [exact I5|].
    constructor; [|constructor]. exact Ht.
Qed.

Lemma filter_app_last (l : list (nat * subscriber)) (x : nat * subscriber) :
  List.filter (fun e => scoped e.2) (l ++ [x]) =
  List.filter (fun e => scoped e.2) l ++ (if scoped x.2 then [x] else []).
Proof. rewrite List.filter_app. simpl. destruct (scoped x.2); reflexivity. Qed.

Lemma invariant_attach_external (st : State) src spy :
  invariant st -> invariant (attach false st (Tapped src spy)).
Proof.
  intros [I1 I2 I3 I4 I5].
  destruct (attach_keeps false st (Tapped src spy) (fun _ => eq_refl) I2 I3 I4 I5)
    as (J2 & J3 & J4 & J5).
  destruct (attach_fields false st (Tapped src spy)) as (Hl & _ & _ & Hs & _).
  destruct (subscribe_to_fields st (Tapped src spy) false) as (_ & Hsc & _).
  split; try assumption.
  rewrite Hl, Hs, filter_app_last. simpl. rewrite Hsc, app_nil_r. exact I1.
Qed.

(** What [subscribe_all] returns: one new scoped subscriber per observable,
    in order, with the handles the listener is about to record. *)
Lemma subscribe_all_fields (os : list observable) : forall (st st' : State) handles,
  subscribe_all st os = (st', handles) ->
  NoDup (map fst (live st)) ->
  Forall (fun e => (e.1 < next_id st)%nat) (live st) ->
  Forall (fun e => listens_to_update (observed e.2) = true -> scoped e.2 = true) (live st) ->
  Forall (fun e => tracks (setters st) e.2) (live st) ->
  exists new,
    live st' = live st ++ new /\
    map fst new = handles /\
    map (fun e => observed e.2) new = os /\
    Forall (fun e => scoped e.2 = true) new /\
    subscriptions st' = subscriptions st /\
    setters st' = setters st /\
    registeredObservables st' = registeredObservables st /\
    node st' = node st /\
    NoDup (map fst (live st')) /\
    Forall (fun e => (e.1 < next_id st')%nat) (live st') /\
    Forall (fun e => listens_to_update (observed e.2) = true -> scoped e.2 = true) (live st') /\
    Forall (fun e => tracks (setters st') e.2) (live st').
Proof.
  induction os as [|o os IH]; intros st st' handles Hsub I2 I3 I4 I5.
  - simpl in Hsub. injection Hsub as <- <-. exists [].
    rewrite app_nil_r. repeat split; try assumption; constructor.
  - simpl in Hsub.
    destruct (subscribe_all (attach true st o) os) as [st1 hs] eqn:Hrec.
    injection Hsub as <- <-.
    destruct (attach_keeps true st o (fun H => ltac:(discriminate)) I2 I3 I4 I5)
      as (J2 & J3 & J4 & J5).
    destruct (IH _ _ _ Hrec J2 J3 J4 J5)
      as (new & Hl & Hh & Ho & Hsc & Hs & Hc & Hr & Hn & K2 & K3 & K4 & K5).
    destruct (attach_fields true st o) as (Al & _ & _ & As & Ac & Ar & An & _).
    destruct (subscribe_to_fields st o true) as (So & Ss & _).
    exists ((next_id st, (subscribe_to st o true).1) :: new).
    repeat split; try assumption; try congruence.
    + rewrite Hl, Al, <- app_assoc. reflexivity.
    + simpl. congruence.
    + simpl. congruence.
    + constructor; assumption.
Qed.

Lemma filter_all_scoped (l : list (nat * subscriber)) :
  Forall (fun e => scoped e.2 = true) l -> List.filter (fun e => scoped e.2) l = l.
Proof.
  induction 1 as [|e l He HF IH]; simpl; [reflexivity|]. rewrite He, IH. reflexivity.
Qed.

Lemma invariant_connected (st : State) : invariant st -> invariant (connected st).
Proof.
  intros [I1 I2 I3 I4 I5]. unfold connected.
  destruct (subscribe_all st (registeredObservables st)) as [st' handles] eqn:Hsub.
  destruct (subscribe_all_fields _ _ _ _ Hsub I2 I3 I4 I5)
    as (new & Hl & Hh & Ho & Hsc & Hs & Hc & Hr & Hn & K2 & K3 & K4 & K5).
  split; simpl; try assumption.
  rewrite Hl, List.filter_app, map_app.
  rewrite (filter_all_scoped new) by assumption.
  rewrite I1, Hs, Hh. reflexivity.
Qed.

Lemma filter_keeps_Forall (Q : nat * subscriber -> Prop) f (l : list (nat * subscriber)) :
  Forall Q l -> Forall Q (List.filter f l).
Proof.
  induction 1 as [|e l He HF IH]; simpl; [constructor|].
  destruct (f e); [constructor; assumption|assumption].
Qed.

Lemma filter_ids f (l : list (nat * subscriber)) (i : nat) :
  i ∈ map fst (List.filter f l) -> i ∈ map fst l.
Proof.
  induction l as [|e l IH]; simpl; [tauto|].
  destruct (f e); simpl; rewrite ?elem_of_cons; intuition.
Qed.

Lemma filter_keeps_NoDup f (l : list (nat * subscriber)) :
  NoDup (map fst l) -> NoDup (map fst (List.filter f l)).
Proof.
  induction l as [|e l IH]; simpl; [tauto|].
  rewrite NoDup_cons. intros [Hn Hd].
  destruct (f e); simpl; [|auto].
  rewrite NoDup_cons. split; [|auto].
  intros Hin. apply Hn. eapply filter_ids. exact Hin.
Qed.

Lemma existsb_not_in (i : nat) (hs : list nat) :
  i ∉ hs -> existsb (Nat.eqb i) hs = false.
Proof.
  induction hs as [|h hs IH]; simpl; [reflexivity|].
  rewrite not_elem_of_cons. intros [Hne Hn].
  apply Nat.eqb_neq in Hne. rewrite Hne. simpl. auto.
Qed.

Lemma unsubscribe_extra (a : nat) (hs : list nat) (l : list (nat * subscriber)) :
  a ∉ map fst l -> unsubscribe (a :: hs) l = unsubscribe hs l.
Proof.
  induction l as [|e l IH]; simpl; [reflexivity|].
  rewrite not_elem_of_cons. intros [Hne Hn].
  assert (E : Nat.eqb e.1 a = false) by (apply Nat.eqb_neq; congruence).
  rewrite E. simpl. rewrite IH by assumption. reflexivity.
Qed.

(** Unsubscribing the recorded handles removes the scoped subscribers and
    no other. *)
Lemma unsubscribe_recorded (l : list (nat * subscriber)) :
  NoDup (map fst l) ->
  unsubscribe (map fst (List.filter (fun e => scoped e.2) l)) l =
  List.filter (fun e => negb (scoped e.2)) l.
Proof.
  induction l as [|e l IH]; simpl; [reflexivity|].
  rewrite NoDup_cons. intros [Hn Hd].
  destruct (scoped e.2) eqn:Hs; simpl.
  - rewrite Nat.eqb_refl. simpl.
    rewrite unsubscribe_extra by assumption. apply IH. exact Hd.
  - rewrite existsb_not_in.
    + simpl. f_equal. apply IH. exact Hd.
    + intros Hin. apply Hn. eapply filter_ids. exact Hin.
Qed.

Lemma filter_scoped_unscoped (l : list (nat * subscriber)) :
  List.filter (fun e => scoped e.2) (List.filter (fun e => negb (scoped e.2)) l) = [].
Proof.
  induction l as [|e l IH]; simpl; [reflexivity|].
  destruct (scoped e.2) eqn:Hs; simpl; [exact IH|]. rewrite Hs. exact IH.
Qed.

Lemma live_disconnected (st : State) :
  invariant st ->
  live (disconnected st) = List.filter (fun e => negb (scoped e.2)) (live st).
Proof.
  intros [I1 I2 _ _ _]. unfold disconnected. simpl.
  rewrite <- I1. apply unsubscribe_recorded. exact I2.
Qed.

Lemma invariant_disconnected (st : State) : invariant st -> invariant (disconnected st).
Proof.
  intros I. pose proof (live_disconnected st I) as Hl.
  destruct I as [I1 I2 I3 I4 I5].
  split; rewrite Hl.
  - rewrite filter_scoped_unscoped. reflexivity.
  - apply filter_keeps_NoDup. exact I2.
  - apply filter_keeps_Forall. exact I3.
  - apply filter_keeps_Forall. exact I4.
  - apply filter_keeps_Forall. exact I5.
Qed.

Lemma filter_scoped_detach (id : nat) (l : list (nat * subscriber)) :
  List.filter (fun e => scoped e.2)
    (List.filter (fun e => scoped e.2 || negb (Nat.eqb e.1 id)) l) =
  List.filter (fun e => scoped e.2) l.
Proof.
  induction l as [|e l IH]; simpl; [reflexivity|].
  destruct (scoped e.2) eqn:Hs; simpl.
  - rewrite Hs. f_equal. exact IH.
  - destruct (negb (Nat.eqb e.1 id)); simpl; [rewrite Hs|]; exact IH.
Qed.

Lemma invariant_detach (st : State) id : invariant st -> invariant (detach st id).
Proof.
  intros [I1 I2 I3 I4 I5]. split; simpl.
  - rewrite filter_scoped_detach. exact I1.
  - apply filter_keeps_NoDup. exact I2.
  - apply filter_keeps_Forall. exact I3.
  - apply filter_keeps_Forall. exact I4.
  - apply filter_keeps_Forall. exact I5.
Qed.

Lemma invariant_attributeChanged (st : State) attr newValue :
  invariant st -> invariant (attributeChanged P st attr newValue).
Proof.
  intros I. unfold attributeChanged. cbn [or_else].
  destruct (assoc attr (setters st)); [|exact I].
  destruct (parseAttribute P (heap st) (node st) attr (Plain newValue)).
  - apply invariant_next. eapply invariant_same; [| | | |exact I]; reflexivity.
  - eapply invariant_same; [| | | |exact I]; reflexivity.
Qed.

Lemma invariant_step (st : State) (e : event) : invariant st -> invariant (step P st e).
Proof.
  intros I. destruct e; simpl.
  - apply invariant_connected. exact I.
  - apply invariant_disconnected. exact I.
  - apply invariant_attributeChanged. exact I.
  - unfold set_property. destruct (assoc key (setters st)).
    + apply invariant_next. exact I.
    + eapply invariant_same; [| | | |exact I]; reflexivity.
  - eapply invariant_same; [| | | |exact I]; reflexivity.
  - eapply invariant_same; [| | | |exact I]; reflexivity.
  - eapply invariant_same; [| | | |exact I]; reflexivity.
  - eapply invariant_same; [| | | |exact I]; reflexivity.
  - apply invariant_attach_external. exact I.
  - apply invariant_detach. exact I.
  - eapply invariant_same; [| | | |exact I]; reflexivity.
Qed.

Lemma invariant_run (es : list event) (st : State) :
  invariant st -> invariant (run P st es).
Proof.
  revert st. induction es as [|e es IH]; intros st I; [exact I|].
  simpl. apply IH. apply invariant_step. exact I.
Qed.

Lemma invariant_create fresh n props (st : State) :
  create P fresh n props = Ok st -> invariant st.
Proof.
  unfold create. destruct (createPropertiesDescriptors P fresh n props); [|discriminate].
  simpl. intros H. injection H as <-. split; simpl; constructor.
Qed.

Lemma run_app (st : State) (es es' : list event) :
  run P st (es ++ es') = run P (run P st es) es'.
Proof. unfold run. apply fold_left_app. Qed.

(** ** Writes and change events (C1) *)

Lemma deliver_ext (a b : State) o e :
  setters a = setters b -> node a = node b -> deliver a o e = deliver b o e.
Proof.
  intros Hs Hn. unfold deliver, mapProperties, get. rewrite Hs, Hn. reflexivity.
Qed.

Lemma flat_map_ext_Forall {A B} (f g : A -> list B) (Q : A -> Prop) (l : list A) :
  Forall Q l -> (forall a, Q a -> f a = g a) -> flat_map f l = flat_map g l.
Proof.
  intros HF H. induction HF as [|a l Ha HF IH]; simpl; [reflexivity|].
  rewrite (H a Ha), IH. reflexivity.
Qed.

(** The state after [trigger$.next(v)]: the cell holds [v], and each
    observer of the change stream is handed the change exactly when [v] is
    not [===] to the value the cell held. *)
Lemma next_log (st : State) name cur config v :
  invariant st ->
  assoc name (setters st) = Some (cur, config) ->
  setters (next st name v) = assign name (v, config) (setters st) /\
  node (next st name v) = node st /\
  log (next st name v) =
  log st ++ flat_map (fun e => change_calls (next st name v) name config cur v e.2) (live st).
Proof.
  intros I Hc. unfold next at 1 2 3. rewrite Hc. unfold notify. cbn zeta iota beta.
  split; [reflexivity|]. split; [reflexivity|]. simpl. f_equal.
  apply (flat_map_ext_Forall _ _ _ _ (inv_tracks _ I)).
  intros [i s] Ht. simpl in *.
  erewrite receive_calls by eassumption.
  unfold change_calls.
  destruct (listens_to_properties (observed s) && negb (strict_eq cur v)); [|reflexivity].
  apply flat_map_ext. intros e. apply deliver_ext.
  - unfold next. rewrite Hc. reflexivity.
  - unfold next. rewrite Hc. reflexivity.
Qed.

Lemma get_after_write (st : State) name cur config v :
  assoc name (setters st) = Some (cur, config) ->
  get (next st name v) name = v.
Proof.
  intros Hc. unfold get, next. rewrite Hc. simpl.
  rewrite (assoc_assign_same _ _ _ _ Hc). reflexivity.
Qed.

(** ** What a step leaves alone *)

Lemma next_frame (st : State) key v :
  registeredObservables (next st key v) = registeredObservables st /\
  subscriptions (next st key v) = subscriptions st /\
  node (next st key v) = node st /\
  map fst (setters (next st key v)) = map fst (setters st) /\
  exists g, live (next st key v) = map (fun e => (e.1, g e.2)) (live st) /\
            forall s, observed (g s) = observed s /\ scoped (g s) = scoped s /\
                      (listens_to_properties (observed s) = false -> g s = s).
Proof.
  unfold next. destruct (assoc key (setters st)) as [[cur config]|] eqn:Hc.
  - unfold notify. cbn zeta iota beta. simpl.
    repeat split; try reflexivity.
    + apply assign_names.
    + match goal with |- context [receive ?s key config v] => set (stored := s) end.
      exists (fun s => (receive stored key config v s).1). split; [reflexivity|].
      intros s. destruct (receive_observed stored key config v s) as [H1 H2].
      repeat split; try assumption.
      intros Hl. unfold receive. rewrite Hl. reflexivity.
  - repeat split; try reflexivity.
    exists id. split; [apply map_id_live|]. intros s. repeat split.
Qed.

Lemma subscribe_all_live (os : list observable) : forall (st st' : State) handles,
  subscribe_all st os = (st', handles) ->
  exists new,
    live st' = live st ++ new /\
    map fst new = handles /\
    map (fun e => observed e.2) new = os /\
    Forall (fun e => scoped e.2 = true) new /\
    subscriptions st' = subscriptions st /\
    setters st' = setters st /\
    registeredObservables st' = registeredObservables st /\
    node st' = node st /\
    (Forall (fun o => listens_to_properties o = false) os -> log st' = log st).
Proof.
  induction os as [|o os IH]; intros st st' handles Hsub.
  - simpl in Hsub. injection Hsub as <- <-. exists [].
    rewrite app_nil_r. repeat split; constructor.
  - simpl in Hsub.
    destruct (subscribe_all (attach true st o) os) as [st1 hs] eqn:Hrec.
    injection Hsub as <- <-.
    destruct (IH _ _ _ Hrec) as (new & Hl & Hh & Ho & Hsc & Hs & Hc & Hr & Hn & Hlog).
    destruct (attach_fields true st o) as (Al & Alog & _ & As & Ac & Ar & An & _).
    destruct (subscribe_to_fields st o true) as (So & Ss & _).
    exists ((next_id st, (subscribe_to st o true).1) :: new).
    repeat split; try congruence.
    + rewrite Hl, Al, <- app_assoc. reflexivity.
    + simpl. congruence.
    + simpl. congruence.
    + constructor; assumption.
    + intros HF. inversion HF as [|? ? Ho1 Hos]; subst.
      rewrite Hlog by assumption. rewrite Alog.
      unfold subscribe_to. rewrite Ho1. simpl. apply app_nil_r.
Qed.

Lemma connected_fields (st : State) :
  exists new,
    live (connected st) = live st ++ new /\
    map (fun e => observed e.2) new = registeredObservables st /\
    Forall (fun e => scoped e.2 = true) new /\
    subscriptions (connected st) = subscriptions st ++ map fst new /\
    registeredObservables (connected st) = registeredObservables st /\
    setters (connected st) = setters st /\
    node (connected st) = node st /\
    (Forall (fun o => listens_to_properties o = false) (registeredObservables st) ->
     log (connected st) = log st).
Proof.
  unfold connected.
  destruct (subscribe_all st (registeredObservables st)) as [st' handles] eqn:Hsub.
  destruct (subscribe_all_live _ _ _ _ Hsub)
    as (new & Hl & Hh & Ho & Hsc & Hs & Hc & Hr & Hn & Hlog).
  exists new. simpl. repeat split; try assumption. congruence.
Qed.

Lemma setters_names_step (st : State) (e : event) :
  map fst (setters (step P st e)) = map fst (setters st).
Proof.
  destruct e; simpl; try reflexivity.
  - destruct (connected_fields st) as (new & _ & _ & _ & _ & _ & -> & _). reflexivity.
  - unfold attributeChanged. cbn [or_else].
    destruct (assoc attr (setters st)); [|reflexivity].
    destruct (parseAttribute P (heap st) (node st) attr (Plain newValue)); [|reflexivity].
    match goal with |- context [next ?s attr ?a] =>
      destruct (next_frame s attr a) as (_ & _ & _ & -> & _) end.
    reflexivity.
  - unfold set_property. destruct (assoc key (setters st)); [|reflexivity].
    destruct (next_frame st key v) as (_ & _ & _ & -> & _). reflexivity.
  - destruct (attach_fields false st (Tapped src spy)) as (_ & _ & _ & _ & -> & _).
    reflexivity.
Qed.

Lemma setters_names_run (es : list event) (st : State) :
  map fst (setters (run P st es)) = map fst (setters st).
Proof.
  revert st. induction es as [|e es IH]; intros st; [reflexivity|].
  simpl. rewrite IH. apply setters_names_step.
Qed.

Lemma createPropertiesDescriptors_names fresh base props setters :
  createPropertiesDescriptors P fresh base props = Ok setters ->
  map fst setters = map fst props.
Proof.
  revert fresh setters. induction props as [|[k c] rest IH]; intros fresh setters H.
  - injection H as <-. reflexivity.
  - cbn [createPropertiesDescriptors] in H.
    destruct (seed P fresh base k c); [|discriminate]. cbn [bind] in H.
    destruct (createPropertiesDescriptors P (S fresh) base rest) eqn:Hr; [|discriminate].
    cbn [bind] in H. injection H as <-. simpl. f_equal. eapply IH. exact Hr.
Qed.

Lemma setters_names_create fresh n props (st : State) :
  create P fresh n props = Ok st -> map fst (setters st) = map fst props.
Proof.
  unfold create.
  destruct (createPropertiesDescriptors P fresh n props) eqn:H; [|discriminate].
  simpl. intros E. injection E as <-. simpl.
  eapply createPropertiesDescriptors_names. exact H.
Qed.

(** A scoped subscription stays live until the next [disconnected]. *)
Lemma live_scoped_map (o : observable) (l : list (nat * subscriber)) g :
  (forall s, observed (g s) = observed s /\ scoped (g s) = scoped s /\
             (listens_to_properties (observed s) = false -> g s = s)) ->
  (exists id s, In (id, s) l /\ observed s = o /\ scoped s = true) ->
  exists id s, In (id, s) (map (fun e => (e.1, g e.2)) l) /\ observed s = o /\ scoped s = true.
Proof.
  intros Hg (id & s & Hin & Ho & Hs). exists id, (g s).
  destruct (Hg s) as (H1 & H2 & _). repeat split; try congruence.
  apply in_map_iff. exists (id, s). split; [reflexivity|exact Hin].
Qed.

Lemma live_scoped_step (o : observable) (st : State) (e : event) :
  keeps_connection e = true -> live_scoped o st -> live_scoped o (step P st e).
Proof.
  intros Hk H. unfold live_scoped in *. destruct e; simpl; try discriminate; try exact H.
  - destruct (connected_fields st) as (new & -> & _).
    destruct H as (id & s & Hin & Ho & Hs). exists id, s.
    repeat split; try assumption. apply in_or_app. left. exact Hin.
  - unfold attributeChanged. cbn [or_else].
    destruct (assoc attr (setters st)); [|exact H].
    destruct (parseAttribute P (heap st) (node st) attr (Plain newValue)); [|exact H].
    match goal with |- context [next ?s attr ?a] =>
      destruct (next_frame s attr a) as (_ & _ & _ & _ & g & -> & Hg) end.
    apply live_scoped_map; assumption.
  - unfold set_property. destruct (assoc key (setters st)); [|exact H].
    destruct (next_frame st key v) as (_ & _ & _ & _ & g & -> & Hg).
    apply live_scoped_map; assumption.
  - destruct (attach_fields false st (Tapped src spy)) as (-> & _).
    destruct H as (i & s & Hin & Ho & Hs). exists i, s.
    repeat split; try assumption. apply in_or_app. left. exact Hin.
  - destruct H as (i & s & Hin & Ho & Hs). exists i, s.
    repeat split; try assumption. apply filter_In. split; [exact Hin|].
    simpl. rewrite Hs. reflexivity.
Qed.

Lemma live_scoped_run (o : observable) (es : list event) (st : State) :
  forallb keeps_connection es = true -> live_scoped o st -> live_scoped o (run P st es).
Proof.
  revert st. induction es as [|e es IH]; intros st Hk H; [exact H|].
  simpl in Hk. apply andb_prop in Hk as [H1 H2].
  simpl. apply IH; [exact H2|]. apply live_scoped_step; assumption.
Qed.

Lemma registered_step (o : observable) (st : State) (e : event) :
  In o (registeredObservables st) -> In o (registeredObservables (step P st e)).
Proof.
  intros H. destruct e; simpl; try exact H.
  - destruct (connected_fields st) as (new & _ & _ & _ & _ & -> & _). exact H.
  - unfold attributeChanged. cbn [or_else].
    destruct (assoc attr (setters st)); [|exact H].
    destruct (parseAttribute P (heap st) (node st) attr (Plain newValue)); [|exact H].
    match goal with |- context [next ?s attr ?a] =>
      destruct (next_frame s attr a) as (-> & _) end.
    exact H.
  - unfold set_property. destruct (assoc key (setters st)); [|exact H].
    destruct (next_frame st key v) as (-> & _). exact H.
  - apply in_or_app. left. exact H.
  - apply in_or_app. left. exact H.
  - destruct (attach_fields false st (Tapped src spy)) as (_ & _ & _ & _ & _ & -> & _).
    exact H.
Qed.

Lemma registered_run (o : observable) (es : list event) (st : State) :
  In o (registeredObservables st) -> In o (registeredObservables (run P st es)).
Proof.
  revert st. induction es as [|e es IH]; intros st H; [exact H|].
  simpl. apply IH. apply registered_step. exact H.
Qed.

Lemma connected_makes_live (o : observable) (st : State) :
  In o (registeredObservables st) -> live_scoped o (connected st).
Proof.
  intros H. destruct (connected_fields st) as (new & Hl & Ho & Hs & _).
  rewrite <- Ho in H. apply in_map_iff in H as [[id s] [E Hin]].
  exists id, s. rewrite Hl. repeat split.
  - apply in_or_app. right. exact Hin.
  - exact E.
  - rewrite List.Forall_forall in Hs. apply (Hs _ Hin).
Qed.

(** ** The template pipeline (C7) *)

Lemma mapProperties_names (st : State) :
  map fst (mapProperties st) = map fst (setters st).
Proof.
  unfold mapProperties. induction (setters st) as [|e l IH]; simpl; congruence.
Qed.

Lemma mapProperties_values (st : State) k v :
  In (k, v) (mapProperties st) -> v = get st k.
Proof.
  unfold mapProperties. intros H. apply in_map_iff in H as [e [E _]].
  injection E as <- <-. reflexivity.
Qed.

Lemma update_log (st : State) :
  log (update st) =
  log st ++ flat_map (fun e => match observed e.2 with
                               | Templated t => render_calls st t
                               | Tapped _ _ => []
                               end) (live st).
Proof.
  unfold update. simpl. f_equal. apply flat_map_ext. intros [i s]. simpl.
  destruct (observed s); reflexivity.
Qed.

(** C7.  A template bound before a [connected] signal has a live
    subscription until the next [disconnected] signal.  While it has one,
    every invocation of the manual trigger and every change event makes it
    call the template with the snapshot, then the renderer with the result
    of the template and the shadow root of the host if there is one, the
    host otherwise.  The snapshot lists the names of the schema, in order,
    each with the value the host currently has under that name. *)
Theorem template_renders_full_snapshot fresh n props (st0 : State) es :
  create P fresh n props = Ok st0 ->
  let st := run P st0 es in
  (forall t es1 es2 es3,
      es = es1 ++ UseTemplate t :: es2 ++ Connected :: es3 ->
      forallb keeps_connection es3 = true ->
      live_scoped (Templated t) st) /\
  map fst (mapProperties st) = map fst props /\
  (forall k v, In (k, v) (mapProperties st) -> v = get st k) /\
  render_target (node st) = match shadowRoot (node st) with
                            | Some root => ShadowRoot root
                            | None => HostNode
                            end /\
  log (step P st Update) =
    log st ++ flat_map (fun e => match observed e.2 with
                                 | Templated t => render_calls st t
                                 | Tapped _ _ => []
                                 end) (live st) /\
  (forall name cur config v,
      assoc name (setters st) = Some (cur, config) ->
      let st' := step P st (SetProperty name v) in
      map fst (mapProperties st') = map fst props /\
      (forall k w, In (k, w) (mapProperties st') -> w = get st' k) /\
      get st' name = v /\
      log st' = log st ++ flat_map (fun e => change_calls st' name config cur v e.2) (live st) /\
      (forall id s t,
          In (id, s) (live st) -> observed s = Templated t ->
          change_calls st' name config cur v s =
          if strict_eq cur v then []
          else flat_map (fun _ => render_calls st' t) (change_events name config v))).
Proof.
  intros Hcreate st.
  assert (I : invariant st) by (apply invariant_run; eapply invariant_create; eassumption).
  assert (Hnames : forall es', map fst (mapProperties (run P st0 es')) = map fst props).
  { intros es'. rewrite mapProperties_names, setters_names_run.
    eapply setters_names_create. eassumption. }
  split; [|repeat split].
  - intros t es1 es2 es3 -> Hk. subst st.
    rewrite run_app. simpl. rewrite run_app. simpl.
    apply live_scoped_run; [exact Hk|].
    apply connected_makes_live, registered_run.
    unfold useTemplate, subscribe. simpl. apply in_or_app. right. left. reflexivity.
  - apply Hnames.
  - apply mapProperties_values.
  - apply update_log.
  - replace (step P st (SetProperty name v))
      with (run P st0 (es ++ [SetProperty name v])) by (rewrite run_app; reflexivity).
    apply Hnames.
  - apply mapProperties_values.
  - simpl. unfold set_property. rewrite H. eapply get_after_write. exact H.
  - simpl. unfold set_property. rewrite H.
    destruct (next_log st name cur config v I H) as (_ & _ & Hl). exact Hl.
  - intros id s t _ Ho. unfold change_calls. rewrite Ho. simpl.
    destruct (strict_eq cur v); reflexivity.
Qed.

(** ** Connect, disconnect and what a registered pipeline observes (C6, C9, C10) *)

Lemma spy_args_app spy (a b : list (@call T)) :
  spy_args spy (a ++ b) = spy_args spy a ++ spy_args spy b.
Proof. unfold spy_args. apply flat_map_app. Qed.

Lemma heard_cons spy (l : list (nat * subscriber)) (e : event) es :
  heard spy l (e :: es) = heard spy l [e] ++ heard spy l es.
Proof. unfold heard. simpl. rewrite app_nil_r. reflexivity. Qed.

Lemma next_among_taps (st : State) key v :
  Forall subject_tap (live st) ->
  live (next st key v) = live st /\ log (next st key v) = log st /\
  registeredObservables (next st key v) = registeredObservables st /\
  subscriptions (next st key v) = subscriptions st.
Proof.
  intros HF. unfold next. destruct (assoc key (setters st)) as [[cur config]|]; [|tauto].
  unfold notify. cbn zeta iota beta. simpl.
  match goal with |- context [receive ?s key config v] => set (stored := s) end.
  assert (E : forall e, subject_tap e -> receive stored key config v e.2 = (e.2, [])).
  { intros e (_ & Hl & _). unfold receive. rewrite Hl. reflexivity. }
  assert (M : forall l, Forall subject_tap l ->
            map (fun e => (e.1, (receive stored key config v e.2).1)) l = l /\
            flat_map (fun e => (receive stored key config v e.2).2) l = []).
  { induction 1 as [|e l He HF' [IH1 IH2]]; simpl; [tauto|].
    rewrite (E e He), IH1, IH2. destruct e; tauto. }
  destruct (M _ HF) as [M1 M2].
  repeat split.
  - exact M1.
  - rewrite M2. apply app_nil_r.
Qed.

Lemma subject_next_heard spy id v (st : State) :
  Forall subject_tap (live st) ->
  spy_args spy (flat_map (fun e => if listens_to_subject id (observed e.2)
                                   then deliver st (observed e.2) (Next v) else [])
                  (live st)) =
  repeat (Next v) (taps spy id (live st)).
Proof.
  unfold taps. induction 1 as [|[i s] l (Hs & Hl & Hu) HF IH]; simpl; [reflexivity|].
  rewrite spy_args_app, IH. simpl in *.
  destruct (observed s) as [[j|] sp|t]; simpl in *; try discriminate.
  destruct (Nat.eqb j id); simpl; [|reflexivity].
  destruct (Nat.eqb sp spy); reflexivity.
Qed.

Lemma filter_all_kept (l : list (nat * subscriber)) id :
  Forall subject_tap l ->
  List.filter (fun e => scoped e.2 || negb (Nat.eqb e.1 id)) l = l.
Proof.
  induction 1 as [|e l (Hs & _) HF IH]; simpl; [reflexivity|].
  rewrite Hs, IH. reflexivity.
Qed.

(** While only taps of subjects are live, a quiet event changes neither the
    subscriptions nor what is registered, and a spy hears exactly the values
    of the subjects it taps. *)
Lemma quiet_step spy (st : State) (e : event) :
  Forall subject_tap (live st) -> quiet e = true ->
  live (step P st e) = live st /\
  registeredObservables (step P st e) = registeredObservables st /\
  subscriptions (step P st e) = subscriptions st /\
  spy_args spy (log (step P st e)) = spy_args spy (log st) ++ heard spy (live st) [e].
Proof.
  intros HF Hq. destruct e; simpl in Hq; try discriminate; simpl.
  - unfold attributeChanged. cbn [or_else].
    destruct (assoc attr (setters st)); [|rewrite app_nil_r; tauto].
    destruct (parseAttribute P (heap st) (node st) attr (Plain newValue)).
    + match goal with |- context [next ?s attr ?a] =>
        destruct (next_among_taps s attr a HF) as (-> & -> & -> & ->) end.
      simpl. rewrite app_nil_r. tauto.
    + simpl. rewrite spy_args_app. simpl. tauto.
  - unfold set_property. destruct (assoc key (setters st)).
    + destruct (next_among_taps st key v HF) as (-> & -> & -> & ->).
      rewrite app_nil_r. tauto.
    + simpl. rewrite app_nil_r. tauto.
  - repeat split. rewrite spy_args_app. f_equal.
    induction HF as [|x l (_ & _ & Hu) HF IH]; simpl; [reflexivity|].
    rewrite Hu. exact IH.
  - repeat split. rewrite spy_args_app, app_nil_r. f_equal.
    apply subject_next_heard. exact HF.
  - rewrite filter_all_kept by assumption. rewrite app_nil_r. tauto.
  - rewrite app_nil_r. tauto.
Qed.

Lemma quiet_run spy (es : list event) : forall st : State,
  Forall subject_tap (live st) -> forallb quiet es = true ->
  live (run P st es) = live st /\
  registeredObservables (run P st es) = registeredObservables st /\
  subscriptions (run P st es) = subscriptions st /\
  spy_args spy (log (run P st es)) = spy_args spy (log st) ++ heard spy (live st) es.
Proof.
  induction es as [|e es IH]; intros st HF Hq.
  - simpl. rewrite app_nil_r. tauto.
  - simpl in Hq. apply andb_prop in Hq as [Hq1 Hq2].
    destruct (quiet_step spy st e HF Hq1) as (Hl & Hr & Hs & Hlog).
    assert (HF' : Forall subject_tap (live (step P st e))) by (rewrite Hl; exact HF).
    destruct (IH _ HF' Hq2) as (Hl' & Hr' & Hs' & Hlog').
    change (run P st (e :: es)) with (run P (step P st e) es).
    rewrite Hl', Hr', Hs', Hlog', Hl, Hr, Hs, Hlog.
    rewrite (heard_cons spy (live st) e es), app_assoc. tauto.
Qed.

Lemma heard_nobody spy (es : list event) : heard spy [] es = [].
Proof.
  induction es as [|e es IH]; [reflexivity|].
  rewrite heard_cons, IH. destruct e; reflexivity.
Qed.

Lemma taps_of_copies spy subject id k (l : list (nat * subscriber)) :
  map (fun e => observed e.2) l = repeat (Tapped (Subject subject) spy) k ->
  taps spy id l = if Nat.eqb subject id then k else O.
Proof.
  unfold taps. intros ->. induction k as [|k IH]; simpl.
  - destruct (Nat.eqb subject id); reflexivity.
  - rewrite Nat.eqb_refl, andb_true_r.
    destruct (Nat.eqb subject id); simpl; rewrite IH; reflexivity.
Qed.

Lemma heard_by_copies spy subject k (l : list (nat * subscriber)) (es : list event) :
  map (fun e => observed e.2) l = repeat (Tapped (Subject subject) spy) k ->
  heard spy l es = flat_map (fun v => repeat (Next v) k) (subject_values subject es).
Proof.
  intros Hl. induction es as [|e es IH]; [reflexivity|].
  rewrite heard_cons, IH. unfold heard, subject_values.
  destruct e; try reflexivity. simpl.
  rewrite (taps_of_copies spy subject id k l Hl), Nat.eqb_sym.
  destruct (Nat.eqb id subject); simpl; rewrite ?app_nil_r; reflexivity.
Qed.

Lemma copies_are_taps subject spy k (l : list (nat * subscriber)) :
  map (fun e => observed e.2) l = repeat (Tapped (Subject subject) spy) k ->
  Forall (fun e => scoped e.2 = true) l ->
  Forall subject_tap l.
Proof.
  revert k. induction l as [|e l IH]; intros k Hm Hs; [constructor|].
  destruct k as [|k]; [discriminate|]. simpl in Hm. injection Hm as Ho Hm.
  inversion Hs; subst. constructor.
  - unfold subject_tap. rewrite Ho. simpl. tauto.
  - eapply IH; eassumption.
Qed.

Lemma filter_unscoped_all_scoped (l : list (nat * subscriber)) :
  Forall (fun e => scoped e.2 = true) l ->
  List.filter (fun e => negb (scoped e.2)) l = [].
Proof. induction 1 as [|e l He HF IH]; simpl; [reflexivity|]. rewrite He. exact IH. Qed.

Lemma filter_unscoped_none_scoped (l : list (nat * subscriber)) :
  List.filter (fun e => scoped e.2) l = [] ->
  List.filter (fun e => negb (scoped e.2)) l = l.
Proof.
  induction l as [|e l IH]; simpl; [reflexivity|].
  destruct (scoped e.2); simpl; [discriminate|]. intros H. rewrite IH by assumption. reflexivity.
Qed.

Lemma create_fields fresh n props (st : State) :
  create P fresh n props = Ok st ->
  live st = [] /\ registeredObservables st = [] /\ subscriptions st = [] /\ log st = [].
Proof.
  unfold create. destruct (createPropertiesDescriptors P fresh n props); [|discriminate].
  simpl. intros H. injection H as <-. simpl. tauto.
Qed.

(** [k] connect signals in a row. *)
Lemma connected_repeatedly (k : nat) : forall st : State,
  exists new,
    live (run P st (repeat Connected k)) = live st ++ new /\
    map (fun e => observed e.2) new = List.concat (repeat (registeredObservables st) k) /\
    Forall (fun e => scoped e.2 = true) new /\
    subscriptions (run P st (repeat Connected k)) = subscriptions st ++ map fst new /\
    registeredObservables (run P st (repeat Connected k)) = registeredObservables st /\
    (Forall (fun o => listens_to_properties o = false) (registeredObservables st) ->
     log (run P st (repeat Connected k)) = log st).
Proof.
  induction k as [|k IH]; intros st.
  - exists []. simpl. rewrite !app_nil_r. repeat split; constructor.
  - simpl.
    destruct (connected_fields st) as (new1 & Hl1 & Ho1 & Hs1 & Hsub1 & Hr1 & _ & _ & Hlog1).
    destruct (IH (connected st)) as (new2 & Hl2 & Ho2 & Hs2 & Hsub2 & Hr2 & Hlog2).
    exists (new1 ++ new2). repeat split.
    + rewrite Hl2, Hl1, <- app_assoc. reflexivity.
    + rewrite map_app, Ho1, Ho2, Hr1. reflexivity.
    + apply Forall_app. split; assumption.
    + rewrite Hsub2, Hsub1, map_app, <- app_assoc. reflexivity.
    + congruence.
    + intros HF. rewrite Hlog2, Hlog1; [reflexivity|assumption|rewrite Hr1; assumption].
Qed.

Lemma subscriptions_step (st : State) (e : event) :
  e <> Connected -> e <> Disconnected ->
  subscriptions (step P st e) = subscriptions st.
Proof.
  intros H1 H2. destruct e; try congruence; simpl; try reflexivity.
  - unfold attributeChanged. cbn [or_else].
    destruct (assoc attr (setters st)); [|reflexivity].
    destruct (parseAttribute P (heap st) (node st) attr (Plain newValue)); [|reflexivity].
    match goal with |- context [next ?s attr ?a] =>
      destruct (next_frame s attr a) as (_ & -> & _) end.
    reflexivity.
  - unfold set_property. destruct (assoc key (setters st)); [|reflexivity].
    destruct (next_frame st key v) as (_ & -> & _). reflexivity.
  - destruct (attach_fields false st (Tapped src spy)) as (_ & _ & _ & -> & _).
    reflexivity.
Qed.

Lemma connected_after_snoc (es : list event) (e : event) :
  connected_after (es ++ [e]) =
  match e with
  | Connected => true
  | Disconnected => false
  | _ => connected_after es
  end.
Proof. unfold connected_after. rewrite fold_left_app. reflexivity. Qed.

(** While the host is not connected nothing is recorded. *)
Lemma nothing_recorded_while_disconnected (st0 : State) (es : list event) :
  subscriptions st0 = [] ->
  connected_after es = false ->
  subscriptions (run P st0 es) = [].
Proof.
  intros H0. induction es as [|e es IH] using rev_ind; intros Hc; [exact H0|].
  rewrite connected_after_snoc in Hc. rewrite run_app. simpl.
  destruct e; try discriminate; try reflexivity;
    rewrite subscriptions_step by discriminate; apply IH; exact Hc.
Qed.

Lemma nothing_scoped_while_disconnected fresh n props (st0 : State) (es : list event) :
  create P fresh n props = Ok st0 ->
  connected_after es = false ->
  List.filter (fun e => scoped e.2) (live (run P st0 es)) = [].
Proof.
  intros Hcreate Hc.
  assert (I : invariant (run P st0 es))
    by (apply invariant_run; eapply invariant_create; eassumption).
  destruct (create_fields _ _ _ _ Hcreate) as (_ & _ & Hs & _).
  pose proof (nothing_recorded_while_disconnected st0 es Hs Hc) as Hr.
  rewrite <- (inv_recorded _ I) in Hr.
  destruct (List.filter _ _); [reflexivity|discriminate].
Qed.

(** A sequence of writes to one property, seen by the only subscriber. *)
Lemma writes_seen_by_tap spy name cfg (ws : list value) : forall (st : State) i s cur,
  invariant st ->
  live st = [(i, s)] -> observed s = Tapped PropertyChanged spy ->
  assoc name (setters st) = Some (cur, cfg) -> effects cfg = None ->
  spy_args spy (log (run P st (map (SetProperty name) ws))) =
  spy_args spy (log st) ++ map (Changed name) (changes cur ws).
Proof.
  induction ws as [|w ws IH]; intros st i s cur I Hl Ho Hc He.
  - simpl. rewrite app_nil_r. reflexivity.
  - change (run P st (map (SetProperty name) (w :: ws)))
      with (run P (step P st (SetProperty name w)) (map (SetProperty name) ws)).
    assert (Hstep : step P st (SetProperty name w) = next st name w).
    { simpl. unfold set_property. rewrite Hc. reflexivity. }
    rewrite Hstep.
    destruct (next_log st name cur cfg w I Hc) as (Hs & _ & Hlog).
    destruct (next_frame st name w) as (_ & _ & _ & _ & g & Hlive & Hg).
    rewrite Hl in Hlive, Hlog. simpl in Hlive, Hlog.
    destruct (Hg s) as (Hgo & _ & _).
    rewrite (IH (next st name w) i (g s) w).
    + rewrite Hlog, app_nil_r, spy_args_app, <- app_assoc. f_equal.
      unfold change_calls. rewrite Ho. cbn [listens_to_properties andb changes].
      destruct (strict_eq cur w); [reflexivity|].
      unfold change_events. rewrite He. simpl. rewrite Nat.eqb_refl. reflexivity.
    + apply invariant_next. exact I.
    + exact Hlive.
    + congruence.
    + rewrite Hs. eapply assoc_assign_same. exact Hc.
    + exact He.
Qed.

(** C1, amended.  In every state the host can reach, a write of [v] to the
    cell of a schema property hands a change to an observer of the change
    stream if and only if [v] is not strictly equal ([===]) to the value
    the cell held, which is the seed or the value last written: primitives
    are compared by value, objects by address.  With an effect pipeline the
    changes handed on are the outputs of the pipeline for [v]; without one
    there is exactly the change [[name, v]].  After the write the cell
    holds [v].  So a subscriber that attaches right after [create] is
    handed, of a sequence of writes to a property without effects, exactly
    the values that are not strictly equal to the value written just before
    them, the first being compared with the seed. *)
Theorem change_event_iff_not_strictly_equal
    fresh n props (st0 : State) es name cur config v :
  create P fresh n props = Ok st0 ->
  assoc name (setters (run P st0 es)) = Some (cur, config) ->
  let st := run P st0 es in
  let st' := step P st (SetProperty name v) in
  let calls := flat_map (fun e => change_calls st' name config cur v e.2) (live st) in
  log st' = log st ++ calls /\
  get st' name = v /\
  (forall id s spy,
      In (id, s) (live st) -> observed s = Tapped PropertyChanged spy ->
      change_calls st' name config cur v s =
      if strict_eq cur v then []
      else map (SpyCall spy) (change_events name config v)) /\
  (effects config = None ->
   forall id s spy,
     In (id, s) (live st) -> observed s = Tapped PropertyChanged spy ->
     (In (SpyCall spy (Changed name v)) calls <-> strict_eq cur v = false)) /\
  (forall spy seed cfg ws,
      assoc name (setters st0) = Some (seed, cfg) -> effects cfg = None ->
      let attached := step P st0 (Attach PropertyChanged spy) in
      spy_args spy (log (run P attached (map (SetProperty name) ws))) =
      spy_args spy (log attached) ++ map (Changed name) (changes seed ws)).
Proof.
  intros Hcreate Hc st st' calls.
  change (assoc name (setters st) = Some (cur, config)) in Hc.
  assert (I : invariant st) by (apply invariant_run; eapply invariant_create; eassumption).
  assert (Hstep : st' = next st name v).
  { subst st'. simpl. unfold set_property. rewrite Hc. reflexivity. }
  destruct (next_log st name cur config v I Hc) as (Hs & Hn & Hl).
  assert (Htap : forall s spy, observed s = Tapped PropertyChanged spy ->
            change_calls st' name config cur v s =
            if strict_eq cur v then [] else map (SpyCall spy) (change_events name config v)).
  { intros s spy Ho. unfold change_calls. rewrite Ho. simpl.
    destruct (strict_eq cur v); simpl; [reflexivity|].
    induction (change_events name config v) as [|c l IH]; simpl; congruence. }
  split; [|split; [|split; [|split]]].
  - subst calls. rewrite Hstep. exact Hl.
  - rewrite Hstep. eapply get_after_write. exact Hc.
  - intros id s spy _ Ho. apply Htap. exact Ho.
  - intros Heff id s spy Hin Ho. split.
    + intros Hcall. subst calls.
      destruct (strict_eq cur v) eqn:He; [|reflexivity].
      exfalso. apply in_flat_map in Hcall as [e [_ Hcall]].
      unfold change_calls in Hcall. rewrite He, andb_false_r in Hcall. destruct Hcall.
    + intros He. subst calls. apply in_flat_map. exists (id, s). split; [assumption|].
      simpl. rewrite (Htap s spy) by assumption. rewrite He.
      unfold change_events. rewrite Heff. simpl. left. reflexivity.
  - intros spy seed cfg ws Hseed Heff attached.
    destruct (create_fields _ _ _ _ Hcreate) as (L0 & _).
    assert (I0 : invariant st0) by (eapply invariant_create; eassumption).
    destruct (attach_fields false st0 (Tapped PropertyChanged spy))
      as (Al & _ & _ & _ & Ac & _).
    destruct (subscribe_to_fields st0 (Tapped PropertyChanged spy) false) as (So & _).
    apply (writes_seen_by_tap spy name cfg ws attached (next_id st0)
             (subscribe_to st0 (Tapped PropertyChanged spy) false).1 seed).
    + apply (invariant_step st0 (Attach PropertyChanged spy)). exact I0.
    + subst attached.
      change (step P st0 (Attach PropertyChanged spy))
        with (attach false st0 (Tapped PropertyChanged spy)).
      rewrite Al, L0. reflexivity.
    + exact So.
    + subst attached.
      change (step P st0 (Attach PropertyChanged spy))
        with (attach false st0 (Tapped PropertyChanged spy)).
      rewrite Ac. exact Hseed.
    + exact Heff.
Qed.


(** C9.  Starting from a state in which the host is not connected, [k]
    connect signals in a row leave [k] live subscriptions to every
    registered observable, all recorded; one disconnect signal then ends
    them all.  A spy that taps a subject through one registered pipeline is
    called [k] times for a value the subject emits after the [k] signals,
    and not at all for a value emitted after the disconnect signal. *)
Theorem connect_is_not_idempotent fresh n props (st0 : State) es k :
  create P fresh n props = Ok st0 ->
  connected_after es = false ->
  let st := run P st0 es in
  let stk := run P st (repeat Connected k) in
  (exists new,
      live stk = live st ++ new /\
      map (fun e => observed e.2) new = List.concat (repeat (registeredObservables st) k) /\
      Forall (fun e => scoped e.2 = true) new /\
      subscriptions stk = map fst new /\
      List.length new = (k * List.length (registeredObservables st))%nat) /\
  live (step P stk Disconnected) = live st /\
  subscriptions (step P stk Disconnected) = [] /\
  (forall subject spy v w pre,
      forallb quiet pre = true ->
      let trace := Subscribe [Tapped (Subject subject) spy] :: pre
                     ++ repeat Connected k ++ [SubjectNext subject v] in
      spy_args spy (log (run P st0 trace)) = repeat (Next v) k /\
      spy_args spy (log (run P st0 (trace ++ [Disconnected; SubjectNext subject w])))
      = repeat (Next v) k).
Proof.
  intros Hcreate Hc st stk.
  assert (I0 : invariant st0) by (eapply invariant_create; eassumption).
  assert (I : invariant st) by (apply invariant_run; exact I0).
  assert (Ik : invariant stk) by (apply invariant_run; exact I).
  destruct (create_fields _ _ _ _ Hcreate) as (L0 & R0 & S0 & G0).
  pose proof (nothing_recorded_while_disconnected st0 es S0 Hc) as Hsub.
  pose proof (nothing_scoped_while_disconnected _ _ _ _ _ Hcreate Hc) as Hsc.
  fold st in Hsub, Hsc.
  destruct (connected_repeatedly k st) as (new & Hl & Ho & Hs & Hrec & Hr & _).
  fold stk in Hl, Hrec, Hr.
  split; [|split; [|split]].
  - exists new. repeat split; try assumption.
    + rewrite Hrec, Hsub. reflexivity.
    + rewrite <- (length_map (fun e => observed e.2) new), Ho.
      clear. induction k as [|k IH]; simpl; [reflexivity|].
      rewrite length_app, IH. reflexivity.
  - change (step P stk Disconnected) with (disconnected stk).
    rewrite (live_disconnected stk Ik), Hl, List.filter_app.
    rewrite (filter_unscoped_all_scoped new Hs), app_nil_r.
    apply filter_unscoped_none_scoped. exact Hsc.
  - reflexivity.
  - intros subject spy v w pre Hpre trace.
    set (o := Tapped (Subject subject) spy) in *.
    set (s1 := step P st0 (Subscribe [o])).
    assert (L1 : live s1 = []) by exact L0.
    assert (R1 : registeredObservables s1 = [o]) by (simpl; rewrite R0; reflexivity).
    assert (G1 : log s1 = []) by exact G0.
    assert (I1 : invariant s1) by (apply (invariant_step st0 (Subscribe [o])); exact I0).
    assert (F1 : Forall subject_tap (live s1)) by (rewrite L1; constructor).
    destruct (quiet_run spy pre s1 F1 Hpre) as (L2 & R2 & _ & G2).
    set (s2 := run P s1 pre) in *.
    rewrite L1 in L2, G2. rewrite R1 in R2. rewrite G1 in G2.
    rewrite heard_nobody in G2. simpl in G2.
    destruct (connected_repeatedly k s2) as (news & L3 & O3 & Sc3 & _ & _ & G3).
    set (s3 := run P s2 (repeat Connected k)) in *.
    rewrite R2 in O3, G3. rewrite L2 in L3. simpl in L3.
    specialize (G3 ltac:(constructor; [reflexivity|constructor])).
    assert (O3' : map (fun e => observed e.2) news = repeat o k).
    { rewrite O3. clear. induction k as [|k IH]; simpl; congruence. }
    assert (F3 : Forall subject_tap (live s3)).
    { rewrite L3. apply (copies_are_taps subject spy k); assumption. }
    assert (E : run P st0 trace = step P s3 (SubjectNext subject v)).
    { subst trace s3 s2 s1.
      change (run P st0 (Subscribe [o] :: ?l)) with (run P (step P st0 (Subscribe [o])) l).
      rewrite !run_app. reflexivity. }
    destruct (quiet_step spy s3 (SubjectNext subject v) F3 eq_refl) as (L4 & _ & _ & G4).
    rewrite G3, G2, L3 in G4.
    rewrite (heard_by_copies spy subject k news [SubjectNext subject v] O3') in G4.
    simpl in G4. rewrite Nat.eqb_refl in G4. simpl in G4. rewrite app_nil_r in G4.
    split; [rewrite E; exact G4|].
    rewrite run_app, E.
    set (s4 := step P s3 (SubjectNext subject v)) in *.
    change (run P s4 [Disconnected; SubjectNext subject w])
      with (step P (disconnected s4) (SubjectNext subject w)).
    assert (I4 : invariant s4).
    { subst s4 s3 s2. apply invariant_step, invariant_run, invariant_run. exact I1. }
    assert (L5 : live (disconnected s4) = []).
    { rewrite (live_disconnected s4 I4), L4, L3.
      apply filter_unscoped_all_scoped. exact Sc3. }
    assert (F5 : Forall subject_tap (live (disconnected s4))) by (rewrite L5; constructor).
    destruct (quiet_step spy _ (SubjectNext subject w) F5 eq_refl) as (_ & _ & _ & G6).
    rewrite G6, L5, heard_nobody, app_nil_r. exact G4.
Qed.

(** C10.  While the host is not connected (no signal yet, or the last one
    was [disconnected]), the manual trigger calls nothing: the log, and so
    the calls of templates and of the renderer in it, stay as they were. *)
Theorem update_while_disconnected_is_dropped fresh n props (st0 : State) es :
  create P fresh n props = Ok st0 ->
  connected_after es = false ->
  log (step P (run P st0 es) Update) = log (run P st0 es) /\
  List.filter is_template_or_renderer_call (log (step P (run P st0 es) Update)) =
  List.filter is_template_or_renderer_call (log (run P st0 es)).
Proof.
  intros Hcreate Hc.
  assert (I : invariant (run P st0 es))
    by (apply invariant_run; eapply invariant_create; eassumption).
  pose proof (nothing_scoped_while_disconnected _ _ _ _ _ Hcreate Hc) as Hsc.
  assert (E : log (step P (run P st0 es) Update) = log (run P st0 es)).
  { simpl. unfold update. simpl.
    rewrite <- (app_nil_r (log (run P st0 es))) at 2. f_equal.
    pose proof (inv_templates _ I) as Ht.
    induction Ht as [|e l He HF IH]; simpl; [reflexivity|].
    simpl in Hsc. destruct (scoped e.2) eqn:Hs; [discriminate|].
    destruct (listens_to_update (observed e.2)) eqn:Hu.
    - specialize (He eq_refl). congruence.
    - apply IH. exact Hsc. }
  split; [exact E|]. rewrite E. reflexivity.
Qed.

End HostFacts.

(** ** Examples on concrete hosts *)

Lemma abc_host_created : create sample_platform 0 abc_element abc_schema = Ok abc_host.
Proof. reflexivity. Qed.

Lemma origin_host_created :
  create sample_platform 0 (element [] []) [("origin", prop (point 1) None None None)]
  = Ok origin_host.
Proof. reflexivity. Qed.

Lemma foo_host_created : create sample_platform 0 (element [] []) foo_schema = Ok foo_host.
Proof. reflexivity. Qed.

(** C1 as stated fails: the cell of [origin] holds the object [{ x: 1 }]
    at address 1; a second object [{ x: 1 }], structurally equal to it, is
    written; the observer of the change stream is handed a change. *)
Lemma equal_object_still_emits :
  let st := step sample_platform origin_host (Attach PropertyChanged 0) in
  get st "origin" = point 1 /\
  structural_eq (point 1) (point 2) = true /\
  log (step sample_platform st (SetProperty "origin" (point 2)))
  = log st ++ [SpyCall 0 (Changed "origin" (point 2))].
Proof. repeat split. Qed.

Lemma change_event_iff_not_strictly_equal_witness :
  let st := run sample_platform abc_host [Attach PropertyChanged 0] in
  log (step sample_platform st (SetProperty "a" (num 100)))
    = log st ++ [SpyCall 0 (Changed "a" (num 100))] /\
  log (step sample_platform st (SetProperty "a" (num 1))) = log st /\
  spy_args 0
    (log (run sample_platform st
            (map (SetProperty "a") [num 1; num 100; num 100; num 1])))
  = spy_args 0 (log st) ++ [Changed "a" (num 100); Changed "a" (num 1)].
Proof.
  split; [|split].
  - exact (proj1 (change_event_iff_not_strictly_equal sample_platform 0 abc_element
                    abc_schema abc_host [Attach PropertyChanged 0] "a" (num 1)
                    (prop (num 0) None None None) (num 100) eq_refl eq_refl)).
  - rewrite (proj1 (change_event_iff_not_strictly_equal sample_platform 0 abc_element
                      abc_schema abc_host [Attach PropertyChanged 0] "a" (num 1)
                      (prop (num 0) None None None) (num 1) eq_refl eq_refl)).
    reflexivity.
  - exact (proj2 (proj2 (proj2 (proj2
             (change_event_iff_not_strictly_equal sample_platform 0 abc_element
                abc_schema abc_host [] "a" (num 1)
                (prop (num 0) None None None) (num 1) eq_refl eq_refl))))
             O (num 1) (prop (num 0) None None None)
             [num 1; num 100; num 100; num 1] eq_refl eq_refl).
Defined.

(** C3, at the failing inputs.  (1) The definition of [foo] names the
    attribute [bar]; a change of [bar] is ignored, although the search the
    listener spells out after [||] finds [foo].  (2) [title] is declared
    with a string default, so its definition decodes the text [42] to the
    string; the listener passes the new text where the definition is
    expected, decodes with the JSON converter and writes the number 42.
    (3) When the attribute is removed the new value is [null] and the
    listener throws. *)
Theorem attributeChanged_misses_the_definition :
  step sample_platform foo_host (AttributeChanged "bar" (VStr "baz")) = foo_host /\
  List.find (fun e => match attributeName e.2.2 with
                      | Some a => String.eqb a "bar"
                      | None => false
                      end) (setters foo_host)
  = Some ("foo", (VStr "foo", prop (VStr "foo") (Some "bar") None None)) /\
  (let st := step sample_platform foo_host (SetAttribute "title" (Some "42")) in
   get (step sample_platform st (AttributeChanged "title" (VStr "42"))) "title" = num 42 /\
   parseAttribute sample_platform (heap st) (node st) "title"
     (Config (prop (VStr "untitled") None None None)) = Ok (VStr "42")) /\
  (let st := step sample_platform foo_host (SetAttribute "title" None) in
   step sample_platform st (AttributeChanged "title" VNull)
   = {| node := node st; setters := setters st;
        registeredObservables := []; subscriptions := []; live := [];
        next_id := O; heap := 2%nat; log := [Uncaught TypeError] |} /\
   parseAttribute sample_platform (heap st) (node st) "title"
     (Config (prop (VStr "untitled") None None None)) = Ok (VStr "untitled")).
Proof. repeat split. Qed.

Lemma template_renders_full_snapshot_witness :
  let st := run sample_platform abc_host [UseTemplate show_a; Connected] in
  live_scoped (Templated show_a) st /\
  log (step sample_platform st Update) =
    log st ++ [TemplateCall [("a", num 1); ("b", num 2); ("c", num 3)];
               RendererCall "1" HostNode] /\
  log (step sample_platform st (SetProperty "a" (num 100))) =
    log st ++ [TemplateCall [("a", num 100); ("b", num 2); ("c", num 3)];
               RendererCall "100" HostNode].
Proof.
  pose proof (template_renders_full_snapshot sample_platform 0 abc_element abc_schema
                abc_host [UseTemplate show_a; Connected] eq_refl) as H.
  cbv zeta in H. destruct H as (H1 & _ & _ & _ & H2 & H3).
  split; [|split].
  - exact (H1 show_a [] [] [] eq_refl eq_refl).
  - exact H2.
  - destruct (H3 "a" (num 1) (prop (num 0) None None None) (num 100) eq_refl)
      as (_ & _ & _ & H4 & _).
    exact H4.
Defined.


Lemma connect_is_not_idempotent_witness :
  spy_args 7
    (log (run sample_platform abc_host
            [Subscribe [Tapped (Subject 0) 7]; Connected; Connected; Connected;
             SubjectNext 0 (num 2)]))
  = [Next (num 2); Next (num 2); Next (num 2)] /\
  live (run sample_platform abc_host
          [Subscribe [Tapped (Subject 0) 7]; Connected; Connected; Connected; Disconnected])
  = [].
Proof.
  split.
  - pose proof (connect_is_not_idempotent sample_platform 0 abc_element abc_schema
                  abc_host [] 3 eq_refl eq_refl) as H.
    cbv zeta in H. destruct H as (_ & _ & _ & H).
    exact (proj1 (H O 7%nat (num 2) (num 3) [] eq_refl)).
  - pose proof (connect_is_not_idempotent sample_platform 0 abc_element abc_schema
                  abc_host [Subscribe [Tapped (Subject 0) 7]] 3 eq_refl eq_refl) as H.
    cbv zeta in H. destruct H as (_ & H & _). exact H.
Defined.

Lemma update_while_disconnected_is_dropped_witness :
  let es := [UseTemplate show_a; Connected; SetProperty "a" (num 100); Disconnected] in
  log (run sample_platform abc_host (es ++ [Update])) = log (run sample_platform abc_host es).
Proof.
  exact (proj1 (update_while_disconnected_is_dropped sample_platform 0 abc_element
                  abc_schema abc_host
                  [UseTemplate show_a; Connected; SetProperty "a" (num 100); Disconnected]
                  eq_refl eq_refl)).
Defined.

(** ** Reading back what was stringified (C8) *)

Lemma append_cons (x : ascii) (a b : string) : String x a +:+ b = String x (a +:+ b).
Proof. reflexivity. Qed.

Lemma append_nil (b : string) : "" +:+ b = b.
Proof. reflexivity. Qed.

Lemma append_assoc (a b c : string) : (a +:+ b) +:+ c = a +:+ (b +:+ c).
Proof.
  induction a as [|x a IH]; [reflexivity|]. rewrite !append_cons, IH. reflexivity.
Qed.

Lemma append_empty (a : string) : a +:+ "" = a.
Proof. induction a as [|x a IH]; [reflexivity|]. rewrite append_cons, IH. reflexivity. Qed.

Lemma length_append (a b : string) :
  String.length (a +:+ b) = (String.length a + String.length b)%nat.
Proof.
  induction a as [|x a IH]; [reflexivity|].
  rewrite append_cons. cbn [String.length]. rewrite IH. reflexivity.
Qed.

Lemma digit_char_facts (d : Z) :
  0 <= d <= 9 ->
  is_digit (digit_char d) = true /\ digit_val (digit_char d) = d /\
  Ascii.eqb (digit_char d) "0" = (d =? 0).
Proof.
  intros H.
  assert (E : d = 0 \/ d = 1 \/ d = 2 \/ d = 3 \/ d = 4 \/ d = 5 \/ d = 6 \/ d = 7
              \/ d = 8 \/ d = 9) by lia.
  repeat destruct E as [E|E]; subst d; repeat split; reflexivity.
Qed.

(** The characters that are digits are none of the characters the reader
    dispatches on. *)
Lemma digit_is_plain (c : ascii) :
  is_digit c = true ->
  is_ws c = false /\ Ascii.eqb c "[" = false /\ Ascii.eqb c "{" = false /\
  Ascii.eqb c dquote = false /\ Ascii.eqb c "t" = false /\ Ascii.eqb c "f" = false /\
  Ascii.eqb c "n" = false /\ Ascii.eqb c "-" = false /\ Ascii.eqb c "]" = false /\
  Ascii.eqb c "}" = false.
Proof.
  destruct c as [[] [] [] [] [] [] [] []]; intros H; try discriminate H;
    repeat split; reflexivity.
Qed.

Lemma terminated_cases (rest : string) :
  terminated rest = true ->
  rest = "" \/ exists c r, rest = String c r /\ (c = "," \/ c = "]" \/ c = "}")%char.
Proof.
  destruct rest as [|c r]; [left; reflexivity|]. simpl. intros H. right.
  exists c, r. split; [reflexivity|].
  apply orb_prop in H as [H|H]; [apply orb_prop in H as [H|H]|];
    apply Ascii.eqb_eq in H; auto.
Qed.

Lemma take_digits_stop (a len : Z) (rest : string) :
  terminated rest = true -> take_digits a len rest = (a, len, rest).
Proof.
  intros H. destruct (terminated_cases rest H) as [->|(c & r & -> & [->|[->| ->]])];
    reflexivity.
Qed.

Lemma parse_frac_part_stop (rest : string) :
  terminated rest = true -> parse_frac_part rest = Some (0, 0, rest).
Proof.
  intros H. destruct (terminated_cases rest H) as [->|(c & r & -> & [->|[->| ->]])];
    reflexivity.
Qed.

Lemma parse_exp_part_stop (rest : string) :
  terminated rest = true -> parse_exp_part rest = Some (0, rest).
Proof.
  intros H. destruct (terminated_cases rest H) as [->|(c & r & -> & [->|[->| ->]])];
    reflexivity.
Qed.

Lemma skip_ws_terminated (rest : string) :
  terminated rest = true -> skip_ws rest = rest.
Proof.
  intros H. destruct (terminated_cases rest H) as [->|(c & r & -> & [->|[->| ->]])];
    reflexivity.
Qed.

Lemma print_digits_append (fuel : nat) : forall n acc rest,
  print_digits fuel n acc +:+ rest = print_digits fuel n (acc +:+ rest).
Proof.
  induction fuel as [|fuel IH]; intros n acc rest; simpl; [reflexivity|].
  destruct (n <? 10); [reflexivity|]. apply IH.
Qed.

Lemma print_digits_S (fuel : nat) (n : Z) (acc : string) :
  print_digits (S fuel) n acc =
  if n <? 10 then String (digit_char (n mod 10)) acc
  else print_digits fuel (n / 10) (String (digit_char (n mod 10)) acc).
Proof. reflexivity. Qed.

(** Reading the digits of [n] continues a number read so far. *)
Lemma take_print_digits (fuel : nat) : forall n acc a len,
  0 <= n < 10 ^ Z.of_nat (S fuel) ->
  exists d, 0 < d /\
    take_digits a len (print_digits (S fuel) n acc) =
    take_digits (a * 10 ^ d + n) (len + d) acc.
Proof.
  induction fuel as [|fuel IH]; intros n acc a len Hn.
  - exists 1. split; [lia|]. change (10 ^ Z.of_nat 1) with 10 in Hn.
    rewrite print_digits_S. replace (n <? 10) with true by (symmetry; apply Z.ltb_lt; lia).
    rewrite Z.mod_small by lia.
    destruct (digit_char_facts n) as (H1 & H2 & _); [lia|].
    cbn [take_digits]. rewrite H1, H2. f_equal; lia.
  - rewrite print_digits_S. destruct (n <? 10) eqn:E.
    + apply Z.ltb_lt in E. exists 1. split; [lia|].
      rewrite Z.mod_small by lia.
      destruct (digit_char_facts n) as (H1 & H2 & _); [lia|].
      cbn [take_digits]. rewrite H1, H2. f_equal; lia.
    + apply Z.ltb_ge in E.
      assert (Hq : 0 <= n / 10 < 10 ^ Z.of_nat (S fuel)).
      { split; [apply Z.div_pos; lia|].
        apply Z.div_lt_upper_bound; [lia|].
        replace (Z.of_nat (S (S fuel))) with (Z.succ (Z.of_nat (S fuel))) in Hn by lia.
        rewrite Z.pow_succ_r in Hn by lia. lia. }
      destruct (IH (n / 10) (String (digit_char (n mod 10)) acc) a len Hq) as (d & Hd & Ht).
      exists (d + 1). split; [lia|]. rewrite Ht.
      destruct (digit_char_facts (n mod 10)) as (H1 & H2 & _).
      { pose proof (Z.mod_pos_bound n 10). lia. }
      cbn [take_digits]. rewrite H1, H2. f_equal.
      * rewrite Z.pow_add_r by lia. pose proof (Z.div_mod n 10). lia.
      * lia.
Qed.

Lemma print_digits_head (fuel : nat) : forall n acc,
  0 < n < 10 ^ Z.of_nat (S fuel) ->
  exists c r, print_digits (S fuel) n acc = String c r /\
              is_digit c = true /\ Ascii.eqb c "0" = false.
Proof.
  induction fuel as [|fuel IH]; intros n acc Hn.
  - change (10 ^ Z.of_nat 1) with 10 in Hn. cbn [print_digits].
    replace (n <? 10) with true by (symmetry; apply Z.ltb_lt; lia).
    rewrite Z.mod_small by lia.
    destruct (digit_char_facts n) as (H1 & _ & H3); [lia|].
    eexists _, _. split; [reflexivity|]. split; [exact H1|].
    rewrite H3. apply Z.eqb_neq. lia.
  - rewrite print_digits_S. destruct (n <? 10) eqn:E.
    + apply Z.ltb_lt in E. rewrite Z.mod_small by lia.
      destruct (digit_char_facts n) as (H1 & _ & H3); [lia|].
      eexists _, _. split; [reflexivity|]. split; [exact H1|].
      rewrite H3. apply Z.eqb_neq. lia.
    + apply Z.ltb_ge in E. apply IH. split.
      * apply Z.div_str_pos. lia.
      * apply Z.div_lt_upper_bound; [lia|].
        replace (Z.of_nat (S (S fuel))) with (Z.succ (Z.of_nat (S fuel))) in Hn by lia.
        rewrite Z.pow_succ_r in Hn by lia. lia.
Qed.

Lemma natural_fuel (n : Z) : 0 <= n -> n < 10 ^ Z.of_nat (S (Z.to_nat (Z.log2 n))).
Proof.
  intros Hn. destruct (Z.eq_dec n 0) as [->|Hne]; [reflexivity|].
  assert (Hl : 0 <= Z.log2 n) by apply Z.log2_nonneg.
  rewrite Nat2Z.inj_succ, Z2Nat.id by exact Hl.
  pose proof (Z.log2_spec n ltac:(lia)) as [_ Hs].
  eapply Z.lt_le_trans; [exact Hs|].
  apply Z.pow_le_mono_l. lia.
Qed.

(** The reader of unsigned numbers gives back the natural number whose
    digits were printed. *)
Lemma parse_unsigned_print_natural (n : Z) (rest : string) :
  0 <= n -> terminated rest = true ->
  parse_unsigned (print_natural n +:+ rest) = Some (Int n, rest).
Proof.
  intros Hn Hr. unfold print_natural. rewrite print_digits_append, append_nil.
  pose proof (natural_fuel n Hn) as Hf.
  unfold parse_unsigned.
  assert (Hi : parse_int_part (print_digits (S (Z.to_nat (Z.log2 n))) n rest) = Some (n, rest)).
  { destruct (Z.eq_dec n 0) as [->|Hne].
    - reflexivity.
    - destruct (print_digits_head (Z.to_nat (Z.log2 n)) n rest ltac:(lia))
        as (c & r & E & Hd & Hz).
      destruct (take_print_digits (Z.to_nat (Z.log2 n)) n rest 0 0 ltac:(lia))
        as (d & Hd0 & Ht).
      unfold parse_int_part. rewrite E at 1. rewrite Hz, Hd, Ht.
      rewrite take_digits_stop by assumption.
      replace (0 * 10 ^ d + n) with n by lia. reflexivity. }
  rewrite Hi, parse_frac_part_stop, parse_exp_part_stop by assumption.
  unfold scaled. cbn. f_equal. f_equal. f_equal. lia.
Qed.

Lemma print_natural_head (n : Z) :
  0 <= n -> exists c r, print_natural n = String c r /\ is_digit c = true.
Proof.
  intros Hn. destruct (Z.eq_dec n 0) as [->|Hne].
  - eexists _, _. split; reflexivity.
  - destruct (print_digits_head (Z.to_nat (Z.log2 n)) n ""
                ltac:(pose proof (natural_fuel n Hn); lia)) as (c & r & E & Hd & _).
    exists c, r. split; assumption.
Qed.

Lemma parse_number_print_Z (z : Z) (rest : string) :
  terminated rest = true ->
  parse_number (print_Z z +:+ rest) = Some (Int z, rest).
Proof.
  intros Hr. unfold print_Z. destruct (z <? 0) eqn:E.
  - apply Z.ltb_lt in E. rewrite append_cons. cbn [parse_number].
    replace (Ascii.eqb "-" "-") with true by reflexivity.
    rewrite parse_unsigned_print_natural by (assumption || lia).
    cbn [negate]. rewrite Z.opp_involutive. reflexivity.
  - apply Z.ltb_ge in E.
    destruct (print_natural_head z E) as (c & r & Hp & Hd).
    destruct (digit_is_plain c Hd) as (_ & _ & _ & _ & _ & _ & _ & Hm & _).
    pose proof (parse_unsigned_print_natural z rest E Hr) as Hu.
    rewrite Hp in *. rewrite append_cons in *. cbn [parse_number]. rewrite Hm. exact Hu.
Qed.

(** Every character reads back from its escaped form. *)
Lemma parse_chars_escape_char (c : ascii) (r : string) :
  parse_chars (escape_char c +:+ r) = prepend (String c "") (parse_chars r).
Proof. destruct c as [[] [] [] [] [] [] [] []]; reflexivity. Qed.

Lemma parse_chars_escape_chars (s rest : string) :
  parse_chars (escape_chars s +:+ String dquote rest) = Some (s, rest).
Proof.
  induction s as [|c s IH].
  - reflexivity.
  - cbn [escape_chars]. rewrite append_assoc, parse_chars_escape_char, IH. reflexivity.
Qed.

Lemma parse_chars_quote (s rest : string) :
  JSON_quote s +:+ rest = String dquote (escape_chars s +:+ String dquote rest) /\
  parse_chars (escape_chars s +:+ String dquote rest) = Some (s, rest).
Proof.
  split; [|apply parse_chars_escape_chars].
  unfold JSON_quote. rewrite append_cons, append_assoc. reflexivity.
Qed.

(** Induction on JSON trees, with the hypothesis on every element of an
    array and on every member of an object. *)
Lemma json_induction (Q : json -> Prop) :
  Q JNull -> (forall b, Q (JBool b)) -> (forall n, Q (JNumber n)) ->
  (forall s, Q (JString s)) ->
  (forall l, Forall Q l -> Q (JArray l)) ->
  (forall l, Forall (fun kv => Q kv.2) l -> Q (JObject l)) ->
  forall j, Q j.
Proof.
  intros Hnull Hbool Hnum Hstr Harr Hobj.
  fix IH 1. intros [| b | n | s | l | l].
  - exact Hnull.
  - apply Hbool.
  - apply Hnum.
  - apply Hstr.
  - apply Harr. induction l as [|x l IHl]; constructor; [apply IH|exact IHl].
  - apply Hobj. induction l as [|[k x] l IHl]; constructor; [apply IH|exact IHl].
Qed.

Lemma print_Z_head (z : Z) :
  exists c r, print_Z z = String c r /\
    is_ws c = false /\ Ascii.eqb c "[" = false /\ Ascii.eqb c "{" = false /\
    Ascii.eqb c dquote = false /\ Ascii.eqb c "t" = false /\ Ascii.eqb c "f" = false /\
    Ascii.eqb c "n" = false /\ Ascii.eqb c "]" = false.
Proof.
  unfold print_Z. destruct (z <? 0) eqn:E.
  - eexists _, _. split; [reflexivity|]. repeat split; reflexivity.
  - apply Z.ltb_ge in E. destruct (print_natural_head z E) as (c & r & Hp & Hd).
    exists c, r. split; [exact Hp|].
    destruct (digit_is_plain c Hd) as (H1 & H2 & H3 & H4 & H5 & H6 & H7 & _ & H9 & _).
    repeat split; assumption.
Qed.

(** The text of a tree starts with a character that is neither white
    space nor a closing bracket. *)
Lemma stringify_head (j : json) :
  plain j = true ->
  exists c r, JSON_stringify j = String c r /\ is_ws c = false /\ Ascii.eqb c "]" = false.
Proof.
  destruct j as [| [] | [] | s | l | l]; intros Hp; try discriminate Hp;
    try (eexists _, _; split; [reflexivity|split; reflexivity]).
  destruct (print_Z_head z) as (c & r & E & H1 & _ & _ & _ & _ & _ & _ & H9).
  exists c, r. repeat split; assumption.
Qed.

Lemma set_entry_fresh (k : string) (v : json) (acc : list (string * json)) :
  existsb (String.eqb k) (map fst acc) = false -> set_entry k v acc = acc ++ [(k, v)].
Proof.
  induction acc as [|[k' v'] acc IH]; simpl; [reflexivity|].
  intros H. apply orb_false_elim in H as [H1 H2].
  rewrite H1, IH by assumption. reflexivity.
Qed.

Lemma existsb_app_keys (k : string) (a b : list string) :
  existsb (String.eqb k) (a ++ b) = existsb (String.eqb k) a || existsb (String.eqb k) b.
Proof. apply existsb_app. Qed.

Lemma entries_of_distinct (l : list (string * json)) : forall acc,
  distinct (map fst l) = true ->
  forallb (fun k => negb (existsb (String.eqb k) (map fst acc))) (map fst l) = true ->
  fold_left (fun o kv => set_entry kv.1 kv.2 o) l acc = acc ++ l.
Proof.
  induction l as [|[k v] l IH]; intros acc Hd Hf.
  - simpl. rewrite app_nil_r. reflexivity.
  - simpl in Hd, Hf. apply andb_prop in Hd as [Hk Hd]. apply andb_prop in Hf as [Hf1 Hf2].
    apply negb_true_iff in Hk, Hf1. cbn [fold_left fst snd].
    rewrite set_entry_fresh by assumption.
    rewrite IH; [rewrite <- app_assoc; reflexivity|exact Hd|].
    clear IH. rewrite map_app. cbn [map fst].
    revert Hk Hf2. generalize (map fst l). intros ks Hk Hf2.
    induction ks as [|k' ks IHk]; [reflexivity|].
    simpl in Hk, Hf2. apply orb_false_elim in Hk as [Hk1 Hk2].
    apply andb_prop in Hf2 as [Hf3 Hf4]. apply negb_true_iff in Hf3.
    cbn [forallb]. rewrite existsb_app_keys, Hf3. simpl.
    rewrite String.eqb_sym, Hk1. simpl. apply IHk; assumption.
Qed.

Lemma object_of_distinct_entries (l : list (string * json)) :
  distinct (map fst l) = true -> object_of_entries l = JObject l.
Proof.
  intros Hd. unfold object_of_entries. f_equal.
  change (fun o kv => set_entry (fst kv) (snd kv) o)
    with (fun o (kv : string * json) => set_entry kv.1 kv.2 o).
  rewrite entries_of_distinct; [reflexivity|exact Hd|].
  clear Hd. induction (map fst l) as [|k ks IH]; [reflexivity|]. exact IH.
Qed.

Lemma skip_ws_head (c : ascii) (r : string) :
  is_ws c = false -> skip_ws (String c r) = String c r.
Proof. intros H. cbn [skip_ws]. rewrite H. reflexivity. Qed.

Lemma join_head (x : string) (l : list string) :
  exists t, join (x :: l) = x +:+ t /\
            (l = [] -> t = "") /\ (l <> [] -> t = "," +:+ join l).
Proof.
  destruct l as [|y l].
  - exists "". rewrite append_empty. repeat split; congruence.
  - exists ("," +:+ join (y :: l)). repeat split; congruence.
Qed.

Lemma parse_value_array (n : nat) (r : string) :
  parse_value (S n) (String "[" r) =
  match skip_ws r with
  | String c1 r1 =>
    if Ascii.eqb c1 "]" then Some (JArray [], r1)
    else match parse_elements n r with
         | Some (l, rest) => Some (JArray l, rest)
         | None => None
         end
  | EmptyString => None
  end.
Proof. reflexivity. Qed.

Lemma parse_value_object (n : nat) (r : string) :
  parse_value (S n) (String "{" r) =
  match skip_ws r with
  | String c1 r1 =>
    if Ascii.eqb c1 "}" then Some (JObject [], r1)
    else match parse_members n r with
         | Some (l, rest) => Some (object_of_entries l, rest)
         | None => None
         end
  | EmptyString => None
  end.
Proof. reflexivity. Qed.

Lemma parse_value_string (n : nat) (r : string) :
  parse_value (S n) (String dquote r) =
  match parse_chars r with
  | Some (str, rest) => Some (JString str, rest)
  | None => None
  end.
Proof. reflexivity. Qed.

Lemma parse_elements_S (n : nat) (s : string) :
  parse_elements (S n) s =
  match parse_value n s with
  | Some (v, r) =>
    match skip_ws r with
    | String c r1 =>
      if Ascii.eqb c "," then
        match parse_elements n r1 with
        | Some (l, rest) => Some (v :: l, rest)
        | None => None
        end
      else if Ascii.eqb c "]" then Some ([v], r1)
      else None
    | EmptyString => None
    end
  | None => None
  end.
Proof. reflexivity. Qed.

Lemma parse_members_S (n : nat) (k : string) (r1 : string) (r : string) :
  parse_chars r = Some (k, r1) ->
  parse_members (S n) (String dquote r) =
  match skip_ws r1 with
  | String c r2 =>
    if Ascii.eqb c ":" then
      match parse_value n r2 with
      | Some (v, r3) =>
        match skip_ws r3 with
        | String d r4 =>
          if Ascii.eqb d "," then
            match parse_members n r4 with
            | Some (l, rest) => Some ((k, v) :: l, rest)
            | None => None
            end
          else if Ascii.eqb d "}" then Some ([(k, v)], r4)
          else None
        | EmptyString => None
        end
      | None => None
      end
    else None
  | EmptyString => None
  end.
Proof. intros H. cbn [parse_members]. rewrite skip_ws_head by reflexivity.
  replace (Ascii.eqb dquote dquote) with true by reflexivity. rewrite H. reflexivity.
Qed.

(** The elements of a non-empty array, up to its closing bracket. *)
Lemma parse_elements_join (l : list json) :
  Forall reads_back l -> forallb plain l = true -> l <> [] ->
  forall (n : nat) (rest : string),
    (list_sum (map (fun x => S (size x)) l) <= n)%nat ->
    parse_elements n (join (map JSON_stringify l) +:+ String "]" rest) = Some (l, rest).
Proof.
  induction 1 as [|x l Hx HF IH]; intros Hp Hne n rest Hn; [congruence|].
  cbn [forallb] in Hp. apply andb_prop in Hp as [Hpx Hpl].
  simpl in Hn. destruct n as [|n]; [lia|].
  rewrite parse_elements_S. cbn [map].
  destruct (join_head (JSON_stringify x) (map JSON_stringify l)) as (t & -> & Ht1 & Ht2).
  rewrite append_assoc.
  destruct l as [|y l].
  - rewrite (Ht1 eq_refl), append_nil.
    rewrite (Hx Hpx n (String "]" rest)) by (reflexivity || lia).
    reflexivity.
  - rewrite (Ht2 ltac:(discriminate)). rewrite append_assoc.
    change ("," +:+ ?a) with (String "," a).
    rewrite (Hx Hpx n) by (reflexivity || lia).
    rewrite skip_ws_head by reflexivity.
    replace (Ascii.eqb "," ",") with true by reflexivity.
    rewrite IH; [reflexivity|exact Hpl|discriminate|lia].
Qed.

(** The members of a non-empty object, up to its closing bracket. *)
Lemma parse_members_join (l : list (string * json)) :
  Forall (fun kv => reads_back kv.2) l ->
  forallb (fun '(_, x) => plain x) l = true -> l <> [] ->
  forall (n : nat) (rest : string),
    (list_sum (map (fun '(_, x) => S (size x)) l) <= n)%nat ->
    parse_members n
      (join (map (fun '(k, x) => JSON_quote k +:+ ":" +:+ JSON_stringify x) l)
         +:+ String "}" rest)
    = Some (l, rest).
Proof.
  induction 1 as [|[k x] l Hx HF IH]; intros Hp Hne n rest Hn; [congruence|].
  cbn [forallb] in Hp. apply andb_prop in Hp as [Hpx Hpl].
  simpl in Hn. destruct n as [|n]; [lia|]. cbn [map].
  match goal with |- context [join (?a :: ?b)] =>
    destruct (join_head a b) as (t & -> & Ht1 & Ht2) end.
  rewrite !append_assoc.
  destruct (parse_chars_quote k (":" +:+ JSON_stringify x +:+ t +:+ String "}" rest))
    as [E1 E2].
  rewrite E1. rewrite (parse_members_S n k _ _ E2).
  change (":" +:+ ?a) with (String ":" a).
  rewrite skip_ws_head by reflexivity.
  replace (Ascii.eqb ":" ":") with true by reflexivity.
  simpl in Hx.
  destruct l as [|y l].
  - rewrite (Ht1 eq_refl), append_nil.
    rewrite (Hx Hpx n (String "}" rest)) by (reflexivity || lia).
    reflexivity.
  - rewrite (Ht2 ltac:(discriminate)). rewrite append_assoc.
    change ("," +:+ ?a) with (String "," a).
    rewrite (Hx Hpx n) by (reflexivity || lia).
    rewrite skip_ws_head by reflexivity.
    replace (Ascii.eqb "," ",") with true by reflexivity.
    rewrite IH; [reflexivity|exact Hpl|discriminate|lia].
Qed.

(** The reader gives back every plain tree from its text. *)
Lemma parse_value_stringify (j : json) : reads_back j.
Proof.
  induction j as [| b | num | s | l HF | l HF] using json_induction;
    intros Hp n rest Hn Hr.
  - destruct n as [|n]; [simpl in Hn; lia|]. reflexivity.
  - destruct n as [|n]; [simpl in Hn; lia|]. destruct b; reflexivity.
  - destruct num as [| neg | z | m k]; try discriminate Hp.
    destruct n as [|n]; [simpl in Hn; lia|].
    pose proof (parse_number_print_Z z rest Hr) as Hnum.
    destruct (print_Z_head z) as (c & r & E & H1 & H2 & H3 & H4 & H5 & H6 & H7 & _).
    cbn [JSON_stringify]. rewrite E in *. rewrite append_cons in *.
    cbn [parse_value]. rewrite skip_ws_head by exact H1.
    rewrite H2, H3, H4, H5, H6, H7, Hnum. reflexivity.
  - destruct n as [|n]; [simpl in Hn; lia|].
    destruct (parse_chars_quote s rest) as [E1 E2].
    cbn [JSON_stringify]. rewrite E1, parse_value_string, E2. reflexivity.
  - cbn [plain] in Hp. cbn [size] in Hn. destruct n as [|n]; [lia|].
    cbn [JSON_stringify]. rewrite !append_cons, append_nil, append_assoc.
    change ("]" +:+ rest) with (String "]" rest).
    rewrite parse_value_array.
    destruct l as [|x l]; [reflexivity|].
    destruct (stringify_head x) as (c & r & E & H1 & H2).
    { cbn [forallb] in Hp. apply andb_prop in Hp as [Hp _]. exact Hp. }
    pose proof (parse_elements_join (x :: l) HF Hp ltac:(discriminate) n rest
                  ltac:(lia)) as He.
    cbn [map] in *.
    destruct (join_head (JSON_stringify x) (map JSON_stringify l)) as (t & Ej & _).
    rewrite Ej in *. rewrite E in *. rewrite !append_cons in *.
    rewrite skip_ws_head by exact H1. rewrite H2, He. reflexivity.
  - cbn [plain] in Hp. apply andb_prop in Hp as [Hd Hp].
    cbn [size] in Hn. destruct n as [|n]; [lia|].
    cbn [JSON_stringify]. rewrite !append_cons, append_nil, append_assoc.
    change ("}" +:+ rest) with (String "}" rest).
    rewrite parse_value_object.
    destruct l as [|[k x] l]; [reflexivity|].
    pose proof (parse_members_join ((k, x) :: l) HF Hp ltac:(discriminate) n rest
                  ltac:(lia)) as Hm.
    cbn [map] in *.
    match type of Hm with context [join (?a :: ?b)] =>
      destruct (join_head a b) as (t & Ej & _) end.
    rewrite Ej in *. unfold JSON_quote in *. rewrite !append_cons in *.
    rewrite skip_ws_head by reflexivity.
    replace (Ascii.eqb dquote "}") with false by reflexivity.
    rewrite Hm, object_of_distinct_entries by exact Hd. reflexivity.
Qed.

Lemma stringify_length (j : json) :
  plain j = true -> (size j <= String.length (JSON_stringify j))%nat.
Proof.
  induction j as [| b | num | s | l HF | l HF] using json_induction; intros Hp.
  - simpl. lia.
  - destruct b; simpl; lia.
  - destruct (stringify_head (JNumber num) Hp) as (c & r & E & _). rewrite E.
    destruct num; simpl; lia.
  - simpl. lia.
  - cbn [plain] in Hp. cbn [size JSON_stringify].
    rewrite append_cons, append_nil. cbn [String.length]. rewrite length_append.
    cbn [String.length].
    enough (list_sum (map (fun x => S (size x)) l)
            <= String.length (join (map JSON_stringify l)) + 1)%nat by lia.
    induction HF as [|x l Hx HF IH]; [simpl; lia|].
    cbn [forallb] in Hp. apply andb_prop in Hp as [Hpx Hpl].
    specialize (Hx Hpx). specialize (IH Hpl). cbn [map].
    destruct (join_head (JSON_stringify x) (map JSON_stringify l)) as (t & -> & Ht1 & Ht2).
    rewrite length_append. simpl list_sum.
    destruct l as [|y l].
    + rewrite (Ht1 eq_refl). simpl. lia.
    + rewrite (Ht2 ltac:(discriminate)). rewrite length_append.
      cbn [String.length]. simpl list_sum in *. lia.
  - cbn [plain] in Hp. apply andb_prop in Hp as [_ Hp]. cbn [size JSON_stringify].
    rewrite append_cons, append_nil. cbn [String.length]. rewrite length_append.
    cbn [String.length].
    enough (list_sum (map (fun '(_, x) => S (size x)) l)
            <= String.length
                 (join (map (fun '(k, x) => JSON_quote k +:+ ":" +:+ JSON_stringify x) l))
               + 1)%nat by lia.
    induction HF as [|[k x] l Hx HF IH]; [simpl; lia|].
    cbn [forallb] in Hp. apply andb_prop in Hp as [Hpx Hpl].
    simpl in Hx. specialize (Hx Hpx). specialize (IH Hpl). cbn [map].
    match goal with |- context [join (?a :: ?b)] =>
      destruct (join_head a b) as (t & -> & Ht1 & Ht2) end.
    rewrite !length_append. simpl list_sum.
    destruct l as [|y l].
    + rewrite (Ht1 eq_refl). simpl. lia.
    + rewrite (Ht2 ltac:(discriminate)). rewrite length_append.
      cbn [String.length]. simpl list_sum in *. lia.
Qed.

(** [JSON.parse(JSON.stringify(j))] is [j] for every plain tree. *)
Lemma JSON_parse_stringify (j : json) :
  plain j = true -> JSON_parse (JSON_stringify j) = Ok j.
Proof.
  intros Hp. unfold JSON_parse.
  pose proof (stringify_length j Hp) as Hl.
  pose proof (parse_value_stringify j Hp (2 * String.length (JSON_stringify j) + 2)%nat ""
                ltac:(lia) eq_refl) as H.
  rewrite append_empty in H. rewrite H. reflexivity.
Qed.

Lemma stringify_not_empty (j : json) : plain j = true -> JSON_stringify j <> "".
Proof.
  intros Hp. destruct (stringify_head j Hp) as (c & r & E & _). rewrite E. discriminate.
Qed.

Lemma print_Z_not_empty (z : Z) : print_Z z <> "".
Proof. destruct (print_Z_head z) as (c & r & E & _). rewrite E. discriminate. Qed.

Lemma digit_is_no_sign (c : ascii) :
  is_digit c = true ->
  is_space c = false /\ Ascii.eqb c "+" = false /\ Ascii.eqb c "-" = false /\
  Ascii.eqb "I" c = false.
Proof.
  destruct c as [[] [] [] [] [] [] [] []]; intros H; try discriminate H;
    repeat split; reflexivity.
Qed.

Lemma decimal_literal_print_natural (n : Z) :
  0 <= n -> decimal_literal (print_natural n) = Some (Int n, "").
Proof.
  intros Hn. unfold decimal_literal, print_natural.
  destruct (take_print_digits (Z.to_nat (Z.log2 n)) n "" 0 0
              ltac:(pose proof (natural_fuel n Hn); lia)) as (d & Hd & Ht).
  rewrite Ht. cbn [take_digits].
  replace (0 + d + 0 =? 0) with false by (symmetry; apply Z.eqb_neq; lia).
  cbn [parse_exp_part]. unfold scaled. cbn. f_equal. f_equal. f_equal. lia.
Qed.

Lemma radix_literal_print_natural (n : Z) :
  0 <= n -> radix_literal (print_natural n) = None.
Proof.
  intros Hn. destruct (Z.eq_dec n 0) as [->|Hne]; [reflexivity|].
  destruct (print_digits_head (Z.to_nat (Z.log2 n)) n ""
              ltac:(pose proof (natural_fuel n Hn); lia)) as (c & r & E & _ & Hz).
  unfold print_natural. rewrite E. unfold radix_literal.
  destruct r; [reflexivity|]. rewrite Hz. reflexivity.
Qed.

Lemma numeric_literal_print_natural (n : Z) :
  0 <= n -> numeric_literal (print_natural n) = Some (Int n, "").
Proof.
  intros Hn. unfold numeric_literal.
  rewrite radix_literal_print_natural by exact Hn.
  pose proof (decimal_literal_print_natural n Hn) as Hd.
  destruct (print_natural_head n Hn) as (c & r & E & Hc).
  destruct (digit_is_no_sign c Hc) as (_ & H1 & H2 & H3).
  rewrite E in *. cbn [take_sign]. rewrite H1, H2.
  cbn [strip_prefix]. rewrite H3, Hd. reflexivity.
Qed.

(** [Number(String(z))] is [z] for every integer. *)
Lemma Number_of_print_Z (z : Z) : Number_of_string (print_Z z) = Int z.
Proof.
  unfold print_Z. destruct (z <? 0) eqn:E.
  - apply Z.ltb_lt in E.
    pose proof (decimal_literal_print_natural (- z) ltac:(lia)) as Hd.
    destruct (print_natural_head (- z) ltac:(lia)) as (c & r & Hp & Hc).
    destruct (digit_is_no_sign c Hc) as (_ & _ & _ & H3).
    rewrite Hp in *. unfold Number_of_string. cbn [skip_space].
    replace (is_space "-") with false by reflexivity.
    unfold numeric_literal.
    replace (radix_literal (String "-" (String c r))) with (@None (Z * string))
      by reflexivity.
    cbn [take_sign]. replace (Ascii.eqb "-" "-") with true by reflexivity.
    cbn [strip_prefix]. rewrite H3, Hd. cbn [negate skip_space].
    rewrite Z.opp_involutive. reflexivity.
  - apply Z.ltb_ge in E.
    pose proof (numeric_literal_print_natural z E) as Hn.
    destruct (print_natural_head z E) as (c & r & Hp & Hc).
    destruct (digit_is_no_sign c Hc) as (Hs & _).
    rewrite Hp in *. unfold Number_of_string. cbn [skip_space]. rewrite Hs, Hn.
    reflexivity.
Qed.

(** ** Round trips through [parseAttribute] (C8) *)

Section RoundTrip.
Context (P : Platform).

Lemma parseAttribute_text fresh node key config c text :
  converter config = Some c ->
  getAttribute node (attribute_key (attributeName config) key) = Some text ->
  text <> "" ->
  parseAttribute P fresh node key (Config config) =
  convert P fresh node (attribute_key (attributeName config) key) c text.
Proof.
  intros Hc Ha Ht.
  rewrite (parseAttribute_config P fresh node key config c)
    by (apply explicit_converter_wins; exact Hc).
  cbn zeta. rewrite Ha. cbn [no_text default].
  destruct (String.eqb text "") eqn:E; [apply String.eqb_eq in E; contradiction|].
  reflexivity.
Qed.


End RoundTrip.



(** * Further properties of the attribute codec *)

Lemma JSON_parse_throws (text : string) (e : exn) :
  JSON_parse text = Throw e -> e = SyntaxError.
Proof.
  unfold JSON_parse. destruct (parse_value _ _) as [[j rest]|]; [|congruence].
  destruct (skip_ws rest); congruence.
Qed.

Lemma BigInt_of_string_throws (text : string) (e : exn) :
  BigInt_of_string text = Throw e -> e = SyntaxError.
Proof.
  unfold BigInt_of_string. destruct (skip_space text) as [|c s]; [discriminate|].
  destruct (radix_literal (String c s)) as [[v rest]|].
  - destruct (skip_space rest); congruence.
  - destruct (take_sign (String c s)) as [neg r].
    destruct (take_digits 0 0 r) as [[v len] rest].
    destruct (len =? 0); [congruence|].
    destruct (skip_space rest); congruence.
Qed.

Lemma no_text_false (text : string) : text <> "" -> no_text (Some text) = false.
Proof. intros H. simpl. apply String.eqb_neq. exact H. Qed.

Lemma no_text_cases (a : option string) :
  no_text a = false -> exists text, a = Some text /\ text <> "".
Proof.
  destruct a as [text|]; [|discriminate]. simpl. intros H.
  exists text. split; [reflexivity|]. apply String.eqb_neq. exact H.
Qed.

Section Decoding.
Context (P : Platform).

(** The decoding of a non-empty attribute text is the [switch]. *)
Lemma parseAttribute_present fresh node key config c text :
  resolve_converter (Config config) = Ok c ->
  getAttribute node (attribute_key (attributeName config) key) = Some text ->
  text <> "" ->
  parseAttribute P fresh node key (Config config) =
  convert P fresh node (attribute_key (attributeName config) key) c text.
Proof.
  intros Hc Ha Ht.
  rewrite (parseAttribute_config P fresh node key config c Hc).
  cbn zeta. rewrite Ha, (no_text_false text Ht). reflexivity.
Qed.

(** X1.  When the decoding of an attribute under a property definition
    throws, the attribute holds a non-empty text and the resolved converter
    is one of five: [JSON] (a [SyntaxError]; the text is not valid JSON and
    holds a backslash or a control character), [URL] (a [TypeError]; the
    platform rejects the text), [BigInt] (a [SyntaxError]), [Array] or
    [Object] and a class without a static [parse] (a [TypeError]), or a
    class whose [parse] throws on the text.  Under [Boolean], [Date],
    [String] and [Number] the decoding never throws, and it never throws
    when the attribute is absent or empty. *)
Theorem parseAttribute_error_cases fresh node key config c e :
  resolve_converter (Config config) = Ok c ->
  parseAttribute P fresh node key (Config config) = Throw e ->
  exists text,
    getAttribute node (attribute_key (attributeName config) key) = Some text /\
    text <> "" /\
    match c with
    | Ctor.JSON =>
      e = SyntaxError /\ JSON_parse text = Throw SyntaxError /\ clean text = false
    | Ctor.URL => e = TypeError /\ URL_new P text (location_origin P) = None
    | Ctor.BigInt => e = SyntaxError /\ BigInt_of_string text = Throw SyntaxError
    | Ctor.Array | Ctor.Object => e = TypeError
    | Ctor.Class id =>
      match class_parse P id with
      | Some parse => parse text = Throw e
      | None => e = TypeError
      end
    | Ctor.Boolean | Ctor.Date | Ctor.String | Ctor.Number => False
    end.
Proof.
  intros Hc H.
  rewrite (parseAttribute_config P fresh node key config c Hc) in H. cbn zeta in H.
  set (name := attribute_key (attributeName config) key) in *.
  destruct (no_text (getAttribute node name)) eqn:Hn.
  - destruct c; cbn [Ctor.eqb negb andb convert] in H; discriminate H.
  - destruct (no_text_cases _ Hn) as (text & Ha & Ht).
    exists text. split; [exact Ha|]. split; [exact Ht|].
    rewrite Ha in H. cbn [andb default] in H. unfold id in H.
    destruct c; cbn [convert] in H; try discriminate H.
    + destruct (JSON_parse text) as [j|e1] eqn:E1; [discriminate H|].
      pose proof (JSON_parse_throws _ _ E1) as ->.
      destruct (JSON_parse (quoted text)) as [j|e2] eqn:E2; [discriminate H|].
      cbn [bind] in H. injection H as <-.
      pose proof (JSON_parse_throws _ _ E2) as ->.
      split; [reflexivity|]. split; [reflexivity|].
      destruct (clean text) eqn:Ec; [|reflexivity].
      rewrite (fallback_reads_clean_text text Ec) in E2. discriminate E2.
    + destruct (URL_new P text (location_origin P)); [discriminate H|].
      injection H as <-. split; reflexivity.
    + destruct (BigInt_of_string text) as [z|e1] eqn:E1; [discriminate H|].
      cbn [bind] in H. injection H as <-.
      pose proof (BigInt_of_string_throws _ _ E1) as ->. split; reflexivity.
    + injection H as <-. reflexivity.
    + injection H as <-. reflexivity.
    + destruct (class_parse P id); [exact H|]. injection H as <-. reflexivity.
Qed.

(** X2.  The decoding depends on the host only through the text of the one
    attribute it looks up (the attribute the definition names, or else the
    attribute called like the property): two hosts that agree on it decode
    alike, whatever their other attributes and their properties, and when
    the definition names the attribute the name of the property does not
    matter. *)
Theorem parseAttribute_reads_one_attribute fresh node node' key key' config :
  getAttribute node (attribute_key (attributeName config) key) =
  getAttribute node' (attribute_key (attributeName config) key') ->
  parseAttribute P fresh node key (Config config) =
  parseAttribute P fresh node' key' (Config config).
Proof.
  intros H. destruct (resolve_converter_total config) as (c & Hc).
  rewrite !(parseAttribute_config P fresh _ _ config c Hc). cbn zeta.
  rewrite H.
  destruct (no_text _ && negb _); [reflexivity|].
  destruct c; cbn [convert]; try reflexivity.
  unfold hasAttribute. unfold getAttribute in H. rewrite H. reflexivity.
Qed.

Lemma not_a_value (c : ascii) (r : string) :
  starts_value c = false -> JSON_parse (String c r) = Throw SyntaxError.
Proof.
  intros H. unfold JSON_parse.
  replace (2 * String.length (String c r) + 2)%nat
    with (S (String.length r + S (String.length r + 0) + 2))%nat by (simpl; lia).
  destruct c as [[] [] [] [] [] [] [] []]; try discriminate H; reflexivity.
Qed.


(** X4.  A property whose converter is [String], named by the definition or
    resolved from a non-empty string default, decodes every non-empty
    attribute text to that very text, and an absent or empty attribute to
    the declared default; it never throws. *)
Theorem string_property_decodes_verbatim fresh node key config :
  converter config = Some Ctor.String \/
  (converter config = None /\ exists d, initial config = VStr d /\ d <> "") ->
  parseAttribute P fresh node key (Config config) =
  Ok (match getAttribute node (attribute_key (attributeName config) key) with
      | Some text => if String.eqb text "" then initial config else VStr text
      | None => initial config
      end).
Proof.
  intros H.
  assert (Hc : resolve_converter (Config config) = Ok Ctor.String).
  { rewrite resolve_converter_cases.
    destruct H as [->|(-> & d & -> & Hd)]; [reflexivity|].
    cbn [truthy constructor_of]. apply String.eqb_neq in Hd. rewrite Hd. reflexivity. }
  rewrite (parseAttribute_config P fresh node key config _ Hc). cbn zeta.
  destruct (getAttribute node _) as [text|]; cbn [no_text default Ctor.eqb negb andb];
    [|reflexivity].
  destruct (String.eqb text ""); reflexivity.
Qed.

End Decoding.

Lemma parseAttribute_error_cases_witness :
  exists text,
    getAttribute (element [] [("n", "12x")]) "n" = Some text /\ text <> "" /\
    SyntaxError = SyntaxError /\ BigInt_of_string text = Throw SyntaxError.
Proof.
  exact (parseAttribute_error_cases sample_platform 0 (element [] [("n", "12x")]) "n"
           (prop VNull None (Some Ctor.BigInt) None) Ctor.BigInt SyntaxError
           eq_refl eq_refl).
Defined.

Lemma parseAttribute_reads_one_attribute_witness :
  parseAttribute sample_platform 0
    (element [("a", num 1)] [("x", "[1]"); ("y", "2")]) "a"
    (Config (prop VNull (Some "x") None None)) =
  parseAttribute sample_platform 0 (element [] [("x", "[1]")]) "b"
    (Config (prop VNull (Some "x") None None)).
Proof.
  apply (parseAttribute_reads_one_attribute sample_platform 0
           (element [("a", num 1)] [("x", "[1]"); ("y", "2")])
           (element [] [("x", "[1]")]) "a" "b" (prop VNull (Some "x") None None)).
  reflexivity.
Defined.


Lemma string_property_decodes_verbatim_witness :
  parseAttribute sample_platform 0 (element [] [("title", "C:\dir")]) "title"
    (Config (prop (VStr "untitled") None None None)) = Ok (VStr "C:\dir").
Proof.
  apply (string_property_decodes_verbatim sample_platform 0
           (element [] [("title", "C:\dir")]) "title"
           (prop (VStr "untitled") None None None)).
  right. split; [reflexivity|]. exists "untitled". split; [reflexivity|discriminate].
Defined.

(** ** Integers as attribute texts *)

Lemma take_digits_print_natural (n : Z) :
  0 <= n -> exists d, 0 < d /\ take_digits 0 0 (print_natural n) = (n, d, "").
Proof.
  intros Hn. unfold print_natural.
  destruct (take_print_digits (Z.to_nat (Z.log2 n)) n "" 0 0
              ltac:(pose proof (natural_fuel n Hn); lia)) as (d & Hd & Ht).
  exists d. split; [exact Hd|]. rewrite Ht. reflexivity.
Qed.

(** [BigInt(String(z))] is [z] for every integer. *)
Lemma BigInt_of_print_Z (z : Z) : BigInt_of_string (print_Z z) = Ok z.
Proof.
  unfold print_Z. destruct (z <? 0) eqn:E.
  - apply Z.ltb_lt in E.
    destruct (take_digits_print_natural (- z) ltac:(lia)) as (d & Hd & Ht).
    destruct (print_natural_head (- z) ltac:(lia)) as (c & r & Hp & Hc).
    rewrite Hp in *. unfold BigInt_of_string. cbn [skip_space].
    replace (is_space "-") with false by reflexivity.
    replace (radix_literal (String "-" (String c r))) with (@None (Z * string))
      by reflexivity.
    cbn [take_sign]. replace (Ascii.eqb "-" "-") with true by reflexivity.
    rewrite Ht.
    replace (d =? 0) with false by (symmetry; apply Z.eqb_neq; lia).
    cbn [skip_space]. rewrite Z.opp_involutive. reflexivity.
  - apply Z.ltb_ge in E.
    destruct (take_digits_print_natural z E) as (d & Hd & Ht).
    pose proof (radix_literal_print_natural z E) as Hr.
    destruct (print_natural_head z E) as (c & r & Hp & Hc).
    destruct (digit_is_no_sign c Hc) as (Hs & H1 & H2 & _).
    rewrite Hp in *. unfold BigInt_of_string. cbn [skip_space]. rewrite Hs, Hr.
    cbn [take_sign]. rewrite H1, H2, Ht.
    replace (d =? 0) with false by (symmetry; apply Z.eqb_neq; lia).
    reflexivity.
Qed.

Section Integers.
Context (P : Platform).

(** X5.  Round trip of big integers: under the [BigInt] converter the
    decimal text of an integer, of any size, decodes to that integer. *)
Theorem bigint_decode_of_printed fresh node key config z :
  resolve_converter (Config config) = Ok Ctor.BigInt ->
  getAttribute node (attribute_key (attributeName config) key) = Some (print_Z z) ->
  parseAttribute P fresh node key (Config config) = Ok (VBigInt z).
Proof.
  intros Hc Ha.
  rewrite (parseAttribute_present P fresh node key config Ctor.BigInt _ Hc Ha)
    by apply print_Z_not_empty.
  cbn [convert]. rewrite BigInt_of_print_Z. reflexivity.
Qed.

(** X6.  Under the [Date] converter a text the platform does not read as a
    date, and which is the decimal text of an integer, decodes to the date
    with that time value (milliseconds since the epoch) when the integer is
    within the range of dates, 8.64e15 either side of zero, and to an
    invalid date outside it.  No exception arises. *)
Theorem date_of_epoch_milliseconds fresh node key config z :
  resolve_converter (Config config) = Ok Ctor.Date ->
  getAttribute node (attribute_key (attributeName config) key) = Some (print_Z z) ->
  Date_parse P (print_Z z) = None ->
  parseAttribute P fresh node key (Config config) =
  Ok (VObj fresh (ODate (if Z.abs z <=? 8640000000000000 then Some z else None))).
Proof.
  intros Hc Ha Hd.
  rewrite (parseAttribute_present P fresh node key config Ctor.Date _ Hc Ha)
    by apply print_Z_not_empty.
  cbn [convert]. rewrite Hd, Number_of_print_Z. reflexivity.
Qed.

End Integers.

Lemma bigint_decode_of_printed_witness :
  parseAttribute sample_platform 0
    (element [] [("id", print_Z (-123456789012345678901234567890))]) "id"
    (Config (prop (VBigInt 1) None None None))
  = Ok (VBigInt (-123456789012345678901234567890)).
Proof.
  apply (bigint_decode_of_printed sample_platform 0
           (element [] [("id", print_Z (-123456789012345678901234567890))]) "id"
           (prop (VBigInt 1) None None None) (-123456789012345678901234567890));
    reflexivity.
Defined.

Lemma date_of_epoch_milliseconds_witness :
  parseAttribute sample_platform 7
    (element [] [("since", print_Z 1551781230000)]) "since"
    (Config (prop VNull None (Some Ctor.Date) None))
  = Ok (VObj 7 (ODate (Some 1551781230000))).
Proof.
  apply (date_of_epoch_milliseconds sample_platform 7
           (element [] [("since", print_Z 1551781230000)]) "since"
           (prop VNull None (Some Ctor.Date) None) 1551781230000);
    reflexivity.
Defined.

(** * Further properties of the seeding *)

Section MoreSeeding.
Context (P : Platform).



(** X9.  The two revisions of the seeding agree wherever the attribute
    cannot matter: when every property of the schema either already
    resolves on the host, or has an absent or empty attribute and a
    resolved converter other than [Boolean], the table is the one the
    earlier revision builds (the existing value, else the declared
    default). *)
Theorem seeding_extends_earlier_revision fresh base props :
  Forall (fun e =>
            is_Some (properties base !! e.1) \/
            (no_text (getAttribute base (attribute_key (attributeName e.2) e.1)) = true /\
             resolve_converter (Config e.2) <> Ok Ctor.Boolean)) props ->
  createPropertiesDescriptors P fresh base props =
  Ok (Earlier.createPropertiesDescriptors base props).
Proof.
  intros H. revert fresh. induction H as [|[key config] rest Hx HF IH]; intros fresh.
  - reflexivity.
  - cbn [createPropertiesDescriptors]. unfold Earlier.createPropertiesDescriptors.
    cbn [map fst snd]. fold (Earlier.createPropertiesDescriptors base rest).
    assert (Hs : seed P fresh base key config = Ok (Earlier.seed base key config)).
    { unfold seed, Earlier.seed. simpl in Hx.
      destruct (properties base !! key) as [v|] eqn:Hv; [reflexivity|].
      destruct Hx as [[v Hx]|[Hn Hb]]; [discriminate Hx|].
      destruct (resolve_converter_total config) as (c & Hc).
      rewrite (parseAttribute_config P fresh base key config c Hc). cbn zeta.
      rewrite Hn. destruct c; try reflexivity. congruence. }
    rewrite Hs. cbn [bind]. rewrite IH. reflexivity.
Qed.

End MoreSeeding.


Lemma seeding_extends_earlier_revision_witness :
  createPropertiesDescriptors sample_platform 0
    (element [("a", num 1)] [("a", "5"); ("b", "")])
    [("a", prop (num 0) None None None); ("b", prop (VStr "x") None None None);
     ("c", voidProp Ctor.Number None None None)]
  = Ok [("a", (num 1, prop (num 0) None None None));
        ("b", (VStr "x", prop (VStr "x") None None None));
        ("c", (VUndefined, voidProp Ctor.Number None None None))].
Proof.
  apply (seeding_extends_earlier_revision sample_platform 0
           (element [("a", num 1)] [("a", "5"); ("b", "")])
           [("a", prop (num 0) None None None); ("b", prop (VStr "x") None None None);
            ("c", voidProp Ctor.Number None None None)]).
  constructor; [left; eexists; reflexivity|].
  constructor; [right; split; [reflexivity|discriminate]|].
  constructor; [right; split; [reflexivity|discriminate]|].
  constructor.
Defined.

(** * Further properties of the host *)

Lemma assign_definitions (key : string) (v cur : value) (config : PropertyConfig)
    (l : Setters) :
  assoc key l = Some (cur, config) ->
  map (fun e => (e.1, e.2.2)) (assign key (v, config) l) = map (fun e => (e.1, e.2.2)) l.
Proof.
  induction l as [|[k [b c]] l IH]; intros H; [reflexivity|].
  simpl in *. destruct (String.eqb k key).
  - injection H as _ ->. reflexivity.
  - simpl. f_equal. apply IH. exact H.
Qed.

Lemma assoc_cells (key : string) (cur : value) (config : PropertyConfig) (l : Setters) :
  assoc key l = Some (cur, config) -> assoc key (cells l) = Some cur.
Proof.
  induction l as [|[k [b c]] l IH]; intros H; [discriminate H|].
  simpl in *. destruct (String.eqb k key); [congruence|]. apply IH. exact H.
Qed.

Lemma assoc_cells_none (key : string) (l : Setters) :
  assoc key l = None -> assoc key (cells l) = None.
Proof.
  induction l as [|[k [b c]] l IH]; intros H; [reflexivity|].
  simpl in *. destruct (String.eqb k key); [discriminate H|]. apply IH. exact H.
Qed.

Lemma cells_assign (key : string) (v : value) (config : PropertyConfig) (l : Setters) :
  cells (assign key (v, config) l) = assign key v (cells l).
Proof.
  induction l as [|[k [b c]] l IH]; [reflexivity|].
  simpl. destruct (String.eqb k key); simpl; [reflexivity|]. f_equal. exact IH.
Qed.

Section MoreHostFacts.
Context (P : Platform) {T : Type}.

Local Abbreviation State := (@State T).
Local Abbreviation subscriber := (@subscriber T).
Local Abbreviation event := (@event T).
Local Abbreviation observable := (@observable T).

(** What a write to a cell does to the table and to the node. *)
Lemma next_setters (st : State) key cur config v :
  assoc key (setters st) = Some (cur, config) ->
  setters (next st key v) = assign key (v, config) (setters st) /\
  node (next st key v) = node st.
Proof. intros Hc. unfold next. rewrite Hc. split; reflexivity. Qed.

Lemma next_unknown (st : State) key v :
  assoc key (setters st) = None -> next st key v = st.
Proof. intros Hc. unfold next. rewrite Hc. reflexivity. Qed.

Lemma definitions_next (st : State) key v :
  map (fun e => (e.1, e.2.2)) (setters (next st key v)) =
  map (fun e => (e.1, e.2.2)) (setters st).
Proof.
  destruct (assoc key (setters st)) as [[cur config]|] eqn:Hc.
  - destruct (next_setters st key cur config v Hc) as [-> _].
    eapply assign_definitions. exact Hc.
  - rewrite next_unknown by exact Hc. reflexivity.
Qed.

Lemma definitions_step (st : State) (e : event) :
  map (fun e => (e.1, e.2.2)) (setters (step P st e)) =
  map (fun e => (e.1, e.2.2)) (setters st).
Proof.
  destruct e; simpl; try reflexivity.
  - destruct (connected_fields st) as (new & _ & _ & _ & _ & _ & -> & _). reflexivity.
  - unfold attributeChanged. cbn [or_else].
    destruct (assoc attr (setters st)); [|reflexivity].
    destruct (parseAttribute P (heap st) (node st) attr (Plain newValue)); [|reflexivity].
    rewrite definitions_next. reflexivity.
  - unfold set_property. destruct (assoc key (setters st)); [|reflexivity].
    apply definitions_next.
  - destruct (attach_fields false st (Tapped src spy)) as (_ & _ & _ & _ & -> & _).
    reflexivity.
Qed.

Lemma definitions_run (es : list event) (st : State) :
  map (fun e => (e.1, e.2.2)) (setters (run P st es)) =
  map (fun e => (e.1, e.2.2)) (setters st).
Proof.
  revert st. induction es as [|e es IH]; intros st; [reflexivity|].
  simpl. rewrite IH. apply definitions_step.
Qed.

Lemma createPropertiesDescriptors_definitions fresh base props setters :
  createPropertiesDescriptors P fresh base props = Ok setters ->
  map (fun e => (e.1, e.2.2)) setters = props.
Proof.
  revert fresh setters. induction props as [|[k c] rest IH]; intros fresh setters H.
  - injection H as <-. reflexivity.
  - cbn [createPropertiesDescriptors] in H.
    destruct (seed P fresh base k c); [|discriminate]. cbn [bind] in H.
    destruct (createPropertiesDescriptors P (S fresh) base rest) eqn:Hr; [|discriminate].
    cbn [bind] in H. injection H as <-. simpl. f_equal. eapply IH. exact Hr.
Qed.

Lemma create_definitions fresh n props (st : State) :
  create P fresh n props = Ok st -> map (fun e => (e.1, e.2.2)) (setters st) = props.
Proof.
  unfold create.
  destruct (createPropertiesDescriptors P fresh n props) eqn:H; [|discriminate].
  simpl. intros E. injection E as <-. simpl.
  eapply createPropertiesDescriptors_definitions. exact H.
Qed.

(** X10.  The table of cells is frozen: in every state the host reaches
    after [create], whatever is written, connected or registered, the table
    holds one entry per property of the schema, in schema order, with the
    definition the schema gave it. *)
Theorem definitions_are_frozen fresh n props (st0 : State) (es : list event) :
  create P fresh n props = Ok st0 ->
  map (fun e => (e.1, e.2.2)) (setters (run P st0 es)) = props.
Proof.
  intros H. rewrite definitions_run. eapply create_definitions. exact H.
Qed.

(** X11.  Reading after writing: after [node[key] = v], reading [key] gives
    [v] (the very value, also for [NaN] and for an object), and every other
    name reads as before; this holds for the properties of the schema,
    which go through their cell, and for any other name, which is an
    ordinary property of the node. *)
Theorem property_read_after_write (st : State) key key' v :
  get (step P st (SetProperty key v)) key' =
  if String.eqb key' key then v else get st key'.
Proof.
  cbn [step]. unfold set_property.
  destruct (assoc key (setters st)) as [[cur config]|] eqn:Hc.
  - unfold get. destruct (next_setters st key cur config v Hc) as [-> ->].
    destruct (String.eqb_spec key' key) as [->|Hne].
    + rewrite (assoc_assign_same _ _ _ _ Hc). reflexivity.
    + rewrite assoc_assign_other by exact Hne. reflexivity.
  - unfold get. cbn [setters node properties].
    destruct (String.eqb_spec key' key) as [->|Hne].
    + rewrite Hc, lookup_insert_eq. reflexivity.
    + rewrite lookup_insert_ne by congruence. reflexivity.
Qed.

Lemma get_ext (a b : State) key :
  setters a = setters b -> properties (node a) = properties (node b) ->
  get a key = get b key.
Proof. intros H1 H2. unfold get. rewrite H1, H2. reflexivity. Qed.

Lemma values_step (st : State) (e : event) :
  writes e = false ->
  setters (step P st e) = setters st /\
  properties (node (step P st e)) = properties (node st).
Proof.
  destruct e; intros H; try discriminate H; cbn [step]; try (split; reflexivity).
  - destruct (connected_fields st) as (new & _ & _ & _ & _ & _ & Hs & Hn & _).
    rewrite Hs, Hn. split; reflexivity.
  - destruct (attach_fields false st (Tapped src spy)) as (_ & _ & _ & _ & Hs & _ & Hn & _).
    rewrite Hs, Hn. split; reflexivity.
Qed.

(** X12.  The values of the properties belong to the cells, not to the
    subscriptions: connecting, disconnecting, registering observables and
    templates, [update()], emissions of other subjects and changes of the
    node's attributes that are not announced by an [attributeChanged] event
    leave every property reading as before, across any number of
    connect/disconnect cycles. *)
Theorem values_survive_lifecycle (st : State) (es : list event) key :
  forallb (fun e => negb (writes e)) es = true ->
  get (run P st es) key = get st key.
Proof.
  revert st. induction es as [|e es IH]; intros st H; [reflexivity|].
  simpl in H. apply andb_prop in H as [He Hes]. apply negb_true_iff in He.
  change (run P st (e :: es)) with (run P (step P st e) es).
  rewrite IH by exact Hes.
  destruct (values_step st e He) as [H1 H2]. apply get_ext; assumption.
Qed.

End MoreHostFacts.

Lemma definitions_are_frozen_witness :
  map (fun e => (e.1, e.2.2))
    (setters (run sample_platform abc_host
                [SetProperty "a" (num 7); UseTemplate show_a; Connected;
                 AttributeChanged "b" (VStr "5"); Disconnected]))
  = abc_schema.
Proof.
  exact (definitions_are_frozen sample_platform 0 abc_element abc_schema abc_host
           [SetProperty "a" (num 7); UseTemplate show_a; Connected;
            AttributeChanged "b" (VStr "5"); Disconnected] eq_refl).
Defined.

Lemma values_survive_lifecycle_witness :
  get (run sample_platform abc_host
         [UseTemplate show_a; Connected; Update; SetAttribute "a" (Some "9");
          Disconnected; Connected]) "a" = num 1.
Proof.
  exact (values_survive_lifecycle sample_platform abc_host
           [UseTemplate show_a; Connected; Update; SetAttribute "a" (Some "9");
            Disconnected; Connected] "a" eq_refl).
Defined.

(** ** What a subscription to the change stream is handed at once *)

Section Replay.
Context (P : Platform) {T : Type}.

Local Abbreviation State := (@State T).
Local Abbreviation subscriber := (@subscriber T).
Local Abbreviation event := (@event T).
Local Abbreviation observable := (@observable T).

Lemma subscribe_to_ext (a b : State) (o : observable) by_connect :
  setters a = setters b -> node a = node b ->
  subscribe_to a o by_connect = subscribe_to b o by_connect.
Proof.
  intros H1 H2. unfold subscribe_to. rewrite H1.
  destruct (listens_to_properties o); [|reflexivity].
  f_equal. apply flat_map_ext. intros e. apply deliver_ext; assumption.
Qed.

Lemma subscribe_all_log (os : list observable) : forall (st st' : State) handles,
  subscribe_all st os = (st', handles) ->
  log st' = log st ++ flat_map (fun o => (subscribe_to st o true).2) os.
Proof.
  induction os as [|o os IH]; intros st st' handles Hsub.
  - simpl in Hsub. injection Hsub as <- _. simpl. rewrite app_nil_r. reflexivity.
  - simpl in Hsub.
    destruct (subscribe_all (attach true st o) os) as [st1 hs] eqn:Hrec.
    injection Hsub as <- _.
    rewrite (IH _ _ _ Hrec).
    destruct (attach_fields true st o) as (_ & Alog & _ & _ & Ac & _ & An & _).
    rewrite Alog. cbn [flat_map]. rewrite <- app_assoc. f_equal. f_equal.
    apply flat_map_ext. intros o'.
    rewrite (subscribe_to_ext (attach true st o) st) by assumption. reflexivity.
Qed.

Lemma replay_without_effects (l : Setters) :
  Forall (fun e => effects e.2.2 = None) l ->
  (getPropertyChangeListener_subscribe l).2 = map (fun e => Changed e.1 e.2.1) l.
Proof.
  unfold getPropertyChangeListener_subscribe. cbn [snd].
  induction 1 as [|[k [v c]] l He HF IH]; [reflexivity|].
  cbn [flat_map map]. rewrite IH. unfold change_events. cbn [fst snd] in *.
  rewrite He. reflexivity.
Qed.

Lemma concat_repeat_flat_map {A B} (x : list B) (l : list A) :
  flat_map (fun _ => x) l = List.concat (repeat x (List.length l)).
Proof. induction l as [|a l IH]; [reflexivity|]. simpl. rewrite IH. reflexivity. Qed.

Lemma tap_calls (st : State) src spy (es : list emission) :
  flat_map (deliver st (Tapped src spy)) es = map (SpyCall spy) es.
Proof. induction es as [|e es IH]; [reflexivity|]. simpl. rewrite IH. reflexivity. Qed.

Lemma template_calls (st : State) t (es : list emission) :
  flat_map (deliver st (Templated t)) es =
  List.concat (repeat (render_calls st t) (List.length es)).
Proof.
  rewrite <- concat_repeat_flat_map.
  induction es as [|e es IH]; [reflexivity|]. simpl. rewrite IH. reflexivity.
Qed.

(** X13.  On a [connected] signal every registered observable is
    subscribed in registration order, and each one that observes the change
    stream is handed at once, before the listener returns, one change per
    property in schema order, carrying the value the property holds at that
    moment (passed through the effect pipeline of the property, if any);
    an observable of a plain subject is handed nothing.  A subscription the
    caller makes to the change stream itself is handed the same changes.
    So, without effect pipelines, a registered tap on the change stream is
    called once per property with [[name, current value]], and a template
    is rendered once per property of the schema, each time with the full
    snapshot; with an empty schema it is not rendered. *)
Theorem connect_replays_current_values (st : State) :
  log (step P st Connected) =
    log st ++
    flat_map (fun o => if listens_to_properties o
                       then flat_map (deliver st o)
                              (getPropertyChangeListener_subscribe (setters st)).2
                       else [])
      (registeredObservables st) /\
  (forall spy,
      log (step P st (Attach PropertyChanged spy)) =
      log st ++ map (SpyCall spy) (getPropertyChangeListener_subscribe (setters st)).2) /\
  (Forall (fun e => effects e.2.2 = None) (setters st) ->
   (forall spy, registeredObservables st = [Tapped PropertyChanged spy] ->
      log (step P st Connected) =
      log st ++ map (fun e => SpyCall spy (Changed e.1 e.2.1)) (setters st)) /\
   (forall t, registeredObservables st = [Templated t] ->
      log (step P st Connected) =
      log st ++ List.concat (repeat (render_calls st t) (List.length (setters st))))).
Proof.
  assert (Hlog : log (step P st Connected) =
    log st ++
    flat_map (fun o => if listens_to_properties o
                       then flat_map (deliver st o)
                              (getPropertyChangeListener_subscribe (setters st)).2
                       else [])
      (registeredObservables st)).
  { cbn [step]. unfold connected.
    destruct (subscribe_all st (registeredObservables st)) as [st' handles] eqn:Hsub.
    cbn [log]. rewrite (subscribe_all_log _ _ _ _ Hsub). f_equal.
    apply flat_map_ext. intros o. unfold subscribe_to.
    destruct (listens_to_properties o); reflexivity. }
  split; [exact Hlog|]. split.
  { intros spy. cbn [step].
    destruct (attach_fields false st (Tapped PropertyChanged spy)) as (_ & -> & _).
    unfold subscribe_to. cbn [listens_to_properties snd]. rewrite tap_calls. reflexivity. }
  intros He. split.
  - intros spy Hr. rewrite Hlog, Hr. cbn [flat_map listens_to_properties].
    rewrite app_nil_r, (replay_without_effects _ He), tap_calls, map_map. reflexivity.
  - intros t Hr. rewrite Hlog, Hr. cbn [flat_map listens_to_properties].
    rewrite app_nil_r, (replay_without_effects _ He), template_calls, length_map.
    reflexivity.
Qed.

End Replay.

Lemma connect_replays_current_values_witness :
  log (run sample_platform abc_host [SetProperty "b" (num 20); UseTemplate show_a; Connected])
  = [TemplateCall [("a", num 1); ("b", num 20); ("c", num 3)]; RendererCall "1" HostNode;
     TemplateCall [("a", num 1); ("b", num 20); ("c", num 3)]; RendererCall "1" HostNode;
     TemplateCall [("a", num 1); ("b", num 20); ("c", num 3)]; RendererCall "1" HostNode].
Proof.
  exact (proj2 (proj2 (proj2 (connect_replays_current_values sample_platform
                                (run sample_platform abc_host
                                   [SetProperty "b" (num 20); UseTemplate show_a])))
                  ltac:(repeat constructor))
           show_a eq_refl).
Defined.

(** ** Registration and the next connect *)

Section Registry.
Context (P : Platform) {T : Type}.

Local Abbreviation State := (@State T).
Local Abbreviation subscriber := (@subscriber T).
Local Abbreviation event := (@event T).
Local Abbreviation observable := (@observable T).

Lemma receive_ext (a b : State) name config v (s : subscriber) :
  setters a = setters b -> node a = node b ->
  receive a name config v s = receive b name config v s.
Proof.
  intros H1 H2. unfold receive.
  destruct (listens_to_properties (observed s)); [|reflexivity].
  f_equal. apply flat_map_ext. intros e. apply deliver_ext; assumption.
Qed.

Lemma notify_ext (f g : subscriber -> subscriber * list (@call T))
    (l : list (nat * subscriber)) :
  (forall s, f s = g s) -> notify f l = notify g l.
Proof.
  intros H. unfold notify.
  f_equal; [apply map_ext|apply flat_map_ext]; intros e; rewrite H; reflexivity.
Qed.

Lemma next_ignores_registry (a b : State) key v :
  alike a b -> alike (next a key v) (next b key v).
Proof.
  unfold alike. intros (Hn & Hs & Hsub & Hl & Hid & Hh & Hlog). unfold next. rewrite Hs.
  destruct (assoc key (setters b)) as [[cur config]|]; [|repeat split; assumption].
  cbv zeta.
  match goal with
  | |- context [notify (receive ?A key config v) (live a)] =>
    match goal with
    | |- context [notify (receive ?B key config v) (live b)] =>
      rewrite (notify_ext (receive A key config v) (receive B key config v))
        by (intros s; apply receive_ext; [reflexivity|exact Hn])
    end
  end.
  rewrite Hl. destruct (notify _ (live b)) as [observers calls].
  cbn [node setters subscriptions live next_id heap log].
  repeat split; congruence.
Qed.

Lemma step_ignores_registry (a b : State) (e : event) :
  connects e = false -> alike a b -> alike (step P a e) (step P b e).
Proof.
  intros Hc Hab. pose proof Hab as (Hn & Hs & Hsub & Hl & Hid & Hh & Hlog).
  destruct e; try discriminate Hc; cbn [step]; unfold alike.
  - unfold disconnected. cbn [node setters subscriptions live next_id heap log].
    repeat split; congruence.
  - unfold attributeChanged. cbn [or_else]. rewrite Hs, Hh, Hn.
    destruct (assoc attr (setters b)); [|exact Hab].
    destruct (parseAttribute P (heap b) (node b) attr (Plain newValue)).
    + apply next_ignores_registry. unfold alike.
      cbn [node setters subscriptions live next_id heap log]. repeat split; congruence.
    + cbn [node setters subscriptions live next_id heap log]. repeat split; congruence.
  - unfold set_property. rewrite Hs.
    destruct (assoc key (setters b)); [apply next_ignores_registry; exact Hab|].
    cbn [node setters subscriptions live next_id heap log]. repeat split; congruence.
  - unfold update. cbn [node setters subscriptions live next_id heap log].
    repeat split; try congruence. rewrite Hlog, Hl. f_equal.
    apply flat_map_ext. intros x. destruct (listens_to_update _); [|reflexivity].
    apply deliver_ext; assumption.
  - unfold subscribe. cbn [node setters subscriptions live next_id heap log].
    repeat split; congruence.
  - unfold useTemplate, subscribe. cbn [node setters subscriptions live next_id heap log].
    repeat split; congruence.
  - unfold subject_next. cbn [node setters subscriptions live next_id heap log].
    repeat split; try congruence. rewrite Hlog, Hl. f_equal.
    apply flat_map_ext. intros x. destruct (listens_to_subject _ _); [|reflexivity].
    apply deliver_ext; assumption.
  - destruct (attach_fields false a (Tapped src spy))
      as (Al & Alog & Aid & As & Ac & _ & An & Ah).
    destruct (attach_fields false b (Tapped src spy))
      as (Bl & Blog & Bid & Bs & Bc & _ & Bn & Bh).
    rewrite (subscribe_to_ext a b) in Al, Alog by assumption.
    repeat split; congruence.
  - unfold detach. cbn [node setters subscriptions live next_id heap log].
    repeat split; congruence.
  - unfold set_attribute. cbn [node setters subscriptions live next_id heap log].
    rewrite Hn. repeat split; congruence.
Qed.

Lemma run_ignores_registry (es : list event) : forall a b : State,
  forallb (fun e => negb (connects e)) es = true ->
  alike a b -> alike (run P a es) (run P b es).
Proof.
  induction es as [|e es IH]; intros a b H Hab; [exact Hab|].
  simpl in H. apply andb_prop in H as [He Hes]. apply negb_true_iff in He.
  change (run P a (e :: es)) with (run P (step P a e) es).
  change (run P b (e :: es)) with (run P (step P b e) es).
  apply IH; [exact Hes|]. apply step_ignores_registry; assumption.
Qed.

(** X14.  [subscribe(...)] and [useTemplate(...)] only add to the registry:
    as long as no [connected] signal follows, the host behaves as if they
    had not been called (the same calls of spies, templates and renderer,
    the same live subscriptions and recorded handles, the same values),
    also when the node is connected already.  The next [connected] signal
    subscribes what was registered. *)
Theorem registration_waits_for_connect (st : State) (os : list observable)
    (es : list event) :
  forallb (fun e => negb (connects e)) es = true ->
  let a := run P (step P st (Subscribe os)) es in
  let b := run P st es in
  log a = log b /\ live a = live b /\ subscriptions a = subscriptions b /\
  setters a = setters b /\ node a = node b /\
  (forall t, step P st (UseTemplate t) = step P st (Subscribe [Templated t])) /\
  (forall o, In o os -> live_scoped o (step P a Connected)).
Proof.
  intros H a b.
  assert (Hab : alike a b).
  { apply run_ignores_registry; [exact H|]. cbn [step]. unfold subscribe, alike.
    cbn [node setters subscriptions live next_id heap log]. repeat split. }
  destruct Hab as (Hn & Hs & Hsub & Hl & _ & _ & Hlog).
  split; [exact Hlog|]. split; [exact Hl|]. split; [exact Hsub|].
  split; [exact Hs|]. split; [exact Hn|]. split; [reflexivity|].
  intros o Ho. cbn [step]. apply connected_makes_live.
  apply registered_run. cbn [step]. unfold subscribe. cbn [registeredObservables].
  apply in_or_app. right. exact Ho.
Qed.

End Registry.

Lemma registration_waits_for_connect_witness :
  log (run sample_platform abc_host
         [Connected; UseTemplate show_a; SetProperty "a" (num 5); Update]) = [] /\
  live_scoped (Templated show_a)
    (run sample_platform abc_host
       [Connected; UseTemplate show_a; SetProperty "a" (num 5); Update; Connected]).
Proof.
  pose proof (registration_waits_for_connect sample_platform
                (run sample_platform abc_host [Connected]) [Templated show_a]
                [SetProperty "a" (num 5); Update] eq_refl) as H.
  cbv zeta in H. destruct H as (Hlog & _ & _ & _ & _ & _ & Hnext).
  split; [exact Hlog|]. apply (Hnext (Templated show_a)). left. reflexivity.
Defined.

(** ** Writes to several properties *)

Lemma assoc_In {A} (key : string) (a : A) (l : list (string * A)) :
  assoc key l = Some a -> In (key, a) l.
Proof.
  induction l as [|[k b] l IH]; intros H; [discriminate H|].
  simpl in H. destruct (String.eqb_spec k key) as [->|Hne].
  - injection H as ->. left. reflexivity.
  - right. apply IH. exact H.
Qed.

Lemma effects_of_definitions (l : Setters) :
  Forall (fun e => effects e.2 = None) (map (fun e => (e.1, e.2.2)) l) ->
  Forall (fun e => effects e.2.2 = None) l.
Proof. intros H. apply Forall_map in H. exact H. Qed.

Section Merge.
Context (P : Platform) {T : Type}.

Local Abbreviation State := (@State T).
Local Abbreviation subscriber := (@subscriber T).
Local Abbreviation event := (@event T).

(** A sequence of writes, seen by the only subscriber. *)
Lemma assignments_seen_by_tap spy (ws : list (string * value)) : forall (st : State) i s,
  invariant st ->
  live st = [(i, s)] -> observed s = Tapped PropertyChanged spy ->
  Forall (fun e => effects e.2 = None) (map (fun e => (e.1, e.2.2)) (setters st)) ->
  spy_args spy (log (run P st (assignments ws))) =
  spy_args spy (log st) ++
  map (fun w => Changed w.1 w.2) (passing (cells (setters st)) ws).
Proof.
  induction ws as [|[k w] ws IH]; intros st i s I Hl Ho He.
  - simpl. rewrite app_nil_r. reflexivity.
  - change (run P st (assignments ((k, w) :: ws)))
      with (run P (step P st (SetProperty k w)) (assignments ws)).
    cbn [passing].
    destruct (assoc k (setters st)) as [[cur cfg]|] eqn:Hc.
    + assert (Hstep : step P st (SetProperty k w) = next st k w).
      { simpl. unfold set_property. rewrite Hc. reflexivity. }
      rewrite Hstep, (assoc_cells _ _ _ _ Hc).
      destruct (next_log st k cur cfg w I Hc) as (Hs & _ & Hlog).
      destruct (next_frame st k w) as (_ & _ & _ & _ & g & Hlive & Hg).
      rewrite Hl in Hlive, Hlog. simpl in Hlive, Hlog.
      destruct (Hg s) as (Hgo & _ & _).
      assert (Hcfg : effects cfg = None).
      { pose proof (effects_of_definitions _ He) as HF.
        rewrite List.Forall_forall in HF.
        apply (HF (k, (cur, cfg))). apply assoc_In. exact Hc. }
      rewrite (IH (next st k w) i (g s)).
      * rewrite Hlog, app_nil_r, spy_args_app, <- app_assoc, Hs, cells_assign. f_equal.
        unfold change_calls. rewrite Ho. cbn [listens_to_properties andb].
        destruct (strict_eq cur w); [reflexivity|].
        unfold change_events. rewrite Hcfg. simpl. rewrite Nat.eqb_refl. reflexivity.
      * apply invariant_next. exact I.
      * exact Hlive.
      * congruence.
      * rewrite definitions_next. exact He.
    + rewrite (assoc_cells_none _ _ Hc).
      assert (I' : invariant (step P st (SetProperty k w))) by (apply invariant_step; exact I).
      rewrite (IH (step P st (SetProperty k w)) i s I').
      * simpl. unfold set_property. rewrite Hc. reflexivity.
      * simpl. unfold set_property. rewrite Hc. exact Hl.
      * exact Ho.
      * rewrite definitions_step. exact He.
Qed.

(** X15.  Changes are told apart per property.  A subscriber that attaches
    to the change stream right after [create] is handed, of a sequence of
    writes to any properties of a schema without effect pipelines, exactly
    the writes whose value is not strictly equal to the value written last
    to the same property (the seed, for the first); writes to other
    properties in between do not matter, and a write to a name outside the
    schema is never a change. *)
Theorem changes_are_told_apart_per_property fresh n props (st0 : State) spy
    (ws : list (string * value)) :
  create P fresh n props = Ok st0 ->
  Forall (fun e => effects e.2 = None) props ->
  let attached := step P st0 (Attach PropertyChanged spy) in
  spy_args spy (log (run P attached (assignments ws))) =
  spy_args spy (log attached) ++
  map (fun w => Changed w.1 w.2) (passing (cells (setters st0)) ws).
Proof.
  intros Hcreate He attached.
  destruct (create_fields P _ _ _ _ Hcreate) as (Hl & _ & _ & _).
  destruct (attach_fields false st0 (Tapped PropertyChanged spy))
    as (Al & _ & _ & _ & As & _).
  destruct (subscribe_to_fields st0 (Tapped PropertyChanged spy) false) as (So & _ & _).
  rewrite Hl in Al. simpl in Al.
  assert (I : invariant attached).
  { apply invariant_step. eapply invariant_create. exact Hcreate. }
  rewrite (assignments_seen_by_tap spy ws attached _ _ I Al So).
  - unfold attached. cbn [step]. rewrite As. reflexivity.
  - unfold attached. rewrite definitions_step, (create_definitions P _ _ _ _ Hcreate).
    exact He.
Qed.

End Merge.

Lemma changes_are_told_apart_per_property_witness :
  spy_args 0
    (log (run sample_platform (step sample_platform abc_host (Attach PropertyChanged 0))
            (assignments [("a", num 5); ("b", num 2); ("a", num 5); ("zoom", num 1);
                          ("b", num 6); ("a", num 1)])))
  = spy_args 0 (log (step sample_platform abc_host (Attach PropertyChanged 0))) ++
    [Changed "a" (num 5); Changed "b" (num 6); Changed "a" (num 1)].
Proof.
  apply (changes_are_told_apart_per_property sample_platform 0 abc_element abc_schema
           abc_host 0
           [("a", num 5); ("b", num 2); ("a", num 5); ("zoom", num 1);
            ("b", num 6); ("a", num 1)] eq_refl).
  repeat constructor.
Defined.

(** ** The [attributeChanged] listener *)

Section Listener.
Context (P : Platform) {T : Type}.

Local Abbreviation State := (@State T).
Local Abbreviation event := (@event T).

Lemma parseAttribute_undefined fresh (node : Element) key :
  no_text (getAttribute node key) = true ->
  parseAttribute P fresh node key (Config (prop VUndefined None None None)) = Ok VUndefined.
Proof.
  intros H.
  rewrite (parseAttribute_config P fresh node key (prop VUndefined None None None)
             Ctor.JSON eq_refl).
  cbn zeta. cbn [attributeName prop attribute_key]. rewrite H. reflexivity.
Qed.


End Listener.


(** * The spies of the tests

    The callback a spy may be given runs after the call is recorded and
    has no part in what is recorded. *)

Lemma last_snoc_some {A} (l : list A) (a : A) :
  List.last (map Some (l ++ [a])) None = Some a.
Proof. rewrite map_app. simpl. apply last_last. Qed.

Lemma every_strict_eq_spec (stored : list value) (args : list value) : forall i : nat,
  Spy.every_strict_eq i args (Some stored) =
  Ok (forallb (fun p => strict_eq p.2 (nth p.1 stored VUndefined))
        (combine (seq i (List.length args)) args)).
Proof.
  induction args as [|arg rest IH]; intros i; [reflexivity|].
  cbn [Spy.every_strict_eq List.length seq combine forallb fst snd].
  destruct (strict_eq arg (nth i stored VUndefined)); [apply IH|reflexivity].
Qed.

Lemma every_strict_eq_prefix (more : list value) (args : list value) : forall front : list value,
  forallb (fun v => strict_eq v v) args = true ->
  Spy.every_strict_eq (List.length front) args (Some (front ++ args ++ more)) = Ok true.
Proof.
  induction args as [|arg rest IH]; intros front H; [reflexivity|].
  simpl in H. apply andb_prop in H as [Ha Hr].
  cbn [Spy.every_strict_eq].
  replace (nth (List.length front) (front ++ (arg :: rest) ++ more) VUndefined) with arg.
  - rewrite Ha.
    replace (front ++ (arg :: rest) ++ more) with ((front ++ [arg]) ++ rest ++ more)
      by (rewrite <- app_assoc; reflexivity).
    replace (S (List.length front)) with (List.length (front ++ [arg]))
      by (rewrite length_app; simpl; lia).
    apply IH. exact Hr.
  - rewrite app_nth2 by lia. rewrite Nat.sub_diag. reflexivity.
Qed.

(** X17.  A spy records every call: after a call with [args] the count of
    calls is one more, [called] is true, the last call and the call at the
    index of the former count are [args], the calls before it are as they
    were, and the recorded calls are the former ones followed by [args];
    two calls with equal arguments are two calls.  [resetSpy] forgets all
    of them, and a fresh spy has recorded nothing. *)
Theorem spy_records_every_call (calls : Spy.t) (args : list value) :
  let calls' := Spy.call calls args in
  Spy.calledTimes calls' = S (Spy.calledTimes calls) /\
  Spy.called calls' = true /\
  Spy.lastCalledWith calls' = Some args /\
  Spy.nthCallArgs calls' (Spy.calledTimes calls) = Some args /\
  (forall n, (n < Spy.calledTimes calls)%nat ->
             Spy.nthCallArgs calls' n = Spy.nthCallArgs calls n) /\
  Spy.calledWith calls' = Spy.calledWith calls ++ [args] /\
  Spy.calledTimes (Spy.call calls' args) = S (S (Spy.calledTimes calls)) /\
  Spy.called (Spy.resetSpy calls') = false /\
  Spy.lastCalledWith (Spy.resetSpy calls') = None /\
  Spy.called Spy.createSpy = false.
Proof.
  cbv zeta. unfold Spy.call, Spy.calledTimes, Spy.called, Spy.lastCalledWith,
    Spy.nthCallArgs, Spy.calledWith, Spy.resetSpy, Spy.createSpy.
  rewrite !length_app. cbn [List.length].
  split; [lia|]. split; [apply Nat.ltb_lt; lia|]. split; [apply last_snoc_some|].
  split; [rewrite nth_error_app2 by lia; rewrite Nat.sub_diag; reflexivity|].
  split; [intros n Hn; apply nth_error_app1; exact Hn|].
  split; [reflexivity|]. split; [lia|]. repeat split.
Qed.

(** X18.  [nthCallWith(n, ...args)] compares only the arguments it is
    given, by [===], with the arguments of call [n] at the same positions
    (a position the call did not fill reads [undefined]).  So it holds for
    a call that was made with further arguments after the given ones,
    provided no given argument is [NaN]; with no argument it holds for
    every index, also when the spy was never called; and with an argument
    and an index at which there is no call it throws a [TypeError]. *)
Theorem nthCallWith_compares_given_arguments (calls : Spy.t) (n : nat) :
  Spy.nthCallWith calls n [] = Ok true /\
  (forall arg args, Spy.nthCallArgs calls n = None ->
                    Spy.nthCallWith calls n (arg :: args) = Throw TypeError) /\
  (forall stored args,
      Spy.nthCallArgs calls n = Some stored ->
      Spy.nthCallWith calls n args =
      Ok (forallb (fun p => strict_eq p.2 (nth p.1 stored VUndefined))
            (combine (seq 0 (List.length args)) args))) /\
  (forall args more,
      forallb (fun v => strict_eq v v) args = true ->
      Spy.nthCallWith (Spy.call calls (args ++ more)) (Spy.calledTimes calls) args = Ok true) /\
  Spy.nthCallWith (Spy.call calls [VNum NaN]) (Spy.calledTimes calls) [VNum NaN] = Ok false.
Proof.
  assert (Hlast : forall a, Spy.nthCallArgs (Spy.call calls a) (Spy.calledTimes calls) = Some a).
  { intros a. unfold Spy.nthCallArgs, Spy.call, Spy.calledTimes.
    rewrite nth_error_app2 by lia. rewrite Nat.sub_diag. reflexivity. }
  split; [reflexivity|]. split; [|split; [|split]].
  - intros arg args H. unfold Spy.nthCallWith. rewrite H. reflexivity.
  - intros stored args H. unfold Spy.nthCallWith. rewrite H. apply every_strict_eq_spec.
  - intros args more H. unfold Spy.nthCallWith. rewrite Hlast.
    apply (every_strict_eq_prefix more args [] H).
  - unfold Spy.nthCallWith. rewrite Hlast. reflexivity.
Qed.

Lemma nthCallWith_compares_given_arguments_witness :
  Spy.nthCallWith (Spy.call (Spy.call Spy.createSpy [VStr "a"]) [VStr "b"; num 9; VNull]) 1
    [VStr "b"; num 9]
  = Ok true.
Proof.
  exact (proj1 (proj2 (proj2 (proj2 (nthCallWith_compares_given_arguments
                                       (Spy.call Spy.createSpy [VStr "a"]) 1))))
           [VStr "b"; num 9] [VNull] eq_refl).
Defined.

(** ** Rendering and the connection *)

Section Rendering.
Context (P : Platform) {T : Type}.

Local Abbreviation State := (@State T).
Local Abbreviation subscriber := (@subscriber T).
Local Abbreviation event := (@event T).
Local Abbreviation observable := (@observable T).

Lemma filter_no_render (l calls : list (@call T)) :
  Forall (fun c => is_template_or_renderer_call c = false) calls ->
  List.filter is_template_or_renderer_call (l ++ calls) =
  List.filter is_template_or_renderer_call l.
Proof.
  intros H. rewrite List.filter_app.
  replace (List.filter is_template_or_renderer_call calls) with (@nil (@call T)).
  - apply app_nil_r.
  - symmetry. induction H as [|c calls Hc HF IH]; [reflexivity|].
    simpl. rewrite Hc. exact IH.
Qed.

Lemma Forall_flat_map {A B} (Q : B -> Prop) (f : A -> list B) (l : list A) :
  (forall a, In a l -> Forall Q (f a)) -> Forall Q (flat_map f l).
Proof.
  induction l as [|a l IH]; intros H; [constructor|].
  simpl. apply Forall_app. split.
  - apply H. left. reflexivity.
  - apply IH. intros b Hb. apply H. right. exact Hb.
Qed.

Lemma deliver_no_render (st : State) (o : observable) (e : emission) :
  listens_to_update o = false ->
  Forall (fun c => is_template_or_renderer_call c = false) (deliver st o e).
Proof.
  destruct o as [src spy|t]; [|discriminate]. intros _. repeat constructor.
Qed.

Lemma receive_no_render (st : State) name config v (s : subscriber) :
  listens_to_update (observed s) = false ->
  Forall (fun c => is_template_or_renderer_call c = false) (receive st name config v s).2.
Proof.
  intros H. unfold receive. destruct (listens_to_properties (observed s)); [|constructor].
  cbn [snd]. apply Forall_flat_map. intros e _. apply deliver_no_render. exact H.
Qed.

Lemma next_no_render (st : State) key v :
  Forall (fun x => listens_to_update (observed x.2) = false) (live st) ->
  List.filter is_template_or_renderer_call (log (next st key v)) =
  List.filter is_template_or_renderer_call (log st).
Proof.
  intros H. unfold next. destruct (assoc key (setters st)) as [[cur config]|]; [|reflexivity].
  unfold notify. cbn [log]. apply filter_no_render.
  apply Forall_flat_map. intros x Hx. apply receive_no_render.
  rewrite List.Forall_forall in H. apply H. exact Hx.
Qed.

Lemma step_no_render (st : State) (e : event) :
  Forall (fun x => listens_to_update (observed x.2) = false) (live st) ->
  connects e = false ->
  List.filter is_template_or_renderer_call (log (step P st e)) =
  List.filter is_template_or_renderer_call (log st).
Proof.
  intros H Hc. pose proof H as HF. rewrite List.Forall_forall in HF.
  destruct e; try discriminate Hc; cbn [step]; try reflexivity.
  - unfold attributeChanged. cbn [or_else].
    destruct (assoc attr (setters st)); [|reflexivity].
    destruct (parseAttribute P (heap st) (node st) attr (Plain newValue)).
    + rewrite next_no_render by exact H. reflexivity.
    + cbn [log]. apply filter_no_render. repeat constructor.
  - unfold set_property. destruct (assoc key (setters st)); [|reflexivity].
    apply next_no_render. exact H.
  - unfold update. cbn [log]. apply filter_no_render.
    apply Forall_flat_map. intros x Hx. rewrite (HF x Hx). constructor.
  - unfold subject_next. cbn [log]. apply filter_no_render.
    apply Forall_flat_map. intros x Hx.
    destruct (listens_to_subject id (observed x.2)); [|constructor].
    apply deliver_no_render. apply HF. exact Hx.
  - destruct (attach_fields false st (Tapped src spy)) as (_ & -> & _).
    apply filter_no_render. unfold subscribe_to.
    destruct (listens_to_properties (Tapped src spy)); [|constructor].
    cbn [snd]. apply Forall_flat_map. intros x _. apply deliver_no_render. reflexivity.
Qed.

Lemma templates_need_connect fresh n props (st0 : State) (es : list event) :
  create P fresh n props = Ok st0 ->
  connected_after es = false ->
  Forall (fun x => listens_to_update (observed x.2) = false) (live (run P st0 es)).
Proof.
  intros Hcreate Hc.
  assert (I : invariant (run P st0 es))
    by (apply invariant_run; eapply invariant_create; exact Hcreate).
  pose proof (nothing_scoped_while_disconnected P _ _ _ _ es Hcreate Hc) as Hs.
  pose proof (inv_templates _ I) as Ht.
  rewrite List.Forall_forall in *. intros x Hx.
  destruct (listens_to_update (observed x.2)) eqn:E; [|reflexivity].
  pose proof (Ht x Hx E) as Hsc.
  assert (Hin : In x (List.filter (fun e => scoped e.2) (live (run P st0 es)))).
  { apply List.filter_In. split; assumption. }
  rewrite Hs in Hin. destruct Hin.
Qed.

Lemma connected_after_app (es es' : list event) :
  forallb (fun e => negb (connects e)) es' = true ->
  connected_after es = false -> connected_after (es ++ es') = false.
Proof.
  revert es. induction es' as [|e es' IH]; intros es H Hc.
  - rewrite app_nil_r. exact Hc.
  - simpl in H. apply andb_prop in H as [He Hes]. apply negb_true_iff in He.
    replace (es ++ e :: es') with ((es ++ [e]) ++ es') by (rewrite <- app_assoc; reflexivity).
    apply IH; [exact Hes|]. rewrite connected_after_snoc.
    destruct e; try discriminate He; try exact Hc; reflexivity.
Qed.

(** X19.  Nothing is rendered while the node is disconnected: from the
    moment the last lifecycle signal is not [connected] (right after
    [create], or after a [disconnected] signal) until the next [connected]
    signal, no event makes a call of a template or of the renderer; writes
    to properties, attribute changes, [update()], registrations of
    templates and subscriptions of the caller are all silent in this
    respect. *)
Theorem nothing_renders_while_disconnected fresh n props (st0 : State)
    (es es' : list event) :
  create P fresh n props = Ok st0 ->
  connected_after es = false ->
  forallb (fun e => negb (connects e)) es' = true ->
  List.filter is_template_or_renderer_call (log (run P st0 (es ++ es'))) =
  List.filter is_template_or_renderer_call (log (run P st0 es)).
Proof.
  intros Hcreate Hc. induction es' as [|e es' IH] using rev_ind; intros H.
  - rewrite app_nil_r. reflexivity.
  - rewrite forallb_app in H. apply andb_prop in H as [Hes He].
    simpl in He. rewrite andb_true_r in He. apply negb_true_iff in He.
    rewrite app_assoc, run_app. change (run P ?s [e]) with (step P s e).
    rewrite step_no_render; [apply IH; exact Hes| |exact He].
    eapply templates_need_connect; [exact Hcreate|].
    apply connected_after_app; assumption.
Qed.

End Rendering.

Lemma nothing_renders_while_disconnected_witness :
  List.filter is_template_or_renderer_call
    (log (run sample_platform abc_host
            ([UseTemplate show_a; Connected; Disconnected] ++
             [SetProperty "a" (num 5); Update; AttributeChanged "b" (VStr "7");
              UseTemplate show_a; Attach PropertyChanged 0; SetProperty "a" (num 6)])))
  = List.filter is_template_or_renderer_call
      (log (run sample_platform abc_host [UseTemplate show_a; Connected; Disconnected])).
Proof.
  apply (nothing_renders_while_disconnected sample_platform 0 abc_element abc_schema
           abc_host [UseTemplate show_a; Connected; Disconnected]
           [SetProperty "a" (num 5); Update; AttributeChanged "b" (VStr "7");
            UseTemplate show_a; Attach PropertyChanged 0; SetProperty "a" (num 6)]);
    reflexivity.
Defined.

(** ** The two revisions of the [attributeChanged] listener *)

Section Revisions.
Context (P : Platform) {T : Type}.

Local Abbreviation State := (@State T).
Local Abbreviation event := (@event T).

Lemma next_ignores_heap (a b : State) key v :
  node a = node b -> setters a = setters b -> live a = live b -> log a = log b ->
  setters (next a key v) = setters (next b key v) /\
  live (next a key v) = live (next b key v) /\
  log (next a key v) = log (next b key v).
Proof.
  intros Hn Hs Hl Hlog. unfold next. rewrite Hs.
  destruct (assoc key (setters b)) as [[cur config]|]; [|repeat split; assumption].
  cbv zeta.
  match goal with
  | |- context [notify (receive ?A key config v) (live a)] =>
    match goal with
    | |- context [notify (receive ?B key config v) (live b)] =>
      rewrite (notify_ext (receive A key config v) (receive B key config v))
        by (intros s; apply receive_ext; [reflexivity|exact Hn])
    end
  end.
  rewrite Hl. destruct (notify _ (live b)) as [observers calls].
  cbn [setters live log]. repeat split; congruence.
Qed.


End Revisions.

